(** * Shopping concierge: intent resolution and product matching

    A shallow embedding of the pure core of the repository
    (adk-agents/concierge_coordinator.py, mcp-server/server.py and
    streamlit-ui/app.py) together with the properties of its
    natural-language specification.

    Modelling conventions.
    - Python [str] is [string]; the model is exact on ASCII text.  A
      character above code 127 is treated as a caseless symbol that is
      neither white space nor a word character.
    - A similarity score is a Python float in the source.  Here it is an
      exact rational ([Q]): [2*M/T] for a [difflib] ratio, and the decimal
      literals 0.5, 0.7, 0.8 and 0.9 are the rationals they denote.
    - A product dictionary is the record [Product] with the keys the
      catalogue endpoints build (id, name, description, price,
      categories).
    - A price and a budget are exact rationals, like a score.
    - The cart service is a state with the calls GetCart, EmptyCart and
      AddItem; a call answers or raises an error with a text, and a call
      that raises leaves the state as it is.  The endpoints log the calls
      they make.
    - Regular expressions are matched by a backtracking matcher on
      ASCII text; [re.search], [re.findall] and [re.sub] are built on
      it. *)

From Stdlib Require Import String Ascii List Bool Arith ZArith QArith Lia Lqa.
From Stdlib Require Import Permutation Sorted DecimalString DecimalPos.
Import ListNotations.

Local Open Scope string_scope.
Local Open Scope list_scope.

(** ** Python string primitives *)

Module PyStr.

Definition code (c : ascii) : nat := nat_of_ascii c.

(** [c.isupper()], [c.islower()], [c.isdigit()] for one ASCII character. *)
Definition isupper (c : ascii) : bool := (65 <=? code c)%nat && (code c <=? 90)%nat.
Definition islower (c : ascii) : bool := (97 <=? code c)%nat && (code c <=? 122)%nat.
Definition isdigit (c : ascii) : bool := (48 <=? code c)%nat && (code c <=? 57)%nat.

(** [c.isspace()]: tab, line feed, vertical tab, form feed, carriage
    return, the four separators 0x1c..0x1f and the space. *)
Definition isspace (c : ascii) : bool :=
  ((9 <=? code c)%nat && (code c <=? 13)%nat)
  || ((28 <=? code c)%nat && (code c <=? 32)%nat).

Definition lower_char (c : ascii) : ascii :=
  if isupper c then ascii_of_nat (code c + 32) else c.

(** [s.lower()] *)
Fixpoint lower (s : string) : string :=
  match s with
  | EmptyString => EmptyString
  | String c s' => String (lower_char c) (lower s')
  end.

(** [s.lstrip()], [s.rstrip()], [s.strip()] with a character set given
    as a predicate. *)
Fixpoint lstrip_by (f : ascii -> bool) (s : string) : string :=
  match s with
  | EmptyString => EmptyString
  | String c s' => if f c then lstrip_by f s' else s
  end.

Fixpoint rstrip_by (f : ascii -> bool) (s : string) : string :=
  match s with
  | EmptyString => EmptyString
  | String c s' =>
      match rstrip_by f s' with
      | EmptyString => if f c then EmptyString else String c EmptyString
      | r => String c r
      end
  end.

Definition strip (s : string) : string := rstrip_by isspace (lstrip_by isspace s).

(** [s.rstrip(chars)] for a one-character set. *)
Definition rstrip_char (c : ascii) (s : string) : string := rstrip_by (Ascii.eqb c) s.

(** [needle in hay] *)
Fixpoint contains (needle hay : string) : bool :=
  String.prefix needle hay
  || match hay with
     | EmptyString => false
     | String _ hay' => contains needle hay'
     end.

(** [s.endswith(suf)] *)
Definition endswith (s suf : string) : bool :=
  (String.length suf <=? String.length s)%nat
  && String.eqb (substring (String.length s - String.length suf) (String.length suf) s) suf.

(** [s[:-n]] *)
Definition drop_last (n : nat) (s : string) : string :=
  substring 0 (String.length s - n) s.

(** [s.split()]: the maximal runs of non-space characters. *)
Fixpoint split (s : string) : list string :=
  match s with
  | EmptyString => []
  | String c s' =>
      if isspace c then split s'
      else match s' with
           | EmptyString => [String c EmptyString]
           | String d _ =>
               if isspace d then String c EmptyString :: split s'
               else match split s' with
                    | w :: ws => String c w :: ws
                    | [] => [String c EmptyString]
                    end
           end
  end.

(** [sep.join(ws)] *)
Definition join (sep : string) (ws : list string) : string := String.concat sep ws.

(** [w in ws] for a list or a set of strings. *)
Definition mem (w : string) (ws : list string) : bool := existsb (String.eqb w) ws.

(** [list(set(ws))] up to the order of the result, which Python leaves
    unspecified: every word is kept once. *)
Fixpoint dedup (ws : list string) : list string :=
  match ws with
  | [] => []
  | w :: ws' => if mem w ws' then dedup ws' else w :: dedup ws'
  end.

End PyStr.

(** ** difflib.SequenceMatcher(None, a, b).ratio()

    The source imports [SequenceMatcher] from Python's standard library.
    The definitions below follow CPython's Lib/difflib.py: [chain_b] with
    the automatic junk heuristic, [find_longest_match],
    [get_matching_blocks] and [ratio].  No junk predicate is given
    ([isjunk] is [None]), so the junk set is empty and only the "popular"
    characters of a long second sequence are left out of the index. *)

Module Difflib.

Definition seq := list ascii.

Definition count_occ_char (c : ascii) (b : seq) : nat :=
  List.length (filter (Ascii.eqb c) b).

(** [__chain_b]: when [len(b) >= 200], a character with more than
    [len(b) // 100 + 1] occurrences is popular and has no entry in [b2j]. *)
Definition popular (b : seq) (c : ascii) : bool :=
  (200 <=? List.length b)%nat
  && (List.length b / 100 + 1 <? count_occ_char c b)%nat.

(** A candidate block: start in [a], start in [b], size. *)
Record Match := mkMatch { m_i : nat; m_j : nat; m_size : nat }.

(** One pass of the inner loop [for j in b2j.get(a[i], nothing)], over
    the whole of [b] from index [j] on.  [old] is the previous row
    [j2len] from index [j] on, [prev] is [j2len.get(j-1, 0)]; an absent
    key is the length 0.  The result is the new row and the best block. *)
Fixpoint scan_row (pop : ascii -> bool) (blo bhi : nat) (ai : ascii) (i : nat)
         (bs : seq) (j : nat) (old : list nat) (prev : nat) (best : Match)
  : list nat * Match :=
  match bs with
  | [] => ([], best)
  | bj :: bs' =>
      let hit := (blo <=? j)%nat && (j <? bhi)%nat && Ascii.eqb ai bj && negb (pop bj) in
      let k := if hit then S prev else 0%nat in
      let best' :=
        if hit && (m_size best <? k)%nat
        then mkMatch (i + 1 - k) (j + 1 - k) k
        else best in
      let (row, best'') :=
        scan_row pop blo bhi ai i bs' (S j) (tl old) (hd 0%nat old) best' in
      (k :: row, best'')
  end.

(** The outer loop [for i in range(alo, ahi)], over [a] from index [i] on. *)
Fixpoint scan_rows (pop : ascii -> bool) (alo ahi blo bhi : nat)
         (as_ : seq) (i : nat) (b : seq) (row : list nat) (best : Match) : Match :=
  match as_ with
  | [] => best
  | ai :: as' =>
      if (alo <=? i)%nat && (i <? ahi)%nat then
        let (row', best') := scan_row pop blo bhi ai i b 0 row 0 best in
        scan_rows pop alo ahi blo bhi as' (S i) b row' best'
      else scan_rows pop alo ahi blo bhi as' (S i) b row best
  end.

Definition nth_char (s : seq) (n : nat) : ascii := nth n s zero.

(** First extension loop: grow the block to the left while the
    characters agree.  [n] bounds the number of steps. *)
Fixpoint extend_left (a b : seq) (alo blo : nat) (n : nat) (m : Match) : Match :=
  match n with
  | O => m
  | S n' =>
      if (alo <? m_i m)%nat && (blo <? m_j m)%nat
         && Ascii.eqb (nth_char a (m_i m - 1)) (nth_char b (m_j m - 1))
      then extend_left a b alo blo n' (mkMatch (m_i m - 1) (m_j m - 1) (S (m_size m)))
      else m
  end.

(** Second extension loop: grow the block to the right. *)
Fixpoint extend_right (a b : seq) (ahi bhi : nat) (n : nat) (m : Match) : Match :=
  match n with
  | O => m
  | S n' =>
      if (m_i m + m_size m <? ahi)%nat && (m_j m + m_size m <? bhi)%nat
         && Ascii.eqb (nth_char a (m_i m + m_size m)) (nth_char b (m_j m + m_size m))
      then extend_right a b ahi bhi n' (mkMatch (m_i m) (m_j m) (S (m_size m)))
      else m
  end.

(** [find_longest_match(alo, ahi, blo, bhi)].  The last two loops of the
    Python function only run on junk characters, of which there are none. *)
Definition find_longest_match (a b : seq) (alo ahi blo bhi : nat) : Match :=
  let m0 := scan_rows (popular b) alo ahi blo bhi a 0 b [] (mkMatch alo blo 0) in
  let m1 := extend_left a b alo blo (m_i m0) m0 in
  extend_right a b ahi bhi (ahi - (m_i m1 + m_size m1)) m1.

(** The sum of the sizes of [get_matching_blocks()]: the work queue of the
    Python function is unfolded into the two recursive calls.  [fuel]
    bounds the depth; [ahi - alo] is always enough. *)
Fixpoint matching_size (fuel : nat) (a b : seq) (alo ahi blo bhi : nat) : nat :=
  match fuel with
  | O => 0
  | S fuel' =>
      let m := find_longest_match a b alo ahi blo bhi in
      let i := m_i m in let j := m_j m in let k := m_size m in
      if (k =? 0)%nat then 0
      else
        k
        + (if (alo <? i)%nat && (blo <? j)%nat
           then matching_size fuel' a b alo i blo j else 0)
        + (if (i + k <? ahi)%nat && (j + k <? bhi)%nat
           then matching_size fuel' a b (i + k) ahi (j + k) bhi else 0)
  end.

Definition matches (a b : seq) : nat :=
  matching_size (List.length a) a b 0 (List.length a) 0 (List.length b).

(** [_calculate_ratio(matches, length)] *)
Definition calculate_ratio (m len : nat) : Q :=
  if (len =? 0)%nat then 1
  else (2 * Z.of_nat m # Pos.of_nat len).

Definition ratio (a b : string) : Q :=
  let a' := list_ascii_of_string a in
  let b' := list_ascii_of_string b in
  calculate_ratio (matches a' b') (List.length a' + List.length b').

End Difflib.

(** ** Products and scores *)

Module Data.

(** The [price] dictionary of a product: [units] and [nanos]. *)
Record Price := mkPrice { units : Z; nanos : Z }.

(** A product as the catalogue endpoints of mcp-server/server.py build it. *)
Record Product := mkProduct {
  id : string;
  name : string;
  description : string;
  price : Price;
  categories : list string
}.

Definition Qltb (a b : Q) : bool := negb (Qle_bool b a).

(** Python's [max(a, b)]: the first argument is kept unless the second
    is strictly greater. *)
Definition pymax (a b : Q) : Q := if Qltb a b then b else a.

(** [max(a, x1, ..., xn)] *)
Definition pymax_list (a : Q) (xs : list Q) : Q := fold_left pymax xs a.

Definition Qsum (xs : list Q) : Q := fold_left Qplus xs 0.

(** [len(w) > 2], written [len(w) >= 3] in the server. *)
Definition long_word (w : string) : bool := (2 <? String.length w)%nat.

(** [l.sort(key=key, reverse=True)].  Python's sort is stable, also when
    reversed, and a stable sort has one possible result; it is computed
    here by insertion: an element goes in front of the first element
    whose key is not strictly greater. *)
Section Sort.
Context {A : Type} (key : A -> Q).

Fixpoint insert_desc (x : A) (l : list A) : list A :=
  match l with
  | [] => [x]
  | y :: l' => if Qltb (key x) (key y) then y :: insert_desc x l' else x :: l
  end.

Fixpoint sort_desc (l : list A) : list A :=
  match l with
  | [] => []
  | x :: l' => insert_desc x (sort_desc l')
  end.
End Sort.

(** The loop that keeps a product when its score reaches the threshold
    and annotates it with the score ([product['_similarity'] = ...]). *)
Definition annotate (score : Product -> Q) (threshold : Q) (products : list Product)
  : list (Product * Q) :=
  flat_map (fun p => let s := score p in
                     if Qle_bool threshold s then [(p, s)] else []) products.

(** Sort on the annotation, then drop it ([p.pop('_similarity', None)]). *)
Definition rank (matched : list (Product * Q)) : list Product :=
  map fst (sort_desc snd matched).

End Data.

(** ** adk-agents/concierge_coordinator.py: the fuzzy matcher *)

Module Coordinator.
Import PyStr Data.

(** Lines 135-148: the query variants of the lowercased, stripped query. *)
Definition query_variants (query_lower : string) : list string :=
  if endswith query_lower "s" && (3 <? String.length query_lower)%nat then
    [query_lower; rstrip_char "s" query_lower]
    ++ (if endswith query_lower "es" && (4 <? String.length query_lower)%nat
        then [drop_last 2 query_lower] else [])
  else
    [query_lower; (query_lower ++ "s")%string]
    ++ (if negb (endswith query_lower "e") then [(query_lower ++ "es")%string] else []).

(** Lines 150-154: the words of all variants, longer than 2, as a set. *)
Definition query_words (variants : list string) : list string :=
  dedup (filter long_word (flat_map split variants)).

(** Lines 175-180: what one query word adds to [word_matches]. *)
Definition word_match (searchable_text q_word : string) : Q :=
  if contains q_word searchable_text then 1
  else if existsb (fun word => contains q_word word)
                  (filter long_word (split searchable_text)) then 7 # 10
  else if existsb (fun word => contains word q_word)
                  (filter long_word (split searchable_text)) then 5 # 10
  else 0.

Definition word_matches (searchable_text : string) (words : list string) : Q :=
  Qsum (map (word_match searchable_text) words).

Definition searchable_text_of (p : Product) : string :=
  (lower (name p) ++ " " ++ lower (description p) ++ " "
   ++ lower (join " " (categories p)))%string.

(** Lines 165-169: the best [SequenceMatcher] ratio over the variants
    and the three fields. *)
Definition direct_similarity (variants : list string) (p : Product) (start : Q) : Q :=
  fold_left
    (fun acc variant =>
       pymax_list acc
         [Difflib.ratio variant (lower (name p));
          Difflib.ratio variant (lower (description p));
          Difflib.ratio variant (lower (join " " (categories p)))])
    variants start.

(** Line 182: [word_matches / len(query_words)] *)
Definition word_score (searchable_text : string) (words : list string) : Q :=
  word_matches searchable_text words / inject_Z (Z.of_nat (List.length words)).

(** Lines 185-188: the floor for a variant found in the product name. *)
Definition name_boost (variants : list string) (name_lower : string) (start : Q) : Q :=
  fold_left
    (fun acc variant => if contains variant name_lower then pymax acc (8 # 10) else acc)
    variants start.

(** Lines 157-188: [max_similarity] of one product. *)
Definition max_similarity (variants words : list string) (p : Product) : Q :=
  let s1 := direct_similarity variants p 0 in
  let s2 := match words with
            | [] => s1
            | _ => pymax s1 (word_score (searchable_text_of p) words * (9 # 10))
            end in
  name_boost variants (lower (name p)) s2.

(** The score of a product for a raw query. *)
Definition score (query : string) (p : Product) : Q :=
  let variants := query_variants (strip (lower query)) in
  max_similarity variants (query_words variants) p.

(** Lines 128-201. *)
Definition fuzzy_match_products (query : string) (products : list Product) (threshold : Q)
  : list Product :=
  rank (annotate (score query) threshold products).

End Coordinator.

(** ** mcp-server/server.py: the two matchers of the catalogue server *)

Module McpServer.
Import PyStr Data.

(** Lines 135-150. *)
Definition query_variants (query_lower : string) : list string :=
  if endswith query_lower "s" && (3 <? String.length query_lower)%nat then
    [query_lower; rstrip_char "s" query_lower]
    ++ (if endswith query_lower "es" && (4 <? String.length query_lower)%nat
        then [drop_last 2 query_lower] else [])
  else
    [query_lower; (query_lower ++ "s")%string; (query_lower ++ "es")%string].

(** Lines 152-156: all the words of the variants, as a set. *)
Definition query_words (variants : list string) : list string :=
  dedup (flat_map split variants).

(** Lines 181-191: a word shorter than 3 adds nothing. *)
Definition word_match (searchable_text q_word : string) : Q :=
  if long_word q_word then Coordinator.word_match searchable_text q_word else 0.

(** Lines 176-193. *)
Definition word_score (searchable_text : string) (words : list string) : Q :=
  let total_words := List.length words in
  if (0 <? total_words)%nat
  then Qsum (map (word_match searchable_text) words) / inject_Z (Z.of_nat total_words)
  else 0.

(** Lines 195-201. *)
Definition category_score (variants : list string) (p : Product) : Q :=
  if existsb (fun category =>
                existsb (fun variant => contains variant (lower category)
                                        || contains (lower category) variant) variants)
             (categories p)
  then 8 # 10 else 0.

(** Lines 159-213: [final_score] of one product. *)
Definition final_score (variants words : list string) (p : Product) : Q :=
  let max_similarity := Coordinator.direct_similarity variants p 0 in
  let final :=
    pymax_list max_similarity
      [word_score (Coordinator.searchable_text_of p) words * (9 # 10);
       category_score variants p] in
  Coordinator.name_boost variants (lower (name p)) final.

Definition enhanced_score (query : string) (p : Product) : Q :=
  let variants := query_variants (strip (lower query)) in
  final_score variants (query_words variants) p.

(** Lines 126-226. *)
Definition enhanced_fuzzy_match_products
           (query : string) (products : list Product) (threshold : Q) : list Product :=
  rank (annotate (enhanced_score query) threshold products).

(** Lines 249-256 of the restored original matcher. *)
Definition basic_word_match (name_words desc_words : list string) (q_word : string) : Q :=
  if existsb (fun n_word => contains q_word n_word) name_words then 1
  else if existsb (fun d_word => contains q_word d_word) desc_words then 5 # 10
  else 0.

(** Lines 236-259. *)
Definition basic_score (query : string) (p : Product) : Q :=
  let query_lower := lower query in
  let name_lower := lower (name p) in
  let name_similarity := Difflib.ratio query_lower name_lower in
  let desc_lower := lower (description p) in
  let desc_similarity := Difflib.ratio query_lower desc_lower in
  let query_words := split query_lower in
  let word_matches :=
    Qsum (map (basic_word_match (split name_lower) (split desc_lower)) query_words) in
  let word_score :=
    match query_words with
    | [] => 0
    | _ => word_matches / inject_Z (Z.of_nat (List.length query_words))
    end in
  pymax_list name_similarity [desc_similarity; word_score].

(** Lines 228-272. *)
Definition fuzzy_match_products
           (query : string) (products : list Product) (threshold : Q) : list Product :=
  rank (annotate (basic_score query) threshold products).

End McpServer.

(** ** Regular expressions

    The fragment of Python's [re] that the extractors of the coordinator
    use, with [re.search] as a backtracking matcher: alternatives are
    tried left to right, repetitions are greedy, the leftmost match wins.
    A repetition applies to a character class, as in every pattern of
    the source. *)

Module Re.
Import PyStr.
Local Open Scope nat_scope.

Inductive regex :=
| Lit (s : string)                                     (* literal text *)
| Cat (r1 r2 : regex)                                  (* r1 r2 *)
| Alt (r1 r2 : regex)                                  (* r1|r2 *)
| Opt (r : regex)                                      (* r? *)
| Rep (f : ascii -> bool) (lo : nat) (hi : option nat) (* [f]{lo,hi}, [f]*, [f]+ *)
| Group (r : regex)                                    (* (r), group 1 *)
| WordBoundary.                                        (* \b *)

Definition cat_all (rs : list regex) : regex := fold_right Cat (Lit "") rs.

Definition upper_char (c : ascii) : ascii :=
  if islower c then ascii_of_nat (code c - 32) else c.

(** [\w] *)
Definition isword (c : ascii) : bool :=
  isupper c || islower c || isdigit c || Ascii.eqb c "_".

Definition isword_opt (c : option ascii) : bool :=
  match c with Some c => isword c | None => false end.

Definition first_char (s : string) : option ascii :=
  match s with String c _ => Some c | EmptyString => None end.

Section Matcher.
(** [re.IGNORECASE] *)
Variable ignorecase : bool.
Context {R : Type}.

(** What is left to match: the character before the position, the
    rest of the text and the text of group 1. *)
Definition cont := option ascii -> string -> option string -> option R.

Definition char_eq (a b : ascii) : bool :=
  if ignorecase then Ascii.eqb (lower_char a) (lower_char b) else Ascii.eqb a b.

Definition in_class (f : ascii -> bool) (c : ascii) : bool :=
  f c || (ignorecase && (f (lower_char c) || f (upper_char c))).

Fixpoint lit (p : string) (prev : option ascii) (s : string)
  : option (option ascii * string) :=
  match p with
  | EmptyString => Some (prev, s)
  | String a p' =>
      match s with
      | String b s' => if char_eq a b then lit p' (Some b) s' else None
      | EmptyString => None
      end
  end.

(** Greedy repetition: one more character first, the continuation
    when that fails and [lo] characters have been taken. *)
Fixpoint rep (f : ascii -> bool) (lo : nat) (hi : option nat)
         (prev : option ascii) (s : string) (cap : option string) (k : cont)
  : option R :=
  let stop := match lo with O => k prev s cap | S _ => None end in
  let more := match hi with Some O => false | _ => true end in
  match s with
  | String c s' =>
      if more && in_class f c then
        match rep f (Nat.pred lo) (option_map Nat.pred hi) (Some c) s' cap k with
        | Some r => Some r
        | None => stop
        end
      else stop
  | EmptyString => stop
  end.

Fixpoint run (r : regex) (prev : option ascii) (s : string) (cap : option string)
         (k : cont) : option R :=
  match r with
  | Lit p =>
      match lit p prev s with
      | Some (prev', s') => k prev' s' cap
      | None => None
      end
  | Cat r1 r2 => run r1 prev s cap (fun prev' s' cap' => run r2 prev' s' cap' k)
  | Alt r1 r2 =>
      match run r1 prev s cap k with
      | Some x => Some x
      | None => run r2 prev s cap k
      end
  | Opt r1 =>
      match run r1 prev s cap k with
      | Some x => Some x
      | None => k prev s cap
      end
  | Rep f lo hi => rep f lo hi prev s cap k
  | Group r1 =>
      run r1 prev s cap
          (fun prev' s' _ =>
             k prev' s' (Some (substring 0 (String.length s - String.length s') s)))
  | WordBoundary =>
      if xorb (isword_opt prev) (isword_opt (first_char s)) then k prev s cap else None
  end.
End Matcher.

(** A match object, reduced to [match.group(1)]. *)
Record MatchObject := mkMatchObject { group1 : option string }.

Fixpoint search_at (ignorecase : bool) (r : regex) (prev : option ascii) (s : string)
  : option MatchObject :=
  match run ignorecase r prev s None (fun _ _ cap => Some (mkMatchObject cap)) with
  | Some m => Some m
  | None =>
      match s with
      | EmptyString => None
      | String c s' => search_at ignorecase r (Some c) s'
      end
  end.

(** [re.search(pattern, s)] and [re.search(pattern, s, re.IGNORECASE)] *)
Definition search (ignorecase : bool) (r : regex) (s : string) : option MatchObject :=
  search_at ignorecase r None s.

(** [\s*], [\d+], [\d{2}] and the class [[A-Z0-9_-]] *)
Definition spaces : regex := Rep isspace 0 None.
Definition digits1 : regex := Rep isdigit 1 None.
Definition digits2 : regex := Rep isdigit 2 (Some 2).
Definition id_char (c : ascii) : bool :=
  isupper c || isdigit c || Ascii.eqb c "_" || Ascii.eqb c "-".

End Re.

(** ** Numbers as text *)

Module Num.
Import PyStr.
Local Open Scope nat_scope.

(** [str(n)] for an integer. *)
Definition str (n : Z) : string := DecimalString.NilZero.string_of_int (Z.to_int n).

Fixpoint zeros (n : nat) : string :=
  match n with O => EmptyString | S n' => String "0" (zeros n') end.

(** [format(n, '02d')]: at least two characters, zeros after the sign. *)
Definition format_02d (n : Z) : string :=
  let d := str (Z.abs n) in
  if (n <? 0)%Z then ("-" ++ zeros (1 - String.length d) ++ d)%string
  else (zeros (2 - String.length d) ++ d)%string.

Definition digit_value (c : ascii) : Z := Z.of_nat (code c - 48).

(** The value of a string of decimal digits. *)
Fixpoint digits_value (s : string) (acc : Z) : option Z :=
  match s with
  | EmptyString => Some acc
  | String c s' => if isdigit c then digits_value s' (10 * acc + digit_value c)%Z else None
  end.

Fixpoint split_dot (s : string) : string * option string :=
  match s with
  | EmptyString => (EmptyString, None)
  | String c s' =>
      if Ascii.eqb c "." then (EmptyString, Some s')
      else let (i, f) := split_dot s' in (String c i, f)
  end.

(** [float(s)] for an unsigned decimal numeral, as the exact rational. *)
Definition float (s : string) : option Q :=
  match split_dot s with
  | (i, None) =>
      match i, digits_value i 0%Z with
      | String _ _, Some n => Some (inject_Z n)
      | _, _ => None
      end
  | (i, Some f) =>
      match digits_value i 0%Z, digits_value f 0%Z with
      | Some n, Some m =>
          if ((String.length i + String.length f)%nat =? 0)%nat then None
          else Some (Qred (inject_Z n + (m # Pos.of_nat (10 ^ String.length f)))%Q)
      | _, _ => None
      end
  end.

End Num.

(** ** adk-agents/concierge_coordinator.py: class SemanticSearchEngine *)

Module SemanticSearchEngine.
Import PyStr Data.

(** The keys of [intent_patterns]. *)
Inductive Intent := search | cart_view | cart_add | recommendations | help.

(** Lines 235-256.  A Python dictionary iterates in insertion order. *)
Definition intent_patterns : list (Intent * list string) :=
  [ (search,
     ["find"; "search"; "look for"; "show me"; "get me"; "i need"; "i want";
      "looking for"; "searching for"; "where can i find"; "do you have"]);
    (cart_view,
     ["cart"; "basket"; "my items"; "what do i have"; "show cart";
      "view cart"; "check cart"; "my bag"]);
    (cart_add,
     ["add to cart"; "buy"; "purchase"; "get this"; "i'll take";
      "put in cart"; "add this"; "buy this"]);
    (recommendations,
     ["recommend"; "suggest"; "what should i buy"; "surprise me";
      "what's good"; "what's popular"; "best sellers"; "top rated"]);
    (help,
     ["help"; "what can you do"; "how does this work"; "instructions";
      "commands"; "options"; "what are my choices"]) ].

(** [any(pattern in text_lower for pattern in patterns)] *)
Definition any_pattern (text_lower : string) (patterns : list string) : bool :=
  existsb (fun pattern => contains pattern text_lower) patterns.

(** The embedding backend, when one is loaded: for a text, the best
    cosine similarity of every intent's phrases, or [None] when the
    backend raises. *)
Definition Model := string -> option (Intent -> Q).

(** Lines 386-393: the intent of the highest similarity above 0. *)
Definition best_intent (sim : Intent -> Q) : Intent * Q :=
  fold_left
    (fun best entry =>
       let max_similarity := sim (fst entry) in
       if Qltb (snd best) max_similarity then (fst entry, max_similarity) else best)
    intent_patterns (search, 0).

(** Lines 370-400. *)
Definition classify_intent (model : option Model) (text : string) : Intent :=
  let text_lower := lower text in
  match find (fun entry => any_pattern text_lower (snd entry)) intent_patterns with
  | Some (intent, _) => intent
  | None =>
      match model with
      | Some encode =>
          match encode text with
          | Some sim =>
              let (intent, best_score) := best_intent sim in
              if Qltb (3 # 10) best_score then intent else search
          | None => search
          end
      | None => search
      end
  end.

Definition stop_words : list string :=
  ["the"; "a"; "an"; "and"; "or"; "but"; "in"; "on"; "at"; "to"; "for"; "of";
   "with"; "by"].

(** [re.sub(r'\s+', ' ', text)]: a run of white space becomes one space,
    written where the run ends. *)
Fixpoint collapse_spaces (s : string) : string :=
  match s with
  | EmptyString => EmptyString
  | String c s' =>
      if isspace c then
        match s' with
        | EmptyString => String " " EmptyString
        | String d _ =>
            if isspace d then collapse_spaces s' else String " " (collapse_spaces s')
        end
      else String c (collapse_spaces s')
  end.

(** Lines 258-271. *)
Definition preprocess_text (text : string) : string :=
  match text with
  | EmptyString => EmptyString
  | _ =>
      let text := strip (lower text) in
      let text := collapse_spaces text in
      let words := split text in
      let words :=
        filter (fun w => negb (mem w stop_words) || (List.length words <=? 3)%nat) words in
      join " " words
  end.

End SemanticSearchEngine.

(** ** adk-agents/concierge_coordinator.py: class ShoppingAgent *)

Module ShoppingAgent.
Import PyStr Data Re.

(** Lines 1132-1136. *)
Definition product_id_patterns : list regex :=
  [ cat_all [Alt (Lit "id") (Lit "product"); spaces; Opt (Lit ":"); spaces;
             Group (Rep id_char 8 (Some 15%nat))];
    cat_all [Lit "`"; Group (Rep id_char 8 (Some 15%nat)); Lit "`"];
    cat_all [WordBoundary; Group (Rep id_char 8 (Some 15%nat)); WordBoundary] ].

Definition common_words : list string :=
  ["mug"; "shirt"; "shoes"; "watch"; "bag"; "pants"; "dress"; "tank"; "tops"].

Definition string_exists (f : ascii -> bool) (s : string) : bool :=
  existsb f (list_ascii_of_string s).

(** Lines 1143-1145: does the candidate look like a product id? *)
Definition valid_candidate (candidate_id : string) : bool :=
  (8 <=? String.length candidate_id)%nat
  && negb (mem (lower candidate_id) common_words)
  && string_exists (fun c => isupper c || isdigit c) candidate_id.

(** Lines 1138-1147: the first pattern whose first match is valid. *)
Fixpoint first_valid (patterns : list regex) (message : string) : option string :=
  match patterns with
  | [] => None
  | pattern :: rest =>
      match search true pattern message with
      | Some m =>
          match group1 m with
          | Some candidate_id =>
              if valid_candidate candidate_id then Some candidate_id
              else first_valid rest message
          | None => first_valid rest message
          end
      | None => first_valid rest message
      end
  end.

Definition _extract_product_id (message : string) : option string :=
  first_valid product_id_patterns message.

(** [\$?(\d+(?:\.\d{2})?)], the tail of every budget pattern. *)
Definition amount : regex :=
  cat_all [Opt (Lit "$"); Group (cat_all [digits1; Opt (cat_all [Lit "."; digits2])])].

(** Lines 1166-1171. *)
Definition budget_patterns : list regex :=
  [ cat_all [Lit "under"; spaces; amount];
    cat_all [Lit "below"; spaces; amount];
    cat_all [Lit "less than"; spaces; amount];
    cat_all [Lit "budget"; spaces; Opt (Lit ":"); spaces; amount] ].

(** The text of group 1 of the first pattern that matches. *)
Fixpoint first_capture (patterns : list regex) (message : string) : option string :=
  match patterns with
  | [] => None
  | pattern :: rest =>
      match search true pattern message with
      | Some m => group1 m
      | None => first_capture rest message
      end
  end.

(** Lines 1164-1178. *)
Definition _extract_budget (message : string) : option Q :=
  match first_capture budget_patterns message with
  | Some text => Num.float text
  | None => None
  end.

(** Lines 760, 900, 918 and 937:
    [f"${price.get('units', 0)}.{price.get('nanos', 0):02d}"] *)
Definition price_str (p : Price) : string :=
  ("$" ++ Num.str (units p) ++ "." ++ Num.format_02d (nanos p))%string.

(** Lines 465-513: [_get_user_friendly_error(error_message, operation)]. *)
Definition _get_user_friendly_error (error_message operation : string) : string :=
  let error_lower := lower error_message in
  let has s := contains s error_lower in
  if has "no product with id" || has "not found" then
    "Sorry, that product couldn't be found. Please try searching for products first to get valid product IDs."
  else if String.eqb operation "cart_add" then
    if has "timeout" || has "connection" then
      "I'm having trouble connecting to the shopping cart right now. Please try again in a moment."
    else if has "invalid" then
      "There was an issue with the product information. Please try searching for the product again."
    else
      "I couldn't add that item to your cart right now. Please try again or search for the product first."
  else if String.eqb operation "search" then
    if has "timeout" then
      "The product search is taking too long. Please try again with different keywords."
    else if has "connection" then
      "I'm having trouble accessing the product catalog. Please try again in a moment."
    else
      "I couldn't search for products right now. Please try again with different keywords."
  else if String.eqb operation "cart_view" then
    if has "timeout" || has "connection" then
      "I can't access your cart right now. Please try again in a moment."
    else
      "There was a problem loading your cart. Please try refreshing."
  else if String.eqb operation "product_details" then
    if has "no product with id" then
      "I couldn't find details for that product. It may no longer be available."
    else if has "timeout" || has "connection" then
      "I'm having trouble loading product details right now. Please try again."
    else
      "I couldn't get the details for that product. Please try again."
  else if has "timeout" then
    "The request took too long. Please try again."
  else if has "connection" || has "service" then
    "I'm having trouble connecting to our systems. Please try again in a moment."
  else
    "Something went wrong. Please try again or rephrase your request.".

End ShoppingAgent.

(** ** adk-agents/concierge_coordinator_no_ML.py: the variant without the
    optional libraries, where it differs from the coordinator *)

Module NoML.
Import PyStr Re.

(** [[A-Za-z0-9_-]] *)
Definition token_char (c : ascii) : bool :=
  isupper c || islower c || isdigit c || Ascii.eqb c "_" || Ascii.eqb c "-".

(** Lines 583-587. *)
Definition product_id_patterns : list regex :=
  [ cat_all [Alt (Lit "add") (Alt (Lit "buy") (Lit "purchase")); Rep isspace 1 None;
             Group (Rep token_char 1 None)];
    cat_all [Alt (Lit "id") (Lit "product"); spaces; Opt (Lit ":"); spaces;
             Group (Rep token_char 1 None)];
    cat_all [Lit "`"; Group (Rep token_char 1 None); Lit "`"] ].

(** Lines 581-593: the first pattern that matches decides, unchecked. *)
Definition _extract_product_id (message : string) : option string :=
  ShoppingAgent.first_capture product_id_patterns message.

End NoML.

(** ** streamlit-ui/app.py *)

Module StreamlitUI.
Import Data.

(** Lines 109-116, for a price dictionary that is not empty. *)
Definition format_price (p : Price) : string :=
  ("$" ++ Num.str (units p) ++ "." ++ Num.format_02d (nanos p / 10000000)%Z)%string.

End StreamlitUI.

(** ** Adding to the cart

    The agent posts to the catalogue server, the server calls the cart
    service.  Both collaborators are parameters; every call is written to
    a log next to the state of the cart service. *)

Module Cart.
Import PyStr.

(** The dictionary that both functions return, reduced to its
    [status] and [message]. *)
Record Result := mkResult { status : string; message : string }.

Definition error (msg : string) : Result := mkResult "error" msg.

Inductive Call :=
| HttpPost (path user_id product_id : string) (quantity : Z)
| GrpcAddItem (user_id product_id : string) (quantity : Z).

Section World.
(** The state that the cart service owns. *)
Variable Store : Type.

Record World := mkWorld { store : Store; calls : list Call }.

Definition record (c : Call) (w : World) : World :=
  mkWorld (store w) (calls w ++ [c]).

(** [not s or not s.strip()] *)
Definition blank (s : string) : bool :=
  match s with
  | EmptyString => true
  | _ => match strip s with EmptyString => true | _ => false end
  end.

(** [stub.AddItem(request)]: the new state, or the text of the error
    that the call raises. *)
Variable AddItem : string -> string -> Z -> Store -> Store + string.

(** mcp-server/server.py, lines 102-124. *)
Definition get_user_friendly_error_message (error_message operation : string) : string :=
  let error_lower := lower error_message in
  let has s := contains s error_lower in
  if has "no product with id" || has "not found" then
    "The requested product is not available or may have been discontinued."
  else if has "timeout" || has "deadline" then
    "The request is taking too long. Please try again."
  else if has "connection" || has "unavailable" then
    "Our services are temporarily unavailable. Please try again in a moment."
  else if has "invalid" || has "bad request" then
    "There was an issue with the request. Please check your input and try again."
  else if has "permission" || has "denied" then
    "Access denied. Please check your permissions."
  else if String.eqb operation "search" then
    "Unable to search for products right now. Please try again."
  else if String.eqb operation "cart" then
    "Unable to update your cart right now. Please try again."
  else if String.eqb operation "product" then
    "Unable to load product information right now. Please try again."
  else "Something went wrong. Please try again.".

(** mcp-server/server.py, lines 387-450. *)
Definition add_item_to_cart (user_id product_id : string) (quantity : Z) (w : World)
  : Result * World :=
  if blank user_id then (error "User ID is required", w)
  else if blank product_id then (error "Product ID is required", w)
  else if (quantity <=? 0)%Z then (error "Quantity must be greater than 0", w)
  else
    let w1 := record (GrpcAddItem user_id product_id quantity) w in
    match AddItem user_id product_id quantity (store w1) with
    | inl store' =>
        (mkResult "success"
           ("Added " ++ Num.str quantity ++ " unit(s) of " ++ product_id ++ " to cart")%string,
         mkWorld store' (calls w1))
    | inr e => (error (get_user_friendly_error_message e "cart"), w1)
    end.

(** [self.client.post(".../add_item_to_cart", json=...)] followed by
    [raise_for_status()] and [json()]: the answer of the server, or
    the text of the exception. *)
Variable post_add_item : string -> string -> Z -> World -> (Result + string) * World.

(** adk-agents/concierge_coordinator.py, lines 594-612. *)
Definition add_to_cart (user_id product_id : string) (quantity : Z) (w : World)
  : Result * World :=
  if blank user_id then (error "User ID is required", w)
  else if blank product_id then (error "Product ID is required", w)
  else if (quantity <=? 0)%Z then (error "Quantity must be greater than 0", w)
  else
    let w1 := record (HttpPost "/add_item_to_cart" user_id product_id quantity) w in
    match post_add_item user_id product_id quantity w1 with
    | (inl r, w2) => (r, w2)
    | (inr e, w2) => (error (ShoppingAgent._get_user_friendly_error e "cart_add"), w2)
    end.

(** adk-agents/concierge_coordinator_no_ML.py, lines 365-375: the same
    post without the three checks; the message of a failure is the text
    of the exception. *)
Definition add_to_cart_no_ml (user_id product_id : string) (quantity : Z) (w : World)
  : Result * World :=
  let w1 := record (HttpPost "/add_item_to_cart" user_id product_id quantity) w in
  match post_add_item user_id product_id quantity w1 with
  | (inl r, w2) => (r, w2)
  | (inr e, w2) => (error e, w2)
  end.

End World.

Arguments mkWorld {Store}.
Arguments store {Store}.
Arguments calls {Store}.

(** The deployment: the agent's post reaches [add_item_to_cart]. *)
Definition deployed_add_to_cart {Store : Type}
           (AddItem : string -> string -> Z -> Store -> Store + string)
           (user_id product_id : string) (quantity : Z) (w : World Store)
  : Result * World Store :=
  add_to_cart Store
    (fun u p q w' => let (r, w'') := add_item_to_cart Store AddItem u p q w' in (inl r, w''))
    user_id product_id quantity w.

End Cart.

(** ** adk-agents/concierge_coordinator.py: further functions of the agent *)

Module AgentOps.
Import PyStr Data Re.

(** [sys.get_int_max_str_digits()]: the longest numeral that [int]
    converts (Python 3.11, and the security releases of 3.7 to 3.10). *)
Definition int_max_str_digits : nat := 4300.

(** [int(s)] for an unsigned decimal numeral; [None] is a [ValueError]:
    the text is no numeral, or it has more digits than [int] converts. *)
Definition py_int (s : string) : option Z :=
  match s with
  | EmptyString => None
  | _ =>
      if (int_max_str_digits <? String.length s)%nat then None
      else Num.digits_value s 0%Z
  end.

(** Lines 1151-1155. *)
Definition quantity_patterns : list regex :=
  [ cat_all [Alt (Lit "buy") (Alt (Lit "add") (Alt (Lit "get") (Lit "purchase")));
             Rep isspace 1 None; Group digits1];
    cat_all [Group digits1; Rep isspace 1 None;
             Alt (Lit "of")
                 (Alt (cat_all [Lit "item"; Opt (Lit "s")])
                      (cat_all [Lit "piece"; Opt (Lit "s")]))];
    cat_all [Lit "quantity"; spaces; Opt (Lit ":"); spaces; Group digits1] ].

(** Lines 1157-1162: [max(1, int(match.group(1)))] for the first pattern
    that matches, 1 when none does; [None] when [int] raises. *)
Fixpoint quantity_from (patterns : list regex) (message : string) : option Z :=
  match patterns with
  | [] => Some 1%Z
  | pattern :: rest =>
      match search true pattern message with
      | Some m =>
          match group1 m with
          | Some text =>
              match py_int text with
              | Some n => Some (Z.max 1 n)
              | None => None
              end
          | None => None
          end
      | None => quantity_from rest message
      end
  end.

(** Lines 1149-1162. *)
Definition _extract_quantity (message : string) : option Z :=
  quantity_from quantity_patterns message.

(** Lines 855-868: is the product named in the message? *)
Definition names_product (message_lower : string) (product : Product) : bool :=
  let product_name := lower (name product) in
  if negb (String.eqb product_name "") && (3 <? String.length product_name)%nat then
    if contains product_name message_lower then true
    else
      let name_words := filter long_word (split product_name) in
      match name_words with
      | [] => false
      | _ =>
          let matches :=
            List.length (filter (fun word => contains word message_lower) name_words) in
          Qle_bool (inject_Z (Z.of_nat (List.length name_words)) * (7 # 10))
                   (inject_Z (Z.of_nat matches))
      end
  else false.

(** Lines 850-871. *)
Definition _find_best_product_match (message : string) (products : list Product)
  : option Product :=
  match find (names_product (lower message)) products with
  | Some product => Some product
  | None => hd_error products
  end.

Definition cart_words : list string :=
  ["add"; "to"; "cart"; "buy"; "purchase"; "get"; "take"].

(** Lines 1327: the words of the message that may name a product. *)
Definition name_words_of (message : string) : list string :=
  filter (fun word => negb (mem word cart_words) && long_word word) (split (lower message)).

(** Lines 1339-1352: the score of one product. *)
Definition name_score (words : list string) (product : Product) : Q :=
  let search_text := join " " words in
  let product_name := lower (name product) in
  if contains search_text product_name || contains product_name search_text then 9 # 10
  else
    let product_words := split product_name in
    let common_words := dedup (filter (fun w => mem w product_words) words) in
    match common_words with
    | [] => 0
    | _ =>
        inject_Z (Z.of_nat (List.length common_words))
        / inject_Z (Z.of_nat (Nat.max (List.length words) (List.length product_words)))
    end.

(** Lines 1335-1356: the loop, on the pair [(best_match, best_score)]. *)
Definition best_by_name (words : list string) (products : list Product)
           (start : option Product * Q) : option Product * Q :=
  fold_left
    (fun best product =>
       let score := name_score words product in
       if Qltb (snd best) score && Qltb (3 # 10) score then (Some product, score) else best)
    products start.

(** Lines 1321-1358. *)
Definition _extract_product_by_name (message : string) (available_products : list Product)
  : option Product :=
  match name_words_of message with
  | [] => None
  | words => fst (best_by_name words available_products (None, 0))
  end.






(** Lines 1216-1222. *)
Definition _is_product_recommendation (response : string) : bool :=
  existsb (fun indicator => contains indicator (lower response))
          ["recommend"; "suggest"; "perfect for"; "great choice"; "ideal for";
           "(ID:"; "product id"; "here are some"; "i found"; "try these"].

(** Lines 1276-1282. *)
Definition _is_add_all_command (message : string) : bool :=
  existsb (fun pattern => contains pattern (lower message))
          ["add all"; "add all products"; "add all items"; "add everything";
           "add all to cart"; "add all products to cart"; "add all items to cart";
           "buy all"; "purchase all"; "get all"; "take all"].

End AgentOps.

(** ** adk-agents/concierge_coordinator.py: class GeminiClient and the test
    that sends a reply of the model back to the rule-based path *)

Module GeminiClient.
Import PyStr.

(** What the post of [generate_response] comes to: an exception, or a
    status code with the text of the first candidate, if there is one. *)
Inductive Outcome :=
| Raises
| Response (status_code : nat) (text : option string).

(** Lines 95-126. *)
Definition generate_response (enabled : bool) (outcome : Outcome) : string :=
  if negb enabled then "Gemini AI not available. Using fallback processing."
  else
    match outcome with
    | Raises => "AI processing unavailable. Please try again."
    | Response status_code text =>
        if negb (status_code =? 200)%nat then
          "Sorry, having trouble with AI processing right now."
        else
          match text with
          | Some t => t
          | None => "Couldn't generate response. Please try again."
          end
    end.

(** Lines 744-747 and 1651-1653. *)
Definition fallback_triggered (gemini_response : string) : bool :=
  String.eqb gemini_response ""
  || (String.length (strip gemini_response) <? 50)%nat
  || contains "trouble" gemini_response.

End GeminiClient.

(** ** mcp-server/server.py: searching, recommending and the cart endpoints *)

Module ServerOps.
Import PyStr Data.




(** A line of a cart. *)
Record CartItem := mkCartItem { product_id : string; quantity : Z }.

(** The calls of the cart service. *)
Inductive Rpc :=
| RpcGetCart (user_id : string)
| RpcEmptyCart (user_id : string)
| RpcAddItem (user_id : string) (item : CartItem).

Section Service.
(** The state of the cart service and its three calls; [inr e] is an
    [RpcError] of text [e], which leaves the state as it is. *)
Variable Store : Type.
Variable GetCart : string -> Store -> list CartItem + string.
Variable EmptyCart : string -> Store -> Store + string.
Variable AddItem : string -> CartItem -> Store -> Store + string.

Record State := mkState { store : Store; calls : list Rpc }.

Definition called (c : Rpc) (s : State) : State := mkState (store s) (calls s ++ [c]).

Definition friendly (e : string) : Cart.Result :=
  Cart.error (Cart.get_user_friendly_error_message e "cart").

(** Lines 452-500: the status, the message of an error and the items. *)
Definition get_cart_contents (user_id : string) (s : State)
  : Cart.Result * list CartItem * State :=
  let s1 := called (RpcGetCart user_id) s in
  match GetCart user_id (store s1) with
  | inl items => (Cart.mkResult "success" "", items, s1)
  | inr e => (friendly e, [], s1)
  end.

(** Lines 502-531. *)
Definition empty_cart (user_id : string) (s : State) : Cart.Result * State :=
  let s1 := called (RpcEmptyCart user_id) s in
  match EmptyCart user_id (store s1) with
  | inl store' =>
      (Cart.mkResult "success" ("Cart emptied for " ++ user_id)%string,
       mkState store' (calls s1))
  | inr e => (friendly e, s1)
  end.

(** Lines 581-585: the lines are added again, one call each, until a
    call raises. *)
Fixpoint re_add (user_id : string) (items : list CartItem) (s : State) : option string * State :=
  match items with
  | [] => (None, s)
  | item :: rest =>
      let s1 := called (RpcAddItem user_id item) s in
      match AddItem user_id item (store s1) with
      | inl store' => re_add user_id rest (mkState store' (calls s1))
      | inr e => (Some e, s1)
      end
  end.

Definition other_items (product_id' : string) (items : list CartItem) : list CartItem :=
  filter (fun item => negb (String.eqb (product_id item) product_id')) items.

(** Lines 533-611. *)
Definition remove_item_from_cart (user_id product_id' : string) (s : State)
  : Cart.Result * State :=
  if Cart.blank user_id then (Cart.error "User ID is required", s)
  else if Cart.blank product_id' then (Cart.error "Product ID is required", s)
  else
    let s1 := called (RpcGetCart user_id) s in
    match GetCart user_id (store s1) with
    | inr e => (friendly e, s1)
    | inl items =>
        if negb (existsb (fun item => String.eqb (product_id item) product_id') items) then
          (Cart.error ("Product " ++ product_id' ++ " not found in cart")%string, s1)
        else
          let s2 := called (RpcEmptyCart user_id) s1 in
          match EmptyCart user_id (store s2) with
          | inr e => (friendly e, s2)
          | inl store' =>
              match re_add user_id (other_items product_id' items)
                           (mkState store' (calls s2)) with
              | (Some e, s3) => (friendly e, s3)
              | (None, s3) =>
                  (Cart.mkResult "success" ("Removed " ++ product_id' ++ " from cart")%string,
                   s3)
              end
          end
    end.
End Service.

Arguments mkState {Store}.
Arguments store {Store}.
Arguments calls {Store}.

End ServerOps.

(** ** [re.findall] and [re.sub]: every match from left to right *)

Module Scan.
Import PyStr Re.
Local Open Scope nat_scope.

(** The rest of the text after the match of [r] that begins here. *)
Definition match_here (r : regex) (prev : option ascii) (s : string) : option string :=
  run false r prev s None (fun _ s' _ => Some s').



(** [re.sub(r, repl, s)] *)
Fixpoint sub_at (r : regex) (repl : string) (prev : option ascii) (s : string) (skip : nat)
  : string :=
  match skip, s with
  | S k, String c t => sub_at r repl (Some c) t k
  | S _, EmptyString => EmptyString
  | O, _ =>
      match match_here r prev s with
      | Some s' =>
          let n := String.length s - String.length s' in
          (repl ++ match s with
                   | String c t =>
                       if (n =? 0)%nat then String c (sub_at r repl (Some c) t 0)
                       else sub_at r repl (Some c) t (Nat.pred n)
                   | EmptyString => EmptyString
                   end)%string
      | None =>
          match s with
          | String c t => String c (sub_at r repl (Some c) t 0)
          | EmptyString => EmptyString
          end
      end
  end.

Definition sub (r : regex) (repl s : string) : string := sub_at r repl None s 0.

(** [r'\b' + re.escape(term) + r'\b'] *)
Definition whole_term (term : string) : regex :=
  Cat WordBoundary (Cat (Lit term) WordBoundary).


End Scan.

(** ** mcp-server/server.py: [clean_search_query] *)

Module QueryCleaning.
Import PyStr Re Scan.


Definition stop_words : list string :=
  ["the"; "for"; "and"; "with"; "someone"; "who"; "loves"; "that"; "this"; "has";
   "are"; "was"; "will"; "can"; "could"; "would"; "should"].




End QueryCleaning.

(** ** adk-agents/concierge_coordinator.py: [_extract_search_terms] *)

Module SearchTerms.
Import PyStr Data Re Scan.

(** Lines 1054-1067. *)
Definition terms_to_remove (intent : string) : list string :=
  ["search for"; "find"; "look for"; "show me"; "get me"; "i need"; "i want";
   "looking for"; "searching for"; "where can i find"; "do you have"; "can you find"]
  ++ (if String.eqb intent "cart_add" then
        ["add to cart"; "add to my cart"; "add this to cart"; "add that to cart";
         "buy this"; "buy that"; "purchase this"; "purchase that"; "put in cart";
         "add"; "to cart"; "to my cart"; "buy"; "purchase"; "i'll take"; "get this";
         "get that"]
      else []).

(** Lines 1072-1073: the phrases are replaced by a space, one phrase
    after the other. *)
Definition remove_terms (terms : list string) (msg : string) : string :=
  fold_left (fun msg term => sub (whole_term term) " " msg) terms msg.

(** Lines 1052-1084. *)
Definition _extract_search_terms (message intent : string) : string :=
  let msg := strip (lower message) in
  let msg := remove_terms (terms_to_remove intent) msg in
  let msg := strip (SemanticSearchEngine.collapse_spaces msg) in
  let words := split msg in
  if (2 <? List.length words)%nat then join " " (filter long_word words) else msg.

End SearchTerms.

(** ** adk-agents/concierge_coordinator.py: the endpoint /cart/action and
    the command that adds every product *)

Module CartAction.
Import PyStr Data.

(** What the endpoint answers: the dictionary of the agent, or an
    [HTTPException]. *)
Inductive Reply :=
| Returned (result : Cart.Result)
| HttpError (status_code : nat) (detail : string).

Section Agent.
Variable Store : Type.
Variable post_add_item :
  string -> string -> Z -> Cart.World Store -> (Cart.Result + string) * Cart.World Store.

(** [request.quantity or 1]: no quantity and the quantity 0 become 1. *)
Definition quantity_or_1 (quantity : option Z) : Z :=
  match quantity with
  | Some q => if (q =? 0)%Z then 1%Z else q
  | None => 1%Z
  end.

(** Lines 1403-1431 for [request.action == "add"]: without a product id
    the action is invalid; an error of the agent becomes an
    [HTTPException] whose detail is made from the message of the error. *)
Definition cart_action_add (user_id : string) (product_id : option string)
           (quantity : option Z) (w : Cart.World Store) : Reply * Cart.World Store :=
  match product_id with
  | None => (HttpError 400 "Invalid action", w)
  | Some product_id' =>
      if String.eqb product_id' "" then (HttpError 400 "Invalid action", w)
      else
        let (result, w') :=
          Cart.add_to_cart Store post_add_item user_id product_id' (quantity_or_1 quantity) w in
        if String.eqb (Cart.status result) "error" then
          (HttpError 500
             (ShoppingAgent._get_user_friendly_error (Cart.message result) "cart_add"),
           w')
        else (Returned result, w')
  end.

(** Lines 1295-1306: one product of the loop of
    [_add_all_products_to_cart], on the lists [added_products] and
    [failed_products]. *)
Definition add_one (user_id : string)
           (state : list string * list string * Cart.World Store) (product : Product)
  : list string * list string * Cart.World Store :=
  let '(added_products, failed_products, w) := state in
  if String.eqb (id product) "" then state
  else
    let (result, w') := Cart.add_to_cart Store post_add_item user_id (id product) 1 w in
    if String.eqb (Cart.status result) "success" then
      (added_products
         ++ [("• **" ++ name product ++ "** - " ++ ShoppingAgent.price_str (price product))%string],
       failed_products, w')
    else (added_products, failed_products ++ [name product], w').

(** Lines 1308-1319. *)
Definition add_all_response (added_products failed_products : list string) : string :=
  let response :=
    match added_products with
    | [] => ""
    | _ => ("Added " ++ Num.str (Z.of_nat (List.length added_products))
            ++ " products to your cart:" ++ String "010" (String "010" "")
            ++ join (String "010" "") added_products)%string
    end in
  let response :=
    match failed_products with
    | [] => response
    | _ => (response ++ String "010" (String "010" "") ++ "Couldn't add these products: "
            ++ join ", " failed_products)%string
    end in
  match added_products, failed_products with
  | [], [] => "No valid products found to add to cart."
  | _, _ => response
  end.

(** Lines 1284-1319. *)
Definition _add_all_products_to_cart (user_id : string) (available_products : list Product)
           (w : Cart.World Store) : string * Cart.World Store :=
  match available_products with
  | [] => ("No products are currently available to add to cart.", w)
  | _ =>
      let products_to_add := firstn 5 available_products in
      let '(added_products, failed_products, w') :=
        fold_left (add_one user_id) products_to_add ([], [], w) in
      (add_all_response added_products failed_products, w')
  end.
End Agent.

(** The post of the deployment: the request does not arrive, with the
    text of the exception that [link] gives, or it reaches
    [add_item_to_cart] of the server. *)
Definition deployed_post {Store : Type}
           (link : string -> string -> Z -> option string)
           (AddItem : string -> string -> Z -> Store -> Store + string)
           (user_id product_id : string) (quantity : Z) (w : Cart.World Store)
  : (Cart.Result + string) * Cart.World Store :=
  match link user_id product_id quantity with
  | Some e => (inr e, w)
  | None =>
      let (result, w') := Cart.add_item_to_cart Store AddItem user_id product_id quantity w in
      (inl result, w')
  end.

End CartAction.

(** ** streamlit-ui/app.py: the chat tab *)

Module StreamlitChat.
Import PyStr.

(** Lines 100-107. *)
Definition detect_cart_change (response_text : string) : bool :=
  existsb (fun indicator => contains indicator (lower response_text))
          ["added to cart"; "added to your cart"; "✅ added"; "I've added";
           "removed from cart"; "removed from your cart"; "cart cleared"].

End StreamlitChat.

(** * Properties *)

(** ** Maxima, sums and the stable sort *)

Module DataFacts.
Import Data.

Lemma Qltb_true (a b : Q) : Qltb a b = true <-> a < b.
Proof.
  unfold Qltb. rewrite negb_true_iff. split; intro H.
  - apply Qnot_le_lt. intro Hle. apply Qle_bool_iff in Hle. congruence.
  - destruct (Qle_bool b a) eqn:E; [|reflexivity].
    apply Qle_bool_iff in E. exfalso. apply (Qlt_not_le _ _ H E).
Qed.

Lemma Qltb_false (a b : Q) : Qltb a b = false <-> b <= a.
Proof.
  unfold Qltb. rewrite negb_false_iff. apply Qle_bool_iff.
Qed.

Lemma pymax_ge_l (a b : Q) : a <= pymax a b.
Proof.
  unfold pymax. destruct (Qltb a b) eqn:E.
  - apply Qltb_true in E. apply Qlt_le_weak, E.
  - apply Qle_refl.
Qed.

Lemma pymax_ge_r (a b : Q) : b <= pymax a b.
Proof.
  unfold pymax. destruct (Qltb a b) eqn:E.
  - apply Qle_refl.
  - apply Qltb_false, E.
Qed.

Lemma pymax_le (a b c : Q) : a <= c -> b <= c -> pymax a b <= c.
Proof. unfold pymax. destruct (Qltb a b); auto. Qed.

Lemma pymax_list_ge_start (xs : list Q) (a : Q) : a <= pymax_list a xs.
Proof.
  unfold pymax_list. revert a. induction xs as [|x xs IH]; intro a; simpl.
  - apply Qle_refl.
  - eapply Qle_trans; [apply (pymax_ge_l a x) | apply IH].
Qed.

Lemma pymax_list_ge_in (xs : list Q) (a x : Q) : In x xs -> x <= pymax_list a xs.
Proof.
  unfold pymax_list. revert a. induction xs as [|y xs IH]; intros a Hin; simpl.
  - destruct Hin.
  - destruct Hin as [-> | Hin].
    + eapply Qle_trans; [apply (pymax_ge_r a x) | apply pymax_list_ge_start].
    + apply IH, Hin.
Qed.

Lemma pymax_list_le (xs : list Q) (a c : Q) :
  a <= c -> (forall x, In x xs -> x <= c) -> pymax_list a xs <= c.
Proof.
  unfold pymax_list. revert a. induction xs as [|y xs IH]; intros a Ha Hxs; simpl.
  - exact Ha.
  - apply IH.
    + apply pymax_le; [exact Ha | apply Hxs; left; reflexivity].
    + intros x Hx. apply Hxs. right. exact Hx.
Qed.

Lemma fold_Qplus_acc (xs : list Q) (a : Q) :
  fold_left Qplus xs a == a + fold_left Qplus xs 0.
Proof.
  revert a. induction xs as [|x xs IH]; intro a; simpl.
  - ring.
  - rewrite (IH (a + x)), (IH (0 + x)). ring.
Qed.

Lemma Qsum_cons (x : Q) (xs : list Q) : Qsum (x :: xs) == x + Qsum xs.
Proof. unfold Qsum. simpl. rewrite fold_Qplus_acc. ring. Qed.

(** A sum of terms between 0 and 1 lies between 0 and the number of terms. *)
Lemma Qsum_bounds (xs : list Q) :
  (forall x, In x xs -> 0 <= x <= 1) ->
  0 <= Qsum xs <= inject_Z (Z.of_nat (List.length xs)).
Proof.
  induction xs as [|x xs IH]; intro H.
  - unfold Qsum; simpl. split; apply Qle_refl.
  - rewrite Qsum_cons.
    destruct (H x (or_introl eq_refl)) as [H0 H1].
    destruct IH as [I0 I1]; [intros y Hy; apply H; right; exact Hy|].
    change (List.length (x :: xs)) with (S (List.length xs)).
    rewrite Nat2Z.inj_succ. unfold Z.succ. rewrite inject_Z_plus.
    change (inject_Z 1) with 1.
    generalize dependent (inject_Z (Z.of_nat (List.length xs))). intros n I1.
    split; lra.
Qed.

(** ... and the mean of at least one such term lies between 0 and 1. *)
Lemma Qmean_bounds (s : Q) (n : nat) :
  (0 < n)%nat -> 0 <= s <= inject_Z (Z.of_nat n) ->
  0 <= s / inject_Z (Z.of_nat n) <= 1.
Proof.
  intros Hn [H0 H1].
  assert (Hpos : 0 < inject_Z (Z.of_nat n)).
  { change 0 with (inject_Z 0). rewrite <- Zlt_Qlt. lia. }
  split.
  - apply Qle_shift_div_l; [exact Hpos | lra].
  - apply Qle_shift_div_r; [exact Hpos | lra].
Qed.

Section SortFacts.
Context {A : Type} (key : A -> Q).

(** Descending order on the key. *)
Definition key_ge (x y : A) : Prop := key y <= key x.


Lemma insert_desc_perm (x : A) (l : list A) :
  Permutation (insert_desc key x l) (x :: l).
Proof.
  induction l as [|y l IH]; simpl.
  - apply Permutation_refl.
  - destruct (Qltb (key x) (key y)).
    + eapply perm_trans; [apply perm_skip, IH | apply perm_swap].
    + apply Permutation_refl.
Qed.

Lemma sort_desc_perm (l : list A) : Permutation (sort_desc key l) l.
Proof.
  induction l as [|x l IH]; simpl.
  - apply perm_nil.
  - eapply perm_trans; [apply insert_desc_perm | apply perm_skip, IH].
Qed.





(** An element that beats everything before it and is not beaten by
    anything after it comes first. *)
Lemma sort_desc_head (pre post : list A) (x : A) :
  (forall y, In y pre -> key y < key x) ->
  (forall y, In y post -> key y <= key x) ->
  sort_desc key (pre ++ x :: post) = x :: sort_desc key (pre ++ post).
Proof.
  intros Hpre Hpost. induction pre as [|y pre IH]; simpl.
  - assert (Hall : Forall (key_ge x) (sort_desc key post)).
    { eapply Permutation_Forall; [apply Permutation_sym, sort_desc_perm|].
      apply Forall_forall. exact Hpost. }
    destruct (sort_desc key post) as [|z zs]; simpl; [reflexivity|].
    inversion Hall as [|? ? Hz _]; subst.
    destruct (Qltb (key x) (key z)) eqn:E; [|reflexivity].
    apply Qltb_true in E. exfalso. apply (Qlt_not_le _ _ E Hz).
  - rewrite IH by (intros z Hz; apply Hpre; right; exact Hz).
    simpl. assert (E : Qltb (key y) (key x) = true).
    { apply Qltb_true, Hpre. left. reflexivity. }
    rewrite E. reflexivity.
Qed.

Lemma insert_desc_ext (key' : A -> Q) (x : A) (l : list A) :
  key x = key' x -> (forall y, In y l -> key y = key' y) ->
  insert_desc key x l = insert_desc key' x l.
Proof.
  intros Hx. induction l as [|y l IH]; intro Hl; simpl; [reflexivity|].
  rewrite <- Hx, <- (Hl y (or_introl eq_refl)).
  rewrite IH by (intros z Hz; apply Hl; right; exact Hz). reflexivity.
Qed.

Lemma sort_desc_ext (key' : A -> Q) (l : list A) :
  (forall y, In y l -> key y = key' y) -> sort_desc key l = sort_desc key' l.
Proof.
  induction l as [|x l IH]; intro Hl; simpl; [reflexivity|].
  rewrite <- IH by (intros z Hz; apply Hl; right; exact Hz).
  apply insert_desc_ext.
  - apply Hl. left. reflexivity.
  - intros y Hy. apply Hl. right.
    eapply Permutation_in; [apply sort_desc_perm | exact Hy].
Qed.
End SortFacts.

Lemma sort_desc_map {A B : Type} (f : B -> A) (key : A -> Q) (l : list B) :
  map f (sort_desc (fun b => key (f b)) l) = sort_desc key (map f l).
Proof.
  induction l as [|x l IH]; simpl; [reflexivity|].
  rewrite <- IH. generalize (sort_desc (fun b => key (f b)) l). intro l'.
  induction l' as [|y l' IH']; simpl; [reflexivity|].
  destruct (Qltb (key (f x)) (key (f y))); simpl; [rewrite IH'|]; reflexivity.
Qed.

(** Ranking a list annotated with [score] sorts the products on [score]. *)
Lemma rank_annotated (score : Product -> Q) (l : list Product) :
  rank (map (fun p => (p, score p)) l) = sort_desc score l.
Proof.
  unfold rank.
  rewrite (sort_desc_ext snd (fun b => score (fst b))).
  - rewrite sort_desc_map, map_map. simpl. rewrite map_id. reflexivity.
  - intros [p s] Hin. apply in_map_iff in Hin. destruct Hin as [q [Hq _]].
    inversion Hq; subst. reflexivity.
Qed.

Lemma annotate_spec (score : Product -> Q) (t : Q) (l : list Product) :
  annotate score t l
  = map (fun p => (p, score p)) (filter (fun p => Qle_bool t (score p)) l).
Proof.
  unfold annotate. induction l as [|p l IH]; simpl; [reflexivity|].
  rewrite IH. destruct (Qle_bool t (score p)); reflexivity.
Qed.

(** What every matcher computes: keep the products that reach the
    threshold, sort them on the score. *)
Lemma rank_annotate (score : Product -> Q) (t : Q) (l : list Product) :
  rank (annotate score t l)
  = sort_desc score (filter (fun p => Qle_bool t (score p)) l).
Proof. rewrite annotate_spec. apply rank_annotated. Qed.

Lemma filter_all {A : Type} (f : A -> bool) (l : list A) :
  forallb f l = true -> filter f l = l.
Proof.
  induction l as [|x l IH]; simpl; [reflexivity|].
  intro H. apply andb_true_iff in H. destruct H as [Hx Hl].
  rewrite Hx, IH by exact Hl. reflexivity.
Qed.

End DataFacts.

(** ** The ratio of [SequenceMatcher] lies between 0 and 1 *)

Module DifflibFacts.
Import Difflib.
Local Open Scope nat_scope.

(** A block inside the window [alo..ahi) x [blo..bhi). *)
Definition within (alo ahi blo bhi : nat) (m : Match) : Prop :=
  alo <= m_i m /\ m_i m + m_size m <= ahi /\ blo <= m_j m /\ m_j m + m_size m <= bhi.

(** A row of [j2len], from index [j] on: no length exceeds [bound], nor
    the distance to [blo]. *)
Definition row_ok (bound blo j : nat) (row : list nat) : Prop :=
  forall n, nth n row 0 <= bound /\ nth n row 0 <= j + n + 1 - blo.

Lemma nth_tl (n : nat) (l : list nat) : nth n (tl l) 0 = nth (S n) l 0.
Proof. destruct l; simpl; [destruct n|]; reflexivity. Qed.

Lemma hd_nth (l : list nat) : hd 0 l = nth 0 l 0.
Proof. destruct l; reflexivity. Qed.

Lemma row_ok_mono (b b' blo j : nat) (row : list nat) :
  b <= b' -> row_ok b blo j row -> row_ok b' blo j row.
Proof. intros Hb H n. destruct (H n). split; lia. Qed.

Lemma row_ok_nil (b blo j : nat) : row_ok b blo j [].
Proof. intro n. destruct n; simpl; split; lia. Qed.

Lemma scan_row_ok pop alo ahi blo bhi ai i bs :
  alo <= i < ahi ->
  forall j old prev best,
    row_ok (i - alo) blo j old ->
    prev <= i - alo -> prev <= j - blo ->
    within alo ahi blo bhi best ->
    row_ok (S i - alo) blo j (fst (scan_row pop blo bhi ai i bs j old prev best))
    /\ within alo ahi blo bhi (snd (scan_row pop blo bhi ai i bs j old prev best)).
Proof.
  intro Hi. induction bs as [|bj bs IH]; intros j old prev best Hold Hp1 Hp2 Hbest.
  - simpl. split; [apply row_ok_nil | exact Hbest].
  - cbn [scan_row].
    set (hit := (blo <=? j) && (j <? bhi) && Ascii.eqb ai bj && negb (pop bj)).
    set (k := if hit then S prev else 0).
    set (best' := if hit && (m_size best <? k)
                  then mkMatch (i + 1 - k) (j + 1 - k) k else best).
    assert (Hk : k <= S i - alo /\ k <= j + 1 - blo
                 /\ (hit = true -> blo <= j < bhi /\ k = S prev)).
    { subst k. destruct hit eqn:Eh.
      - unfold hit in Eh. repeat rewrite andb_true_iff in Eh.
        destruct Eh as [[[H1 H2] _] _].
        apply Nat.leb_le in H1. apply Nat.ltb_lt in H2.
        repeat split; lia.
      - repeat split; try lia; try discriminate. }
    destruct Hk as [Hk1 [Hk2 Hk3]].
    assert (Hbest' : within alo ahi blo bhi best').
    { subst best'. destruct hit eqn:Eh; simpl; [|exact Hbest].
      destruct (m_size best <? k); [|exact Hbest].
      destruct (Hk3 eq_refl) as [Hj Hkp].
      unfold within; simpl. lia. }
    clearbody best'. clear Hk3. clearbody k. clearbody hit.
    specialize (IH (S j) (tl old) (hd 0 old) best').
    destruct (scan_row pop blo bhi ai i bs (S j) (tl old) (hd 0 old) best')
      as [row best''] eqn:E.
    cbn [fst snd] in IH |- *.
    destruct IH as [IHr IHb].
    + intro n. rewrite nth_tl. destruct (Hold (S n)). split; lia.
    + rewrite hd_nth. destruct (Hold 0). lia.
    + rewrite hd_nth. destruct (Hold 0). lia.
    + exact Hbest'.
    + split; [|exact IHb].
      intro n. destruct n as [|n]; cbn [nth].
      * split; lia.
      * destruct (IHr n). split; lia.
Qed.

Lemma scan_rows_within pop alo ahi blo bhi b as_ :
  forall i row best,
    row_ok (i - alo) blo 0 row ->
    within alo ahi blo bhi best ->
    within alo ahi blo bhi (scan_rows pop alo ahi blo bhi as_ i b row best).
Proof.
  induction as_ as [|ai as_ IH]; intros i row best Hrow Hbest; simpl.
  - exact Hbest.
  - destruct ((alo <=? i) && (i <? ahi)) eqn:E.
    + apply andb_true_iff in E. destruct E as [E1 E2].
      apply Nat.leb_le in E1. apply Nat.ltb_lt in E2.
      destruct (scan_row_ok pop alo ahi blo bhi ai i b (conj E1 E2) 0 row 0 best)
        as [Hr Hb]; try assumption; try lia.
      destruct (scan_row pop blo bhi ai i b 0 row 0 best) as [row' best'].
      simpl in Hr, Hb. apply IH; assumption.
    + apply IH; [|exact Hbest].
      eapply row_ok_mono; [|exact Hrow]. lia.
Qed.

Lemma extend_left_within a b alo ahi blo bhi n :
  forall m, within alo ahi blo bhi m ->
            within alo ahi blo bhi (extend_left a b alo blo n m).
Proof.
  induction n as [|n IH]; intros m Hm; simpl; [exact Hm|].
  destruct ((alo <? m_i m) && (blo <? m_j m)
            && Ascii.eqb (nth_char a (m_i m - 1)) (nth_char b (m_j m - 1))) eqn:E;
    [|exact Hm].
  repeat rewrite andb_true_iff in E. destruct E as [[E1 E2] _].
  apply Nat.ltb_lt in E1. apply Nat.ltb_lt in E2.
  apply IH. unfold within in *; simpl. lia.
Qed.

Lemma extend_right_within a b alo ahi blo bhi n :
  forall m, within alo ahi blo bhi m ->
            within alo ahi blo bhi (extend_right a b ahi bhi n m).
Proof.
  induction n as [|n IH]; intros m Hm; simpl; [exact Hm|].
  destruct ((m_i m + m_size m <? ahi) && (m_j m + m_size m <? bhi)
            && Ascii.eqb (nth_char a (m_i m + m_size m)) (nth_char b (m_j m + m_size m)))
    eqn:E; [|exact Hm].
  repeat rewrite andb_true_iff in E. destruct E as [[E1 E2] _].
  apply Nat.ltb_lt in E1. apply Nat.ltb_lt in E2.
  apply IH. unfold within in *; simpl. lia.
Qed.

(** The block that [find_longest_match] returns lies in its window. *)
Lemma find_longest_match_within a b alo ahi blo bhi :
  alo <= ahi -> blo <= bhi ->
  within alo ahi blo bhi (find_longest_match a b alo ahi blo bhi).
Proof.
  intros Ha Hb. unfold find_longest_match.
  apply extend_right_within, extend_left_within, scan_rows_within.
  - apply row_ok_nil.
  - unfold within; simpl. lia.
Qed.

(** The matching blocks fit side by side in either sequence. *)
Lemma matching_size_le fuel a b :
  forall alo ahi blo bhi,
    alo <= ahi -> blo <= bhi ->
    matching_size fuel a b alo ahi blo bhi <= ahi - alo
    /\ matching_size fuel a b alo ahi blo bhi <= bhi - blo.
Proof.
  induction fuel as [|fuel IH]; intros alo ahi blo bhi Ha Hb; simpl; [lia|].
  pose proof (find_longest_match_within a b alo ahi blo bhi Ha Hb) as Hw.
  set (m := find_longest_match a b alo ahi blo bhi) in *.
  destruct Hw as [W1 [W2 [W3 W4]]].
  destruct (m_size m =? 0) eqn:Ek; [lia|].
  apply Nat.eqb_neq in Ek.
  assert (HL : (if (alo <? m_i m) && (blo <? m_j m)
                then matching_size fuel a b alo (m_i m) blo (m_j m) else 0)
               <= m_i m - alo
               /\ (if (alo <? m_i m) && (blo <? m_j m)
                   then matching_size fuel a b alo (m_i m) blo (m_j m) else 0)
                  <= m_j m - blo).
  { destruct ((alo <? m_i m) && (blo <? m_j m)); [apply IH; lia | lia]. }
  assert (HR : (if (m_i m + m_size m <? ahi) && (m_j m + m_size m <? bhi)
                then matching_size fuel a b (m_i m + m_size m) ahi (m_j m + m_size m) bhi
                else 0)
               <= ahi - (m_i m + m_size m)
               /\ (if (m_i m + m_size m <? ahi) && (m_j m + m_size m <? bhi)
                   then matching_size fuel a b (m_i m + m_size m) ahi (m_j m + m_size m) bhi
                   else 0)
                  <= bhi - (m_j m + m_size m)).
  { destruct ((m_i m + m_size m <? ahi) && (m_j m + m_size m <? bhi));
      [apply IH; lia | lia]. }
  lia.
Qed.

(** The fuel of [matching_size] never runs out: any amount from the
    width of the window on gives the same sum. *)
Lemma matching_size_fuel a b :
  forall n n' alo ahi blo bhi,
    alo <= ahi -> blo <= bhi -> ahi - alo <= n -> ahi - alo <= n' ->
    matching_size n a b alo ahi blo bhi = matching_size n' a b alo ahi blo bhi.
Proof.
  induction n as [|n IH]; intros n' alo ahi blo bhi Ha Hb Hn Hn'.
  - pose proof (find_longest_match_within a b alo ahi blo bhi Ha Hb) as Hw.
    destruct Hw as [W1 [W2 _]].
    destruct n' as [|n']; simpl; [reflexivity|].
    assert (E : m_size (find_longest_match a b alo ahi blo bhi) = 0) by lia.
    rewrite E. reflexivity.
  - pose proof (find_longest_match_within a b alo ahi blo bhi Ha Hb) as Hw.
    destruct Hw as [W1 [W2 [W3 W4]]].
    destruct n' as [|n']; simpl.
    + assert (E : m_size (find_longest_match a b alo ahi blo bhi) = 0) by lia.
      rewrite E. reflexivity.
    + set (m := find_longest_match a b alo ahi blo bhi) in *.
      destruct (m_size m =? 0) eqn:Ek; [reflexivity|].
      apply Nat.eqb_neq in Ek.
      f_equal; [f_equal|].
      * destruct ((alo <? m_i m) && (blo <? m_j m)); [apply IH; lia | reflexivity].
      * destruct ((m_i m + m_size m <? ahi) && (m_j m + m_size m <? bhi));
          [apply IH; lia | reflexivity].
Qed.

Lemma matches_any_fuel (a b : seq) (n : nat) :
  List.length a <= n ->
  matching_size n a b 0 (List.length a) 0 (List.length b) = matches a b.
Proof. intro Hn. unfold matches. apply matching_size_fuel; lia. Qed.

Lemma matches_le (a b : seq) : 2 * matches a b <= List.length a + List.length b.
Proof.
  unfold matches.
  destruct (matching_size_le (List.length a) a b 0 (List.length a) 0 (List.length b));
    lia.
Qed.

Lemma ratio_bounds (a b : string) : (0 <= ratio a b <= 1)%Q.
Proof.
  unfold ratio, calculate_ratio.
  set (a' := list_ascii_of_string a). set (b' := list_ascii_of_string b).
  pose proof (matches_le a' b') as H.
  destruct (List.length a' + List.length b' =? 0) eqn:E.
  - split; [discriminate | apply Qle_refl].
  - apply Nat.eqb_neq in E.
    assert (Hp : Z.pos (Pos.of_nat (List.length a' + List.length b'))
                 = Z.of_nat (List.length a' + List.length b')).
    { rewrite <- positive_nat_Z, Nat2Pos.id by exact E. reflexivity. }
    unfold Qle; cbn [Qnum Qden]. rewrite Hp. split; lia.
Qed.

End DifflibFacts.

(** ** Every score lies between 0 and 1 *)

Module ScoreFacts.
Import PyStr Data DataFacts.

Section Folds.
Context {V : Type} (f : Q -> V -> Q).

Lemma fold_ge_start (vs : list V) (a : Q) :
  (forall a v, a <= f a v) -> a <= fold_left f vs a.
Proof.
  intro Hf. revert a. induction vs as [|v vs IH]; intro a; cbn [fold_left].
  - apply Qle_refl.
  - eapply Qle_trans; [apply (Hf a v) | apply IH].
Qed.

Lemma fold_le (vs : list V) (a c : Q) :
  (forall a v, a <= c -> f a v <= c) -> a <= c -> fold_left f vs a <= c.
Proof.
  intro Hf. revert a. induction vs as [|v vs IH]; intros a Ha; cbn [fold_left].
  - exact Ha.
  - apply IH, Hf, Ha.
Qed.

Lemma fold_ge_in (vs : list V) (a x : Q) (v : V) :
  (forall a v, a <= f a v) -> In v vs -> (forall a, x <= f a v) ->
  x <= fold_left f vs a.
Proof.
  intros Hf Hin Hx. revert a.
  induction vs as [|w vs IH]; intro a; cbn [fold_left].
  - destruct Hin.
  - destruct Hin as [-> | Hin].
    + eapply Qle_trans; [apply (Hx a) | apply fold_ge_start, Hf].
    + apply IH, Hin.
Qed.
End Folds.

Lemma direct_similarity_ge_start vs p a : a <= Coordinator.direct_similarity vs p a.
Proof.
  unfold Coordinator.direct_similarity. apply fold_ge_start.
  intros b v. apply pymax_list_ge_start.
Qed.

Lemma direct_similarity_le vs p a : a <= 1 -> Coordinator.direct_similarity vs p a <= 1.
Proof.
  unfold Coordinator.direct_similarity. apply fold_le.
  intros b v Hb. apply pymax_list_le; [exact Hb|].
  intros x Hx. cbn [In] in Hx.
  destruct Hx as [<- | [<- | [<- | []]]]; apply DifflibFacts.ratio_bounds.
Qed.

Lemma direct_similarity_ge_name vs p a v :
  In v vs -> Difflib.ratio v (lower (name p)) <= Coordinator.direct_similarity vs p a.
Proof.
  intro Hin. unfold Coordinator.direct_similarity.
  apply (fold_ge_in _ vs a _ v).
  - intros b w. apply pymax_list_ge_start.
  - exact Hin.
  - intro b. apply pymax_list_ge_in. left. reflexivity.
Qed.

Lemma name_boost_ge_start vs n a : a <= Coordinator.name_boost vs n a.
Proof.
  unfold Coordinator.name_boost. apply fold_ge_start.
  intros b v. destruct (contains v n); [apply pymax_ge_l | apply Qle_refl].
Qed.

Lemma name_boost_le vs n a : a <= 1 -> Coordinator.name_boost vs n a <= 1.
Proof.
  unfold Coordinator.name_boost. apply fold_le.
  intros b v Hb. destruct (contains v n); [|exact Hb].
  apply pymax_le; [exact Hb | discriminate].
Qed.

(** The floor: a variant inside the name lifts the score to 0.8. *)
Lemma name_boost_floor vs n a :
  existsb (fun v => contains v n) vs = true -> 8 # 10 <= Coordinator.name_boost vs n a.
Proof.
  intro H. apply existsb_exists in H. destruct H as [v [Hin Hv]].
  unfold Coordinator.name_boost. apply (fold_ge_in _ vs a _ v).
  - intros b w. destruct (contains w n); [apply pymax_ge_l | apply Qle_refl].
  - exact Hin.
  - intro b. rewrite Hv. apply pymax_ge_r.
Qed.

Lemma word_match_bounds t w : 0 <= Coordinator.word_match t w <= 1.
Proof.
  unfold Coordinator.word_match.
  destruct (contains w t); [split; discriminate|].
  destruct (existsb _ _); [split; discriminate|].
  destruct (existsb _ _); split; discriminate.
Qed.

Lemma Qsum_map_bounds {W : Type} (g : W -> Q) (ws : list W) :
  (forall w, 0 <= g w <= 1) ->
  0 <= Qsum (map g ws) <= inject_Z (Z.of_nat (List.length ws)).
Proof.
  intro Hg. rewrite <- (length_map g ws). apply Qsum_bounds.
  intros x Hx. apply in_map_iff in Hx. destruct Hx as [w [<- _]]. apply Hg.
Qed.

Lemma word_score_bounds t ws :
  ws <> [] -> 0 <= Coordinator.word_score t ws <= 1.
Proof.
  intro Hne. unfold Coordinator.word_score, Coordinator.word_matches.
  apply Qmean_bounds.
  - destruct ws; [congruence | simpl; lia].
  - apply Qsum_map_bounds, word_match_bounds.
Qed.

Lemma damped_le_1 (x : Q) : 0 <= x <= 1 -> 0 <= x * (9 # 10) <= 1.
Proof. intros [H0 H1]. split; lra. Qed.

Lemma coordinator_score_bounds q p : 0 <= Coordinator.score q p <= 1.
Proof.
  unfold Coordinator.score, Coordinator.max_similarity.
  set (vs := Coordinator.query_variants (strip (lower q))).
  set (ws := Coordinator.query_words vs).
  assert (H1 : 0 <= Coordinator.direct_similarity vs p 0 <= 1).
  { split; [apply direct_similarity_ge_start | apply direct_similarity_le; discriminate]. }
  split.
  - eapply Qle_trans; [|apply name_boost_ge_start].
    destruct ws eqn:E; [apply H1|].
    eapply Qle_trans; [apply H1 | apply pymax_ge_l].
  - apply name_boost_le.
    destruct ws eqn:E; [apply H1|]. rewrite <- E.
    apply pymax_le; [apply H1|].
    apply damped_le_1, word_score_bounds. rewrite E. discriminate.
Qed.

Lemma server_word_match_bounds t w : 0 <= McpServer.word_match t w <= 1.
Proof.
  unfold McpServer.word_match.
  destruct (long_word w); [apply word_match_bounds | split; discriminate].
Qed.

Lemma server_word_score_bounds t ws : 0 <= McpServer.word_score t ws <= 1.
Proof.
  unfold McpServer.word_score.
  destruct (0 <? List.length ws)%nat eqn:E; [|split; discriminate].
  apply Nat.ltb_lt in E.
  apply Qmean_bounds; [exact E|].
  apply Qsum_map_bounds, server_word_match_bounds.
Qed.

Lemma category_score_bounds vs p : 0 <= McpServer.category_score vs p <= 1.
Proof.
  unfold McpServer.category_score. destruct (existsb _ _); split; discriminate.
Qed.

Lemma enhanced_score_bounds q p : 0 <= McpServer.enhanced_score q p <= 1.
Proof.
  unfold McpServer.enhanced_score, McpServer.final_score.
  set (vs := McpServer.query_variants (strip (lower q))).
  set (ws := McpServer.query_words vs).
  assert (H1 : 0 <= Coordinator.direct_similarity vs p 0 <= 1).
  { split; [apply direct_similarity_ge_start | apply direct_similarity_le; discriminate]. }
  split.
  - eapply Qle_trans; [|apply name_boost_ge_start].
    eapply Qle_trans; [apply H1 | apply pymax_list_ge_start].
  - apply name_boost_le, pymax_list_le; [apply H1|].
    intros x Hx. cbn [In] in Hx. destruct Hx as [<- | [<- | []]].
    + apply damped_le_1, server_word_score_bounds.
    + apply category_score_bounds.
Qed.



End ScoreFacts.

(** ** The fuzzy matchers *)

Module MatcherFacts.
Import PyStr Data DataFacts ScoreFacts.

Section AnyScore.
Variable score : Product -> Q.
Hypothesis score_bounds : forall p, 0 <= score p <= 1.





Lemma kept_when_reached (t : Q) (l : list Product) (p : Product) :
  In p l -> t <= score p -> In p (rank (annotate score t l)).
Proof.
  intros Hin Ht. rewrite rank_annotate.
  eapply Permutation_in; [apply Permutation_sym, sort_desc_perm|].
  apply filter_In. split; [exact Hin | apply Qle_bool_iff, Ht].
Qed.

(** A product of score 1 is ranked first unless an earlier product
    of the catalogue also has score 1. *)
Lemma top_ranked_first (t : Q) (pre post : list Product) (p : Product) :
  t <= 1 -> score p == 1 -> (forall x, In x pre -> score x < 1) ->
  hd_error (rank (annotate score t (pre ++ p :: post))) = Some p.
Proof.
  intros Ht Hp Hpre. rewrite rank_annotate, filter_app. cbn [filter].
  assert (E : Qle_bool t (score p) = true).
  { apply Qle_bool_iff. rewrite Hp. exact Ht. }
  rewrite E, sort_desc_head; [reflexivity | |].
  - intros y Hy. apply filter_In in Hy. rewrite Hp. apply Hpre, Hy.
  - intros y _. rewrite Hp. apply score_bounds.
Qed.
End AnyScore.


Definition running_shoes : Product :=
  mkProduct "RUNSHOES01" "Running Shoes" "Light shoes for long runs."
            (mkPrice 55 0) ["footwear"].

Definition running_shoe : Product :=
  mkProduct "RUNSHOE002" "Running Shoe" "A single display shoe."
            (mkPrice 30 0) ["footwear"].

Definition blue_jacket : Product :=
  mkProduct "BLUEJACKET" "Blue Jacket" "A warm jacket."
            (mkPrice 80 0) ["clothing"].


Definition name_hit (variants : list string) (p : Product) : bool :=
  existsb (fun v => contains v (lower (name p))) variants.

Lemma max_similarity_ge_direct vs ws p :
  Coordinator.direct_similarity vs p 0 <= Coordinator.max_similarity vs ws p.
Proof.
  unfold Coordinator.max_similarity.
  eapply Qle_trans; [|apply name_boost_ge_start].
  destruct ws; [apply Qle_refl | apply pymax_ge_l].
Qed.

Lemma final_score_ge_direct vs ws p :
  Coordinator.direct_similarity vs p 0 <= McpServer.final_score vs ws p.
Proof.
  unfold McpServer.final_score.
  eapply Qle_trans; [|apply name_boost_ge_start]. apply pymax_list_ge_start.
Qed.

Lemma ratio_running_shoes : Difflib.ratio "running shoes" (lower "Running Shoes") == 1.
Proof. vm_compute. reflexivity. Qed.

Lemma coordinator_score_running_shoes (p : Product) :
  name p = "Running Shoes" -> Coordinator.score "running shoe" p == 1.
Proof.
  intro Hn. apply Qle_antisym; [apply coordinator_score_bounds|].
  unfold Coordinator.score.
  eapply Qle_trans; [|apply max_similarity_ge_direct].
  replace (Coordinator.query_variants (strip (lower "running shoe")))
    with ["running shoe"; "running shoes"] by reflexivity.
  eapply Qle_trans; [|apply (direct_similarity_ge_name _ p 0 "running shoes")].
  - rewrite Hn, ratio_running_shoes. apply Qle_refl.
  - right. left. reflexivity.
Qed.

Lemma enhanced_score_running_shoes (p : Product) :
  name p = "Running Shoes" -> McpServer.enhanced_score "running shoe" p == 1.
Proof.
  intro Hn. apply Qle_antisym; [apply enhanced_score_bounds|].
  unfold McpServer.enhanced_score.
  eapply Qle_trans; [|apply final_score_ge_direct].
  replace (McpServer.query_variants (strip (lower "running shoe")))
    with ["running shoe"; "running shoes"; "running shoees"] by reflexivity.
  eapply Qle_trans; [|apply (direct_similarity_ge_name _ p 0 "running shoes")].
  - rewrite Hn, ratio_running_shoes. apply Qle_refl.
  - right. left. reflexivity.
Qed.

(** C1 (amended): for every query, catalogue and threshold not above
    0.8, a product whose lowercased name contains a variant of the
    query has a final score of at least 0.8 and is kept, in the matcher
    of the coordinator and in the enhanced matcher of the server.  For
    the query "running shoe" and threshold 0.4, a product named
    "Running Shoes" has score 1 and is returned; it is ranked first
    when no product before it in the catalogue also has score 1. *)
Theorem name_match_floor :
  (forall q C t p,
      t <= 8 # 10 -> In p C ->
      (name_hit (Coordinator.query_variants (strip (lower q))) p = true ->
       8 # 10 <= Coordinator.score q p
       /\ In p (Coordinator.fuzzy_match_products q C t))
      /\ (name_hit (McpServer.query_variants (strip (lower q))) p = true ->
          8 # 10 <= McpServer.enhanced_score q p
          /\ In p (McpServer.enhanced_fuzzy_match_products q C t)))
  /\ (forall pre post p,
         name p = "Running Shoes" ->
         (Coordinator.score "running shoe" p == 1
          /\ In p (Coordinator.fuzzy_match_products "running shoe" (pre ++ p :: post) (4 # 10))
          /\ ((forall x, In x pre -> Coordinator.score "running shoe" x < 1) ->
              hd_error
                (Coordinator.fuzzy_match_products "running shoe" (pre ++ p :: post) (4 # 10))
              = Some p))
         /\ (McpServer.enhanced_score "running shoe" p == 1
             /\ In p (McpServer.enhanced_fuzzy_match_products
                        "running shoe" (pre ++ p :: post) (4 # 10))
             /\ ((forall x, In x pre -> McpServer.enhanced_score "running shoe" x < 1) ->
                 hd_error
                   (McpServer.enhanced_fuzzy_match_products
                      "running shoe" (pre ++ p :: post) (4 # 10))
                 = Some p))).
Proof.
  split.
  - intros q C t p Ht Hin. split; intro Hhit.
    + assert (H8 : 8 # 10 <= Coordinator.score q p)
        by (apply name_boost_floor, Hhit).
      split; [exact H8|].
      apply kept_when_reached; [exact Hin | eapply Qle_trans; eassumption].
    + assert (H8 : 8 # 10 <= McpServer.enhanced_score q p)
        by (apply name_boost_floor, Hhit).
      split; [exact H8|].
      apply kept_when_reached; [exact Hin | eapply Qle_trans; eassumption].
  - intros pre post p Hn. split.
    + pose proof (coordinator_score_running_shoes p Hn) as H1.
      split; [exact H1|]. split.
      * apply kept_when_reached; [apply in_elt | rewrite H1; discriminate].
      * intro Hpre. apply top_ranked_first;
          [apply coordinator_score_bounds | discriminate | exact H1 | exact Hpre].
    + pose proof (enhanced_score_running_shoes p Hn) as H1.
      split; [exact H1|]. split.
      * apply kept_when_reached; [apply in_elt | rewrite H1; discriminate].
      * intro Hpre. apply top_ranked_first;
          [apply enhanced_score_bounds | discriminate | exact H1 | exact Hpre].
Qed.

Lemma name_match_floor_witness :
  (8 # 10 <= Coordinator.score "running shoe" running_shoes
   /\ In running_shoes
         (Coordinator.fuzzy_match_products "running shoe" [blue_jacket; running_shoes] (4 # 10)))
  /\ hd_error
       (Coordinator.fuzzy_match_products "running shoe" [blue_jacket; running_shoes] (4 # 10))
     = Some running_shoes.
Proof.
  split.
  - apply (proj1 name_match_floor "running shoe" [blue_jacket; running_shoes]
                 (4 # 10) running_shoes).
    + unfold Qle; simpl; lia.
    + right. left. reflexivity.
    + reflexivity.
  - apply (proj2 name_match_floor [blue_jacket] [] running_shoes eq_refl).
    intros x [<- | []]. vm_compute. reflexivity.
Defined.

(** C1, as stated, fails: a catalogue can hold an earlier product of
    the same score, here "Running Shoe" in front of "Running Shoes",
    and the stable sort keeps the earlier one first. *)
Lemma ranked_first_counterexample :
  In running_shoes [running_shoe; running_shoes]
  /\ name running_shoes = "Running Shoes"
  /\ hd_error
       (Coordinator.fuzzy_match_products "running shoe" [running_shoe; running_shoes] (4 # 10))
     = Some running_shoe
  /\ hd_error
       (McpServer.enhanced_fuzzy_match_products
          "running shoe" [running_shoe; running_shoes] (4 # 10))
     = Some running_shoe
  /\ running_shoe <> running_shoes.
Proof.
  split; [right; left; reflexivity|].
  split; [reflexivity|].
  split; [vm_compute; reflexivity|].
  split; [vm_compute; reflexivity|].
  discriminate.
Qed.

End MatcherFacts.

(** ** Lexical variants *)

Module VariantFacts.
Import PyStr.

(** C4 (amended): for every phrase that does not end in "s" the list of
    variants is the phrase and the phrase with "s" added, followed by
    the phrase with "es" added -- in the matcher of the coordinator
    only when the phrase does not end in "e", in the enhanced matcher
    of the server always. *)
Theorem variants_without_final_s (phrase : string) :
  endswith phrase "s" = false ->
  Coordinator.query_variants phrase
  = [phrase; (phrase ++ "s")%string]
      ++ (if endswith phrase "e" then [] else [(phrase ++ "es")%string])
  /\ McpServer.query_variants phrase
     = [phrase; (phrase ++ "s")%string; (phrase ++ "es")%string].
Proof.
  intro H. unfold Coordinator.query_variants, McpServer.query_variants.
  rewrite H. cbn [andb]. split; [|reflexivity].
  destruct (endswith phrase "e"); reflexivity.
Qed.

Lemma variants_without_final_s_witness :
  Coordinator.query_variants "mug" = ["mug"; "mugs"; "muges"]
  /\ McpServer.query_variants "mug" = ["mug"; "mugs"; "muges"].
Proof. apply (variants_without_final_s "mug"). reflexivity. Defined.

(** C4, as stated, fails for the enhanced matcher: "shoe" ends in "e"
    and does not end in "s", yet "shoees" is one of its variants. *)
Lemma enhanced_variants_counterexample :
  endswith "shoe" "s" = false
  /\ endswith "shoe" "e" = true
  /\ In "shoees" (McpServer.query_variants "shoe")
  /\ ~ In "shoees" (Coordinator.query_variants "shoe").
Proof.
  split; [reflexivity|]. split; [reflexivity|]. split.
  - right. right. left. reflexivity.
  - intros [H | [H | []]]; discriminate.
Qed.

End VariantFacts.

(** ** The word-overlap signal *)

Module WordOverlap.
Import PyStr Data DataFacts ScoreFacts.















End WordOverlap.

(** ** Splitting and joining words *)

Module PyStrFacts.
Import PyStr.

Lemma isspace_lower (c : ascii) : isspace (lower_char c) = isspace c.
Proof. destruct c as [[] [] [] [] [] [] [] []]; reflexivity. Qed.

Lemma lower_char_idem (c : ascii) : lower_char (lower_char c) = lower_char c.
Proof. destruct c as [[] [] [] [] [] [] [] []]; reflexivity. Qed.

Lemma lower_idem (s : string) : lower (lower s) = lower s.
Proof.
  induction s as [|c s IH]; simpl; [reflexivity|].
  rewrite lower_char_idem, IH. reflexivity.
Qed.

Lemma lower_app (s t : string) : lower (s ++ t) = (lower s ++ lower t)%string.
Proof. induction s as [|c s IH]; simpl; [|rewrite IH]; reflexivity. Qed.

(** Does the text begin inside a word? *)
Definition starts_word (t : string) : bool :=
  match t with
  | String d _ => negb (isspace d)
  | EmptyString => false
  end.

Lemma split_cons_space (c : ascii) (t : string) :
  isspace c = true -> split (String c t) = split t.
Proof. intro H. simpl. rewrite H. reflexivity. Qed.

Lemma split_cons_word (c : ascii) (t : string) :
  isspace c = false ->
  split (String c t)
  = if starts_word t
    then match split t with
         | w :: ws => String c w :: ws
         | [] => [String c EmptyString]
         end
    else String c EmptyString :: split t.
Proof.
  intro H. cbn [split]. rewrite H.
  destruct t as [|d t']; [reflexivity|].
  unfold starts_word. destruct (isspace d); reflexivity.
Qed.

(** Two tails that begin alike and split alike give the same words. *)
Lemma split_cons_congr (c : ascii) (t t' : string) :
  starts_word t = starts_word t' -> split t = split t' ->
  split (String c t) = split (String c t').
Proof.
  intros Hs He. destruct (isspace c) eqn:E.
  - rewrite !split_cons_space by exact E. exact He.
  - rewrite !split_cons_word by exact E. rewrite Hs, He. reflexivity.
Qed.

Lemma starts_word_lower (s : string) : starts_word (lower s) = starts_word s.
Proof. destruct s as [|c s]; simpl; [|rewrite isspace_lower]; reflexivity. Qed.

Lemma split_lower (s : string) : split (lower s) = map lower (split s).
Proof.
  induction s as [|c s IH]; [reflexivity|].
  cbn [lower]. destruct (isspace c) eqn:E.
  - rewrite !split_cons_space by (rewrite ?isspace_lower; exact E). exact IH.
  - rewrite !split_cons_word by (rewrite ?isspace_lower; exact E).
    rewrite starts_word_lower, IH.
    destruct (starts_word s); [|reflexivity].
    destruct (split s); reflexivity.
Qed.

Lemma split_lstrip (s : string) : split (lstrip_by isspace s) = split s.
Proof.
  induction s as [|c s IH]; [reflexivity|].
  cbn [lstrip_by]. destruct (isspace c) eqn:E; [|reflexivity].
  rewrite split_cons_space by exact E. exact IH.
Qed.

Lemma rstrip_cons (c : ascii) (s : string) :
  rstrip_by isspace (String c s)
  = match rstrip_by isspace s with
    | EmptyString => if isspace c then EmptyString else String c EmptyString
    | r => String c r
    end.
Proof. reflexivity. Qed.

Lemma starts_word_rstrip (s : string) :
  starts_word (rstrip_by isspace s) = starts_word s.
Proof.
  destruct s as [|c s]; [reflexivity|].
  rewrite rstrip_cons. destruct (rstrip_by isspace s).
  - destruct (isspace c) eqn:E; simpl; rewrite E; reflexivity.
  - reflexivity.
Qed.

Lemma split_rstrip (s : string) : split (rstrip_by isspace s) = split s.
Proof.
  induction s as [|c s IH]; [reflexivity|].
  rewrite rstrip_cons.
  destruct (rstrip_by isspace s) as [|e r] eqn:Er.
  - pose proof (starts_word_rstrip s) as Hs. rewrite Er in Hs. simpl in Hs.
    destruct (isspace c) eqn:E.
    + rewrite split_cons_space by exact E. exact IH.
    + apply split_cons_congr; [exact Hs | exact IH].
  - apply split_cons_congr; [|exact IH].
    rewrite <- Er. apply starts_word_rstrip.
Qed.

Lemma split_strip (s : string) : split (strip s) = split s.
Proof. unfold strip. rewrite split_rstrip. apply split_lstrip. Qed.

(** A word: not empty, no white space. *)
Fixpoint nospace (w : string) : bool :=
  match w with
  | EmptyString => true
  | String c w' => negb (isspace c) && nospace w'
  end.

Definition is_word (w : string) : Prop := w <> EmptyString /\ nospace w = true.

Lemma split_words (s : string) : Forall is_word (split s).
Proof.
  induction s as [|c s IH]; [constructor|].
  destruct (isspace c) eqn:E.
  - rewrite split_cons_space by exact E. exact IH.
  - assert (Hc : is_word (String c EmptyString)).
    { split; [discriminate | simpl; rewrite E; reflexivity]. }
    rewrite split_cons_word by exact E.
    destruct (starts_word s).
    + destruct (split s) as [|w ws]; [constructor; [exact Hc | constructor]|].
      inversion IH as [|? ? [Hw1 Hw2] Hws]; subst.
      constructor; [|exact Hws].
      split; [discriminate | simpl; rewrite E, Hw2; reflexivity].
    + constructor; assumption.
Qed.

Lemma starts_word_app (w t : string) :
  w <> EmptyString -> starts_word (w ++ t) = starts_word w.
Proof. destruct w; [congruence | reflexivity]. Qed.

Lemma split_word_then_space (w rest : string) :
  is_word w -> split (w ++ String " " rest) = w :: split rest.
Proof.
  intros [Hne Hns]. induction w as [|c w IH]; [congruence|].
  simpl in Hns. apply andb_true_iff in Hns. destruct Hns as [Hc Hw].
  apply negb_true_iff in Hc.
  cbn [append]. rewrite split_cons_word by exact Hc.
  destruct w as [|d w'].
  - reflexivity.
  - rewrite starts_word_app by discriminate.
    rewrite IH by (discriminate || exact Hw).
    simpl in Hw. apply andb_true_iff in Hw. destruct Hw as [Hd _].
    simpl. rewrite Hd. reflexivity.
Qed.

Lemma split_word (w : string) : is_word w -> split w = [w].
Proof.
  intros [Hne Hns]. induction w as [|c w IH]; [congruence|].
  simpl in Hns. apply andb_true_iff in Hns. destruct Hns as [Hc Hw].
  apply negb_true_iff in Hc.
  rewrite split_cons_word by exact Hc.
  destruct w as [|d w'].
  - reflexivity.
  - rewrite IH by (discriminate || exact Hw).
    simpl in Hw. apply andb_true_iff in Hw. destruct Hw as [Hd _].
    simpl. rewrite Hd. reflexivity.
Qed.

Lemma join_cons (w : string) (ws : list string) :
  join " " (w :: ws)
  = match ws with
    | [] => w
    | _ => (w ++ String " " (join " " ws))%string
    end.
Proof. destruct ws; reflexivity. Qed.

(** Joining words with single spaces and splitting again is the identity. *)
Lemma split_join (ws : list string) : Forall is_word ws -> split (join " " ws) = ws.
Proof.
  induction 1 as [|w ws Hw Hws IH]; [reflexivity|].
  rewrite join_cons. destruct ws as [|w' ws'].
  - apply split_word, Hw.
  - rewrite split_word_then_space by exact Hw. rewrite IH. reflexivity.
Qed.

Lemma lower_join (ws : list string) : lower (join " " ws) = join " " (map lower ws).
Proof.
  induction ws as [|w ws IH]; [reflexivity|].
  cbn [map]. rewrite !join_cons. destruct ws as [|w' ws']; [reflexivity|].
  rewrite lower_app. cbn [lower]. rewrite IH. reflexivity.
Qed.

End PyStrFacts.

(** ** The text normaliser and the intent classifier *)

Module EngineFacts.
Import PyStr PyStrFacts Data DataFacts SemanticSearchEngine.

Lemma collapse_cons (c : ascii) (s : string) :
  collapse_spaces (String c s)
  = if isspace c then
      match s with
      | EmptyString => String " " EmptyString
      | String d _ =>
          if isspace d then collapse_spaces s else String " " (collapse_spaces s)
      end
    else String c (collapse_spaces s).
Proof. reflexivity. Qed.

Lemma starts_word_collapse (s : string) :
  starts_word (collapse_spaces s) = starts_word s.
Proof.
  induction s as [|c s IH]; [reflexivity|].
  rewrite collapse_cons.
  destruct (isspace c) eqn:E; [|cbn [starts_word]; rewrite E; reflexivity].
  destruct s as [|d s']; [cbn [starts_word]; rewrite E; reflexivity|].
  destruct (isspace d) eqn:Ed; [|cbn [starts_word]; rewrite E; reflexivity].
  rewrite IH. cbn [starts_word]. rewrite E, Ed. reflexivity.
Qed.

(** Collapsing runs of white space does not change the words. *)
Lemma split_collapse (s : string) : split (collapse_spaces s) = split s.
Proof.
  induction s as [|c s IH]; [reflexivity|].
  rewrite collapse_cons. destruct (isspace c) eqn:E.
  - rewrite (split_cons_space c s E).
    destruct s as [|d s']; [reflexivity|].
    destruct (isspace d) eqn:Ed; [exact IH|].
    rewrite split_cons_space by reflexivity. exact IH.
  - apply split_cons_congr; [apply starts_word_collapse | exact IH].
Qed.

(** The stop-word filter of [preprocess_text] on a list of words. *)
Definition keep_words (words : list string) : list string :=
  filter (fun w => negb (mem w stop_words) || (List.length words <=? 3)%nat) words.

(** [preprocess_text] only depends on the words of the lowercased text. *)
Lemma preprocess_text_words (text : string) :
  preprocess_text text = join " " (keep_words (split (lower text))).
Proof.
  destruct text as [|c text]; [reflexivity|].
  unfold preprocess_text, keep_words.
  rewrite split_collapse, split_strip. reflexivity.
Qed.

Lemma keep_words_idem (ws : list string) : keep_words (keep_words ws) = keep_words ws.
Proof.
  unfold keep_words at 1.
  apply filter_all. apply forallb_forall. intros w Hw.
  unfold keep_words in Hw. apply filter_In in Hw. destruct Hw as [_ Hk].
  apply orb_true_iff in Hk. apply orb_true_iff.
  destruct Hk as [Hk | Hk]; [left; exact Hk | right].
  apply Nat.leb_le in Hk. apply Nat.leb_le.
  eapply Nat.le_trans; [apply filter_length_le | exact Hk].
Qed.

(** C6: the text normaliser is idempotent, for every text (the empty and
    the blank text included): it lowercases, strips and collapses white
    space and removes the stop words unless the text has 3 words or
    fewer, and applying it twice gives what applying it once gives. *)
Theorem preprocess_text_idempotent (t : string) :
  preprocess_text (preprocess_text t) = preprocess_text t.
Proof.
  rewrite (preprocess_text_words (preprocess_text t)).
  rewrite (preprocess_text_words t).
  set (ws := split (lower t)).
  assert (Hsub : forall w, In w (keep_words ws) -> In w ws).
  { intros w Hw. unfold keep_words in Hw. apply filter_In in Hw. apply Hw. }
  assert (Hlow : map lower (keep_words ws) = keep_words ws).
  { rewrite <- (map_id (keep_words ws)) at 2. apply map_ext_in.
    intros w Hw. apply Hsub in Hw. unfold ws in Hw.
    rewrite split_lower in Hw. apply in_map_iff in Hw.
    destruct Hw as [w0 [<- _]]. apply lower_idem. }
  assert (Hwords : Forall is_word (keep_words ws)).
  { apply Forall_forall. intros w Hw. apply Hsub in Hw.
    pose proof (split_words (lower t)) as Hall.
    rewrite Forall_forall in Hall. apply Hall, Hw. }
  rewrite lower_join, Hlow, (split_join _ Hwords), keep_words_idem.
  reflexivity.
Qed.

(** The intents in the order in which their phrases are tested. *)
Definition intent_order : list Intent := map fst intent_patterns.

Lemma find_first {A : Type} (f : A -> bool) (pre post : list A) (x : A) :
  (forall y, In y pre -> f y = false) -> f x = true ->
  find f (pre ++ x :: post) = Some x.
Proof.
  intros Hpre Hx. induction pre as [|y pre IH]; simpl.
  - rewrite Hx. reflexivity.
  - rewrite (Hpre y (or_introl eq_refl)). apply IH.
    intros z Hz. apply Hpre. right. exact Hz.
Qed.

Lemma find_none {A : Type} (f : A -> bool) (l : list A) :
  (forall y, In y l -> f y = false) -> find f l = None.
Proof.
  induction l as [|y l IH]; intro H; simpl; [reflexivity|].
  rewrite (H y (or_introl eq_refl)). apply IH.
  intros z Hz. apply H. right. exact Hz.
Qed.

(** C5: the phrase lists are tested in the declared order search,
    cart_view, cart_add, recommendations, help; the first intent one of
    whose phrases occurs in the lowercased text is returned, with or
    without an embedding backend; when no phrase occurs and there is no
    backend the result is search.  The three examples of the
    specification evaluate accordingly. *)
Theorem classify_intent_first_match :
  intent_order = [search; cart_view; cart_add; recommendations; help]
  /\ (forall model text pre intent patterns post,
         intent_patterns = pre ++ (intent, patterns) :: post ->
         (forall entry, In entry pre -> any_pattern (lower text) (snd entry) = false) ->
         any_pattern (lower text) patterns = true ->
         classify_intent model text = intent)
  /\ (forall text,
         (forall entry, In entry intent_patterns ->
                        any_pattern (lower text) (snd entry) = false) ->
         classify_intent None text = search)
  /\ classify_intent None "show me watches" = search
  /\ classify_intent None "what's in my cart" = cart_view
  /\ classify_intent None "xyz nonsense" = search.
Proof.
  split; [reflexivity|]. split; [|split; [|repeat split]].
  - intros model text pre intent patterns post Hsplit Hpre Hhit.
    unfold classify_intent. rewrite Hsplit.
    rewrite (find_first _ pre post (intent, patterns)); [reflexivity | exact Hpre | exact Hhit].
  - intros text Hnone. unfold classify_intent.
    rewrite find_none by exact Hnone. reflexivity.
Qed.

Lemma classify_intent_first_match_witness :
  classify_intent None "what's in my cart" = cart_view
  /\ classify_intent None "xyz nonsense" = search.
Proof.
  split.
  - apply (proj1 (proj2 classify_intent_first_match) None "what's in my cart"
                 [nth 0 intent_patterns (search, [])]
                 cart_view (snd (nth 1 intent_patterns (search, [])))
                 (skipn 2 intent_patterns)).
    + reflexivity.
    + intros entry [<- | []]. vm_compute. reflexivity.
    + vm_compute. reflexivity.
  - apply (proj1 (proj2 (proj2 classify_intent_first_match)) "xyz nonsense").
    intros entry Hin. cbn [intent_patterns In] in Hin.
    destruct Hin as [<- | [<- | [<- | [<- | [<- | []]]]]]; vm_compute; reflexivity.
Defined.

End EngineFacts.

(** ** What a match of the regular-expression matcher says about the text *)

Module ReFacts.
Import PyStr Re.
Local Open Scope nat_scope.

Section Semantics.
Variable ignorecase : bool.

(** The whole of [s] is the literal [p]. *)
Fixpoint lit_matches (p s : string) : bool :=
  match p, s with
  | EmptyString, EmptyString => true
  | String a p', String b s' => char_eq ignorecase a b && lit_matches p' s'
  | _, _ => false
  end.

(** Every character of [s] is in the class [f]. *)
Fixpoint class_all (f : ascii -> bool) (s : string) : bool :=
  match s with
  | EmptyString => true
  | String c s' => in_class ignorecase f c && class_all f s'
  end.

(** [sem r s cap cap']: the expression [r] matches the text [s] and
    turns the text of group 1 from [cap] into [cap']. *)
Inductive sem : regex -> string -> option string -> option string -> Prop :=
| sem_lit p s cap : lit_matches p s = true -> sem (Lit p) s cap cap
| sem_cat r1 r2 s1 s2 c0 c1 c2 :
    sem r1 s1 c0 c1 -> sem r2 s2 c1 c2 -> sem (Cat r1 r2) (s1 ++ s2) c0 c2
| sem_alt_l r1 r2 s c0 c1 : sem r1 s c0 c1 -> sem (Alt r1 r2) s c0 c1
| sem_alt_r r1 r2 s c0 c1 : sem r2 s c0 c1 -> sem (Alt r1 r2) s c0 c1
| sem_opt_some r s c0 c1 : sem r s c0 c1 -> sem (Opt r) s c0 c1
| sem_opt_none r cap : sem (Opt r) EmptyString cap cap
| sem_rep f lo hi s cap :
    class_all f s = true -> lo <= String.length s ->
    (forall h, hi = Some h -> String.length s <= h) ->
    sem (Rep f lo hi) s cap cap
| sem_group r s c0 c1 : sem r s c0 c1 -> sem (Group r) s c0 (Some s)
| sem_boundary cap : sem WordBoundary EmptyString cap cap.

Lemma lit_sound (p : string) :
  forall prev s prev' s',
    lit ignorecase p prev s = Some (prev', s') ->
    exists s1, s = (s1 ++ s')%string /\ lit_matches p s1 = true.
Proof.
  induction p as [|a p IH]; intros prev s prev' s' H; simpl in H.
  - inversion H; subst. exists EmptyString. split; reflexivity.
  - destruct s as [|b s0]; [discriminate|].
    destruct (char_eq ignorecase a b) eqn:E; [|discriminate].
    destruct (IH _ _ _ _ H) as [s1 [-> Hm]].
    exists (String b s1). split; [reflexivity|].
    simpl. rewrite E, Hm. reflexivity.
Qed.

Lemma rep_sound {R : Type} (f : ascii -> bool) (k : cont) (cap : option string) (x : R)
      (s : string) :
  forall lo hi prev,
    rep ignorecase f lo hi prev s cap k = Some x ->
    exists s1 s2 prev',
      s = (s1 ++ s2)%string /\ class_all f s1 = true /\ lo <= String.length s1
      /\ (forall h, hi = Some h -> String.length s1 <= h)
      /\ k prev' s2 cap = Some x.
Proof.
  induction s as [|c s IH]; intros lo hi prev H.
  - simpl in H. destruct lo; [|discriminate].
    exists EmptyString, EmptyString, prev. repeat split; try (simpl; lia); exact H.
  - assert (Hstop :
              match lo with O => k prev (String c s) cap | S _ => None end = Some x ->
              exists s1 s2 prev',
                String c s = (s1 ++ s2)%string /\ class_all f s1 = true
                /\ lo <= String.length s1
                /\ (forall h, hi = Some h -> String.length s1 <= h)
                /\ k prev' s2 cap = Some x).
    { intro Hs. destruct lo; [|discriminate].
      exists EmptyString, (String c s), prev.
      repeat split; try (simpl; lia); exact Hs. }
    cbn [rep] in H.
    destruct (match hi with Some O => false | _ => true end
              && in_class ignorecase f c) eqn:E; [|exact (Hstop H)].
    apply andb_true_iff in E. destruct E as [Emore Ec].
    destruct (rep ignorecase f (Nat.pred lo) (option_map Nat.pred hi) (Some c) s cap k)
      as [y|] eqn:Er; [|exact (Hstop H)].
    inversion H; subst y.
    destruct (IH _ _ _ Er) as [s1 [s2 [prev' [Hs [Hc [Hlo [Hhi Hk]]]]]]].
    exists (String c s1), s2, prev'. repeat split.
    + rewrite Hs. reflexivity.
    + simpl. rewrite Ec, Hc. reflexivity.
    + simpl. lia.
    + intros h Hh. subst hi. simpl.
      destruct h as [|h']; [discriminate|].
      specialize (Hhi h' eq_refl). lia.
    + exact Hk.
Qed.

Lemma length_append (s t : string) :
  String.length (s ++ t) = String.length s + String.length t.
Proof. induction s as [|c s IH]; simpl; [|rewrite IH]; reflexivity. Qed.

Lemma substring_prefix (s t : string) :
  substring 0 (String.length (s ++ t) - String.length t) (s ++ t) = s.
Proof.
  rewrite length_append.
  replace (String.length s + String.length t - String.length t)
    with (String.length s) by lia.
  induction s as [|c s IH]; simpl.
  - destruct t; reflexivity.
  - rewrite IH. reflexivity.
Qed.

Lemma append_assoc (a b c : string) : ((a ++ b) ++ c = a ++ (b ++ c))%string.
Proof. induction a as [|x a IH]; simpl; [|rewrite IH]; reflexivity. Qed.

(** Soundness of the matcher: a successful run splits the text into a
    part that the expression matches and a rest on which the
    continuation succeeds. *)
Lemma run_sound {R : Type} (r : regex) :
  forall prev s cap (k : cont) (x : R),
    run ignorecase r prev s cap k = Some x ->
    exists s1 s2 prev' cap',
      s = (s1 ++ s2)%string /\ sem r s1 cap cap' /\ k prev' s2 cap' = Some x.
Proof.
  induction r as [p | r1 IH1 r2 IH2 | r1 IH1 r2 IH2 | r1 IH1 | f lo hi | r1 IH1 | ];
    intros prev s cap k x H; cbn [run] in H.
  - destruct (lit ignorecase p prev s) as [[prev' s']|] eqn:E; [|discriminate].
    destruct (lit_sound _ _ _ _ _ E) as [s1 [Hs Hm]].
    exists s1, s', prev', cap. repeat split; [exact Hs | constructor; exact Hm | exact H].
  - destruct (IH1 _ _ _ _ _ H) as [s1 [s2 [prev1 [cap1 [Hs [Hsem1 Hk1]]]]]].
    destruct (IH2 _ _ _ _ _ Hk1) as [s3 [s4 [prev2 [cap2 [Hs' [Hsem2 Hk2]]]]]].
    exists (s1 ++ s3)%string, s4, prev2, cap2. repeat split.
    + rewrite Hs, Hs', append_assoc. reflexivity.
    + econstructor; eassumption.
    + exact Hk2.
  - destruct (run ignorecase r1 prev s cap k) as [y|] eqn:E.
    + inversion H; subst y.
      destruct (IH1 _ _ _ _ _ E) as [s1 [s2 [prev1 [cap1 [Hs [Hsem Hk]]]]]].
      exists s1, s2, prev1, cap1. repeat split;
        [exact Hs | apply sem_alt_l; exact Hsem | exact Hk].
    + destruct (IH2 _ _ _ _ _ H) as [s1 [s2 [prev1 [cap1 [Hs [Hsem Hk]]]]]].
      exists s1, s2, prev1, cap1. repeat split;
        [exact Hs | apply sem_alt_r; exact Hsem | exact Hk].
  - destruct (run ignorecase r1 prev s cap k) as [y|] eqn:E.
    + inversion H; subst y.
      destruct (IH1 _ _ _ _ _ E) as [s1 [s2 [prev1 [cap1 [Hs [Hsem Hk]]]]]].
      exists s1, s2, prev1, cap1. repeat split;
        [exact Hs | apply sem_opt_some; exact Hsem | exact Hk].
    + exists EmptyString, s, prev, cap. repeat split;
        [apply sem_opt_none | exact H].
  - destruct (rep_sound _ _ _ _ _ _ _ _ H) as [s1 [s2 [prev' [Hs [Hc [Hlo [Hhi Hk]]]]]]].
    exists s1, s2, prev', cap. repeat split;
      [exact Hs | constructor; assumption | exact Hk].
  - destruct (IH1 _ _ _ _ _ H) as [s1 [s2 [prev1 [cap1 [Hs [Hsem Hk]]]]]].
    exists s1, s2, prev1, (Some s1). repeat split.
    + exact Hs.
    + econstructor; exact Hsem.
    + rewrite Hs, substring_prefix in Hk. exact Hk.
  - destruct (xorb _ _); [|discriminate].
    exists EmptyString, s, prev, cap. repeat split; [constructor | exact H].
Qed.

(** The text of group 1 of a match found by [re.search] is the one
    that the expression sets on some part of the text. *)
Lemma search_at_sound (r : regex) (s : string) (m : MatchObject) :
  forall prev,
    search_at ignorecase r prev s = Some m ->
    exists s0 s1 s2, s = (s0 ++ s1 ++ s2)%string /\ sem r s1 None (group1 m).
Proof.
  induction s as [|c s IH]; intros prev H; cbn [search_at] in H.
  - destruct (run ignorecase r prev EmptyString None
                  (fun _ _ cap => Some (mkMatchObject cap))) as [y|] eqn:E;
      [|discriminate].
    inversion H; subst y.
    destruct (run_sound _ _ _ _ _ _ E) as [s1 [s2 [p' [cap' [Hs [Hsem Hk]]]]]].
    inversion Hk; subst m. exists EmptyString, s1, s2. split; [exact Hs | exact Hsem].
  - destruct (run ignorecase r prev (String c s) None
                  (fun _ _ cap => Some (mkMatchObject cap))) as [y|] eqn:E.
    + inversion H; subst y.
      destruct (run_sound _ _ _ _ _ _ E) as [s1 [s2 [p' [cap' [Hs [Hsem Hk]]]]]].
      inversion Hk; subst m. exists EmptyString, s1, s2.
      split; [exact Hs | exact Hsem].
    + destruct (IH _ H) as [s0 [s1 [s2 [Hs Hsem]]]].
      exists (String c s0), s1, s2. split; [rewrite Hs; reflexivity | exact Hsem].
Qed.

Lemma search_sound (r : regex) (s : string) (m : MatchObject) :
  search ignorecase r s = Some m ->
  exists s0 s1 s2, s = (s0 ++ s1 ++ s2)%string /\ sem r s1 None (group1 m).
Proof. apply search_at_sound. Qed.
End Semantics.

End ReFacts.

(** ** The extractors of the shopping agent *)

Module AgentFacts.
Import PyStr Data Re ReFacts ShoppingAgent.

Lemma first_valid_sound (patterns : list regex) (message c : string) :
  first_valid patterns message = Some c ->
  valid_candidate c = true
  /\ exists pattern m,
      In pattern patterns /\ search true pattern message = Some m /\ group1 m = Some c.
Proof.
  induction patterns as [|pattern rest IH]; intro H; simpl in H; [discriminate|].
  assert (Hrest : first_valid rest message = Some c ->
                  valid_candidate c = true
                  /\ exists pattern' m,
                      In pattern' (pattern :: rest)
                      /\ search true pattern' message = Some m /\ group1 m = Some c).
  { intro Hr. destruct (IH Hr) as [Hv [p' [m [Hin Hm]]]].
    split; [exact Hv|]. exists p', m. split; [right; exact Hin | exact Hm]. }
  destruct (search true pattern message) as [m|] eqn:Es; [|exact (Hrest H)].
  destruct (group1 m) as [candidate|] eqn:Eg; [|exact (Hrest H)].
  destruct (valid_candidate candidate) eqn:Ev; [|exact (Hrest H)].
  inversion H; subst c. split; [exact Ev|].
  exists pattern, m. split; [left; reflexivity | split; [exact Es | exact Eg]].
Qed.

Lemma first_valid_none (patterns : list regex) (message : string) :
  (forall pattern m c,
      In pattern patterns -> search true pattern message = Some m ->
      group1 m = Some c -> valid_candidate c = false) ->
  first_valid patterns message = None.
Proof.
  induction patterns as [|pattern rest IH]; intro H; simpl; [reflexivity|].
  assert (Hrest : first_valid rest message = None).
  { apply IH. intros p' m c Hin. apply H. right. exact Hin. }
  destruct (search true pattern message) as [m|] eqn:Es; [|exact Hrest].
  destruct (group1 m) as [candidate|] eqn:Eg; [|exact Hrest].
  rewrite (H pattern m candidate (or_introl eq_refl) Es Eg). exact Hrest.
Qed.

(** C7: when [_extract_product_id] returns a candidate, the candidate is
    group 1 of the first match of one of the three patterns, it is at
    least 8 characters long, its lowercase form is not one of the
    common product words, and one of its characters is an uppercase
    letter or a digit; when no pattern has such a candidate the result
    is [None].  The two examples of the specification evaluate
    accordingly. *)
Theorem extract_product_id_valid :
  (forall message c,
      _extract_product_id message = Some c ->
      (8 <= String.length c)%nat
      /\ mem (lower c) common_words = false
      /\ (exists ch, In ch (list_ascii_of_string c) /\ (isupper ch || isdigit ch) = true)
      /\ exists pattern m,
          In pattern product_id_patterns
          /\ search true pattern message = Some m /\ group1 m = Some c)
  /\ (forall message,
         (forall pattern m c,
             In pattern product_id_patterns -> search true pattern message = Some m ->
             group1 m = Some c -> valid_candidate c = false) ->
         _extract_product_id message = None)
  /\ _extract_product_id "add OLJCESPC7Z to cart" = Some "OLJCESPC7Z"
  /\ _extract_product_id "add mug to cart" = None.
Proof.
  split; [|split; [|split; reflexivity]].
  - intros message c H. unfold _extract_product_id in H.
    destruct (first_valid_sound _ _ _ H) as [Hv Hm].
    unfold valid_candidate in Hv.
    apply andb_true_iff in Hv. destruct Hv as [Hv H3].
    apply andb_true_iff in Hv. destruct Hv as [H1 H2].
    split; [apply Nat.leb_le, H1|].
    split; [apply negb_true_iff, H2|].
    split; [|exact Hm].
    unfold string_exists in H3. apply existsb_exists in H3. exact H3.
  - intros message H. apply first_valid_none, H.
Qed.

Lemma extract_product_id_valid_witness :
  (8 <= String.length "OLJCESPC7Z")%nat
  /\ mem (lower "OLJCESPC7Z") common_words = false
  /\ (exists ch, In ch (list_ascii_of_string "OLJCESPC7Z")
                 /\ (isupper ch || isdigit ch) = true)
  /\ exists pattern m,
      In pattern product_id_patterns
      /\ search true pattern "add OLJCESPC7Z to cart" = Some m
      /\ group1 m = Some "OLJCESPC7Z".
Proof.
  apply (proj1 extract_product_id_valid "add OLJCESPC7Z to cart" "OLJCESPC7Z").
  reflexivity.
Defined.

(** The variant without the optional libraries returns the first
    capture unchecked: there "add mug to cart" gives "mug". *)
Lemma no_ml_extract_product_id_unchecked :
  NoML._extract_product_id "add mug to cart" = Some "mug"
  /\ NoML._extract_product_id "add OLJCESPC7Z to cart" = Some "OLJCESPC7Z".
Proof. split; reflexivity. Qed.

(** A string of decimal digits. *)
Fixpoint digits (s : string) : bool :=
  match s with
  | EmptyString => true
  | String c s' => isdigit c && digits s'
  end.

(** The amounts that the budget patterns capture: digits, then nothing
    or a dot and exactly two digits. *)
Definition amount_text (g : string) : Prop :=
  exists whole,
    digits whole = true /\ whole <> EmptyString
    /\ (g = whole
        \/ exists frac, g = (whole ++ "." ++ frac)%string
                        /\ digits frac = true /\ String.length frac = 2%nat).

Lemma in_class_isdigit (c : ascii) : in_class true isdigit c = isdigit c.
Proof. destruct c as [[] [] [] [] [] [] [] []]; reflexivity. Qed.

Lemma class_all_isdigit (s : string) : class_all true isdigit s = digits s.
Proof.
  induction s as [|c s IH]; simpl; [reflexivity|].
  rewrite in_class_isdigit, IH. reflexivity.
Qed.

Lemma char_eq_dot (b : ascii) : char_eq true "." b = true -> b = "."%char.
Proof. destruct b as [[] [] [] [] [] [] [] []]; simpl; intro H; try discriminate; reflexivity. Qed.

Lemma lit_matches_dot (s : string) : lit_matches true "." s = true -> s = ".".
Proof.
  destruct s as [|b s]; simpl; [discriminate|].
  intro H. apply andb_true_iff in H. destruct H as [Hb Hs].
  apply char_eq_dot in Hb. subst b.
  destruct s; [reflexivity | discriminate].
Qed.

Lemma lit_matches_empty (s : string) : lit_matches true "" s = true -> s = "".
Proof. destruct s; simpl; [reflexivity | discriminate]. Qed.

Lemma append_empty_r (s : string) : (s ++ "")%string = s.
Proof. induction s as [|c s IH]; simpl; [|rewrite IH]; reflexivity. Qed.

Ltac inv_cat :=
  repeat match goal with
         | H : sem _ (Cat _ _) _ _ _ |- _ => inversion H; subst; clear H
         end.

Ltac inv_lit :=
  repeat match goal with
         | H : sem _ (Lit _) _ _ _ |- _ => inversion H; subst; clear H
         end.

(** What the group of [amount] captures. *)
Lemma sem_amount (s : string) (c0 c1 : option string) :
  sem true amount s c0 c1 -> exists g, c1 = Some g /\ amount_text g.
Proof.
  intro H. unfold amount in H. cbn [cat_all fold_right] in H.
  inv_cat.
  match goal with H : sem _ (Group _) _ _ _ |- _ => inversion H; subst; clear H end.
  inv_lit. eexists. split; [reflexivity|].
  inv_cat. inv_lit.
  match goal with H : lit_matches true "" _ = true |- _ =>
                  apply lit_matches_empty in H; subst end.
  rewrite append_empty_r.
  match goal with H : sem _ digits1 _ _ _ |- _ =>
                  unfold digits1 in H; inversion H; subst; clear H end.
  match goal with H : class_all _ _ ?w = true |- _ =>
                  rewrite class_all_isdigit in H; exists w end.
  split; [assumption|]. split.
  { intro E. subst. simpl in *. lia. }
  match goal with H : sem _ (Opt _) _ _ _ |- _ => inversion H; subst; clear H end.
  - right. inv_cat. inv_lit.
    match goal with H : lit_matches true "" _ = true |- _ =>
                    apply lit_matches_empty in H; subst end.
    match goal with H : lit_matches true "." _ = true |- _ =>
                    apply lit_matches_dot in H; subst end.
    match goal with H : sem _ digits2 _ _ _ |- _ =>
                    unfold digits2 in H; inversion H; subst; clear H end.
    match goal with H : class_all _ _ ?f = true |- _ =>
                    rewrite class_all_isdigit in H; exists f end.
    rewrite append_empty_r. split; [reflexivity|]. split; [assumption|].
    match goal with H : forall h, Some 2%nat = Some h -> _ |- _ =>
                    specialize (H 2%nat eq_refl) end.
    lia.
  - left. rewrite append_empty_r. reflexivity.
Qed.

Lemma budget_pattern_amount (pattern : regex) (s : string) (c : option string) :
  In pattern budget_patterns -> sem true pattern s None c ->
  exists g, c = Some g /\ amount_text g.
Proof.
  intros Hin H. unfold budget_patterns in Hin. cbn [In] in Hin.
  destruct Hin as [<- | [<- | [<- | [<- | []]]]];
    cbn [cat_all fold_right] in H; inv_cat; inv_lit;
    eapply sem_amount; eassumption.
Qed.

Lemma first_capture_sound (patterns : list regex) (message text : string) :
  first_capture patterns message = Some text ->
  exists pattern m,
    In pattern patterns /\ search true pattern message = Some m /\ group1 m = Some text.
Proof.
  induction patterns as [|pattern rest IH]; intro H; simpl in H; [discriminate|].
  destruct (search true pattern message) as [m|] eqn:Es.
  - exists pattern, m. split; [left; reflexivity | split; [exact Es | exact H]].
  - destruct (IH H) as [p' [m [Hin Hm]]]. exists p', m. split; [right; exact Hin | exact Hm].
Qed.



End AgentFacts.

(** ** Prices in the replies *)

Module PriceFacts.
Import Data.

(** C8 (defect in the code): the coordinator formats the [nanos] field
    itself with [:02d], not [nanos // 10000000], so a price of 19 units
    and 990,000,000 nanos is printed "$19.990000000" and one of 19 units
    and 5,000,000 nanos "$19.5000000"; [format_price] of the user
    interface prints "$19.99" and "$19.00", which is what the
    specification asks for.  At [nanos = 0] the two agree. *)
Theorem price_str_prints_nanos :
  ShoppingAgent.price_str (mkPrice 19 990000000) = "$19.990000000"
  /\ StreamlitUI.format_price (mkPrice 19 990000000) = "$19.99"
  /\ ShoppingAgent.price_str (mkPrice 19 5000000) = "$19.5000000"
  /\ StreamlitUI.format_price (mkPrice 19 5000000) = "$19.00"
  /\ ShoppingAgent.price_str (mkPrice 19 0) = StreamlitUI.format_price (mkPrice 19 0).
Proof. repeat split; reflexivity. Qed.

End PriceFacts.

(** ** Invalid requests never reach a collaborator *)

Module CartFacts.
Import PyStr Cart.

Lemma blank_strip (s : string) : blank s = true <-> strip s = EmptyString.
Proof.
  unfold blank. destruct s as [|c s]; [split; reflexivity|].
  destruct (strip (String c s)); split; intro H; try reflexivity; discriminate.
Qed.

Section AnyCollaborator.
Variable Store : Type.
Variable AddItem : string -> string -> Z -> Store -> Store + string.
Variable post_add_item :
  string -> string -> Z -> World Store -> (Result + string) * World Store.

(** A request that the validation rejects. *)
Definition invalid (user_id product_id : string) (quantity : Z) : Prop :=
  strip user_id = EmptyString \/ strip product_id = EmptyString \/ (quantity <= 0)%Z.

Lemma server_rejects user_id product_id quantity (w : World Store) :
  invalid user_id product_id quantity ->
  exists msg,
    add_item_to_cart Store AddItem user_id product_id quantity w = (error msg, w).
Proof.
  intros [H | [H | H]]; unfold add_item_to_cart.
  - apply blank_strip in H. rewrite H. eexists. reflexivity.
  - apply blank_strip in H. rewrite H.
    destruct (blank user_id); eexists; reflexivity.
  - apply Z.leb_le in H. rewrite H.
    destruct (blank user_id); [eexists; reflexivity|].
    destruct (blank product_id); eexists; reflexivity.
Qed.

Lemma agent_rejects user_id product_id quantity (w : World Store) :
  invalid user_id product_id quantity ->
  exists msg,
    add_to_cart Store post_add_item user_id product_id quantity w = (error msg, w).
Proof.
  intros [H | [H | H]]; unfold add_to_cart.
  - apply blank_strip in H. rewrite H. eexists. reflexivity.
  - apply blank_strip in H. rewrite H.
    destruct (blank user_id); eexists; reflexivity.
  - apply Z.leb_le in H. rewrite H.
    destruct (blank user_id); [eexists; reflexivity|].
    destruct (blank product_id); eexists; reflexivity.
Qed.

(** A valid request, for comparison, is sent on: the call is logged. *)
Lemma server_forwards user_id product_id quantity (w : World Store) :
  blank user_id = false -> blank product_id = false -> (0 < quantity)%Z ->
  calls (snd (add_item_to_cart Store AddItem user_id product_id quantity w))
  = calls w ++ [GrpcAddItem user_id product_id quantity].
Proof.
  intros Hu Hp Hq. unfold add_item_to_cart. rewrite Hu, Hp.
  assert (E : (quantity <=? 0)%Z = false) by (apply Z.leb_gt; exact Hq).
  rewrite E. cbn [record store calls].
  destruct (AddItem user_id product_id quantity (store w)); reflexivity.
Qed.
End AnyCollaborator.

(** C9: an add-to-cart request with an empty or blank user id, an empty
    or blank product id, or a quantity that is not greater than 0 is
    answered with an error by the agent and by the server, whatever the
    collaborators are, and in the same world: the state of the cart
    service and the log of calls are as before, so no call was made. *)
Theorem invalid_add_is_rejected
        (Store : Type)
        (AddItem : string -> string -> Z -> Store -> Store + string)
        (post_add_item : string -> string -> Z -> World Store -> (Result + string) * World Store)
        (user_id product_id : string) (quantity : Z) (w : World Store) :
  strip user_id = EmptyString \/ strip product_id = EmptyString \/ (quantity <= 0)%Z ->
  (exists msg,
      add_to_cart Store post_add_item user_id product_id quantity w = (error msg, w))
  /\ (exists msg,
         add_item_to_cart Store AddItem user_id product_id quantity w = (error msg, w))
  /\ (exists msg,
         deployed_add_to_cart AddItem user_id product_id quantity w = (error msg, w)).
Proof.
  intro H. split; [|split].
  - apply agent_rejects, H.
  - apply server_rejects, H.
  - apply agent_rejects, H.
Qed.

(** A cart service that appends the line to the cart. *)
Definition append_line (user_id product_id : string) (quantity : Z)
           (st : list (string * string * Z)) : list (string * string * Z) + string :=
  inl (st ++ [(user_id, product_id, quantity)]).

Definition empty_world : World (list (string * string * Z)) := mkWorld [] [].

Lemma invalid_add_is_rejected_witness :
  (exists msg,
      deployed_add_to_cart append_line "user-1" "   " 2 empty_world
      = (error msg, empty_world))
  /\ (exists msg,
         add_item_to_cart _ append_line "user-1" "OLJCESPC7Z" 0 empty_world
         = (error msg, empty_world)).
Proof.
  split.
  - apply (invalid_add_is_rejected _ append_line
             (fun u p q w' =>
                let (r, w'') := add_item_to_cart _ append_line u p q w' in (inl r, w''))
             "user-1" "   " 2 empty_world).
    right. left. reflexivity.
  - apply (invalid_add_is_rejected _ append_line
             (fun u p q w' =>
                let (r, w'') := add_item_to_cart _ append_line u p q w' in (inl r, w''))
             "user-1" "OLJCESPC7Z" 0 empty_world).
    right. right. lia.
Defined.

(** The same deployment accepts a valid request: one post, one call of
    the cart service, one more line in the cart. *)
Lemma valid_add_reaches_cart :
  deployed_add_to_cart append_line "user-1" "OLJCESPC7Z" 2 empty_world
  = (mkResult "success" "Added 2 unit(s) of OLJCESPC7Z to cart",
     mkWorld [("user-1", "OLJCESPC7Z", 2%Z)]
             [HttpPost "/add_item_to_cart" "user-1" "OLJCESPC7Z" 2;
              GrpcAddItem "user-1" "OLJCESPC7Z" 2]).
Proof. reflexivity. Qed.

(** The variant without the optional libraries does not check the
    request itself: the invalid request costs one post to the server,
    which rejects it before the cart service is called. *)
Lemma no_ml_invalid_add_posts :
  add_to_cart_no_ml _
    (fun u p q w' => let (r, w'') := add_item_to_cart _ append_line u p q w' in (inl r, w''))
    "user-1" "   " 2 empty_world
  = (error "Product ID is required",
     mkWorld [] [HttpPost "/add_item_to_cart" "user-1" "   " 2]).
Proof. reflexivity. Qed.

End CartFacts.

(** ** More about the extractors *)

Module ExtractorFacts.
Import PyStr Data Re ReFacts ShoppingAgent AgentFacts AgentOps.

Ltac inv_sem :=
  repeat match goal with
         | H : sem _ (Cat _ _) _ _ _ |- _ => inversion H; subst; clear H
         | H : sem _ (Lit _) _ _ _ |- _ => inversion H; subst; clear H
         | H : sem _ (Alt _ _) _ _ _ |- _ => inversion H; subst; clear H
         | H : sem _ (Opt _) _ _ _ |- _ => inversion H; subst; clear H
         | H : sem _ (Rep _ _ _) _ _ _ |- _ => inversion H; subst; clear H
         | H : sem _ (Group _) _ _ _ |- _ => inversion H; subst; clear H
         | H : sem _ WordBoundary _ _ _ |- _ => inversion H; subst; clear H
         end.

Lemma digits_value_some (s : string) :
  digits s = true ->
  forall acc, (0 <= acc)%Z -> exists n, Num.digits_value s acc = Some n /\ (0 <= n)%Z.
Proof.
  induction s as [|c s IH]; intros Hd acc Hacc; cbn [Num.digits_value].
  - exists acc. split; [reflexivity | exact Hacc].
  - cbn [digits] in Hd. apply andb_true_iff in Hd. destruct Hd as [Hc Hs].
    rewrite Hc. apply IH; [exact Hs|]. unfold Num.digit_value. lia.
Qed.

Lemma py_int_digits (s : string) :
  digits s = true -> s <> EmptyString -> (String.length s <= int_max_str_digits)%nat ->
  exists n, py_int s = Some n /\ (0 <= n)%Z.
Proof.
  intros Hd Hne Hlen. unfold py_int. destruct s as [|c s]; [congruence|].
  apply Nat.ltb_ge in Hlen. rewrite Hlen.
  apply digits_value_some; [exact Hd | lia].
Qed.

(** Group 1 of a quantity pattern is a string of at least one digit. *)
Lemma quantity_pattern_digits (pattern : regex) (s : string) (c : option string) :
  In pattern quantity_patterns -> sem true pattern s None c ->
  exists g, c = Some g /\ digits g = true /\ g <> EmptyString.
Proof.
  intros Hin H. unfold quantity_patterns in Hin. cbn [In] in Hin.
  destruct Hin as [<- | [<- | [<- | []]]];
    unfold spaces, digits1, cat_all in H; cbn [fold_right] in H; inv_sem;
      (eexists; split; [reflexivity|]; split;
       [rewrite <- class_all_isdigit; assumption
       | intro E; subst; simpl in *; lia]).
Qed.

(** A text that leaves a match with group 1 set contains the group. *)
Lemma sem_group_inside (ic : bool) (r : regex) (s : string) (c0 c1 : option string) :
  sem ic r s c0 c1 ->
  c1 = c0 \/ exists g pre post, c1 = Some g /\ s = (pre ++ g ++ post)%string.
Proof.
  induction 1 as [p s cap Hm
                 | r1 r2 s1 s2 c0 c1 c2 H1 IH1 H2 IH2
                 | r1 r2 s c0 c1 H1 IH1
                 | r1 r2 s c0 c1 H1 IH1
                 | r s c0 c1 H1 IH1
                 | r cap
                 | f lo hi s cap Hc Hlo Hhi
                 | r s c0 c1 H1 IH1
                 | cap];
    try (left; reflexivity); try exact IH1.
  - destruct IH2 as [E2 | [g [pre [post [E2 Hs2]]]]].
    + destruct IH1 as [E1 | [g [pre [post [E1 Hs1]]]]].
      * left. congruence.
      * right. exists g, pre, (post ++ s2)%string. split; [congruence|].
        rewrite Hs1, !append_assoc. reflexivity.
    + right. exists g, (s1 ++ pre)%string, post. split; [exact E2|].
      rewrite Hs2, !append_assoc. reflexivity.
  - right. exists s, EmptyString, EmptyString. split; [reflexivity|].
    simpl. rewrite append_empty_r. reflexivity.
Qed.

(** The quantity is at least 1 whenever there is one. *)
Lemma quantity_from_at_least_one (patterns : list regex) (message : string) (n : Z) :
  quantity_from patterns message = Some n -> (1 <= n)%Z.
Proof.
  induction patterns as [|pattern rest IH]; cbn [quantity_from].
  - intro H. injection H as <-. lia.
  - destruct (search true pattern message) as [m|]; [|exact IH].
    destruct (group1 m) as [text|]; [|discriminate].
    destruct (py_int text) as [k|]; [|discriminate].
    intro H. injection H as <-. lia.
Qed.

(** [int] converts what a quantity pattern captures in a message of at
    most [int_max_str_digits] characters. *)
Lemma quantity_from_total (patterns : list regex) (message : string) :
  (forall p, In p patterns -> In p quantity_patterns) ->
  (String.length message <= int_max_str_digits)%nat ->
  exists n, quantity_from patterns message = Some n.
Proof.
  intros Hsub Hlen. induction patterns as [|pattern rest IH]; cbn [quantity_from].
  - exists 1%Z. reflexivity.
  - destruct (search true pattern message) as [m|] eqn:Es.
    + destruct (search_sound _ _ _ _ Es) as [s0 [s1 [s2 [Hs Hsem]]]].
      destruct (quantity_pattern_digits pattern s1 (group1 m)
                  (Hsub pattern (or_introl eq_refl)) Hsem) as [g [Hg [Hd Hne]]].
      rewrite Hg.
      assert (Hshort : (String.length g <= int_max_str_digits)%nat).
      { destruct (sem_group_inside _ _ _ _ _ Hsem) as [E | [g' [pre [post [E Hin]]]]];
          [congruence|].
        rewrite Hg in E. injection E as <-.
        rewrite Hs, Hin, !length_append in Hlen. lia. }
      destruct (py_int_digits g Hd Hne Hshort) as [n [Hn _]]. rewrite Hn.
      exists (Z.max 1 n). reflexivity.
    + apply IH. intros p Hp. apply Hsub. right. exact Hp.
Qed.

(** X1: [_extract_quantity] never returns less than 1, and it returns
    for every message of at most 4300 characters: the captured text is
    then a numeral that [int] converts (a longer run of digits makes [int]
    raise), a captured 0 is raised to 1, and the quantity is 1 when no
    pattern matches. *)
Theorem extract_quantity_at_least_one :
  (forall message n, _extract_quantity message = Some n -> (1 <= n)%Z)
  /\ (forall message,
         (String.length message <= int_max_str_digits)%nat ->
         exists n, _extract_quantity message = Some n)
  /\ (forall message,
         (forall pattern, In pattern quantity_patterns ->
                          search true pattern message = None) ->
         _extract_quantity message = Some 1%Z).
Proof.
  split; [|split].
  - intros message n. apply quantity_from_at_least_one.
  - intros message Hlen. apply quantity_from_total; [|exact Hlen].
    intros p Hp. exact Hp.
  - intros message Hnone. unfold _extract_quantity.
    assert (H : forall ps, (forall p, In p ps -> In p quantity_patterns) ->
                           quantity_from ps message = Some 1%Z).
    { induction ps as [|p ps IH]; intro Hsub; simpl; [reflexivity|].
      rewrite (Hnone p (Hsub p (or_introl eq_refl))).
      apply IH. intros q Hq. apply Hsub. right. exact Hq. }
    apply H. intros p Hp. exact Hp.
Qed.

Lemma extract_quantity_at_least_one_witness :
  (1 <= 3)%Z /\ _extract_quantity "find me a nice mug" = Some 1%Z.
Proof.
  split.
  - apply (proj1 extract_quantity_at_least_one "please add 3 mugs" 3%Z).
    vm_compute. reflexivity.
  - apply (proj2 (proj2 extract_quantity_at_least_one) "find me a nice mug").
    intros pattern Hin. cbn [quantity_patterns In] in Hin.
    destruct Hin as [<- | [<- | [<- | []]]]; vm_compute; reflexivity.
Defined.

Lemma in_class_id_char (c : ascii) : in_class true id_char c = NoML.token_char c.
Proof. destruct c as [[] [] [] [] [] [] [] []]; reflexivity. Qed.

(** Every character of [s] is a letter, a digit, "_" or "-". *)
Fixpoint token (s : string) : bool :=
  match s with
  | EmptyString => true
  | String c s' => NoML.token_char c && token s'
  end.

Lemma class_all_id_char (s : string) : class_all true id_char s = token s.
Proof.
  induction s as [|c s IH]; simpl; [reflexivity|].
  rewrite in_class_id_char, IH. reflexivity.
Qed.

Lemma product_id_pattern_shape (pattern : regex) (s : string) (c : option string) :
  In pattern product_id_patterns -> sem true pattern s None c ->
  exists g, c = Some g /\ token g = true
            /\ (8 <= String.length g)%nat /\ (String.length g <= 15)%nat.
Proof.
  intros Hin H. unfold product_id_patterns in Hin. cbn [In] in Hin.
  destruct Hin as [<- | [<- | [<- | []]]];
    unfold spaces, cat_all in H; cbn [fold_right] in H; inv_sem;
      (eexists; split; [reflexivity|]; split;
       [rewrite <- class_all_id_char; assumption
       | split; [assumption
                | match goal with
                  | Hh : forall h, Some 15%nat = Some h -> _ |- _ =>
                      apply (Hh 15%nat eq_refl)
                  end]]).
Qed.

(** X2: a product id that [_extract_product_id] returns is a piece of the
    message, 8 to 15 characters long, made of letters, digits, "_" and
    "-" only. *)
Theorem extract_product_id_shape (message c : string) :
  _extract_product_id message = Some c ->
  (8 <= String.length c)%nat /\ (String.length c <= 15)%nat
  /\ token c = true
  /\ exists before after, message = (before ++ c ++ after)%string.
Proof.
  intro H. unfold _extract_product_id in H.
  destruct (first_valid_sound _ _ _ H) as [_ [pattern [m [Hin [Hs Hg]]]]].
  destruct (search_sound _ _ _ _ Hs) as [s0 [s1 [s2 [Hmsg Hsem]]]].
  destruct (product_id_pattern_shape _ _ _ Hin Hsem) as [g [Hg' [Ht [H8 H15]]]].
  rewrite Hg in Hg'. inversion Hg'; subst g.
  split; [exact H8|]. split; [exact H15|]. split; [exact Ht|].
  destruct (sem_group_inside _ _ _ _ _ Hsem) as [E | [g [pre [post [E Hs1]]]]].
  - rewrite Hg in E. discriminate.
  - rewrite Hg in E. inversion E; subst g.
    exists (s0 ++ pre)%string, (post ++ s2)%string.
    rewrite Hmsg, Hs1, !append_assoc. reflexivity.
Qed.

Lemma extract_product_id_shape_witness :
  (8 <= String.length "OLJCESPC7Z")%nat /\ (String.length "OLJCESPC7Z" <= 15)%nat
  /\ token "OLJCESPC7Z" = true
  /\ exists before after,
      "please add `OLJCESPC7Z` twice" = (before ++ "OLJCESPC7Z" ++ after)%string.
Proof.
  apply (extract_product_id_shape "please add `OLJCESPC7Z` twice" "OLJCESPC7Z").
  reflexivity.
Defined.

Lemma split_dot_digits (s : string) : digits s = true -> Num.split_dot s = (s, None).
Proof.
  induction s as [|c s IH]; intro Hd; simpl; [reflexivity|].
  simpl in Hd. apply andb_true_iff in Hd. destruct Hd as [Hc Hs].
  assert (E : Ascii.eqb c "." = false).
  { destruct (Ascii.eqb_spec c "."); [subst c; discriminate | reflexivity]. }
  rewrite E, (IH Hs). reflexivity.
Qed.

Lemma split_dot_fraction (whole frac : string) :
  digits whole = true -> Num.split_dot (whole ++ "." ++ frac) = (whole, Some frac).
Proof.
  induction whole as [|c s IH]; intro Hd; simpl; [reflexivity|].
  simpl in Hd. apply andb_true_iff in Hd. destruct Hd as [Hc Hs].
  assert (E : Ascii.eqb c "." = false).
  { destruct (Ascii.eqb_spec c "."); [subst c; discriminate | reflexivity]. }
  rewrite E. simpl in IH. rewrite (IH Hs). reflexivity.
Qed.

(** [float] succeeds on every amount that a budget pattern captures. *)
Lemma float_amount_text (text : string) :
  amount_text text -> exists v, Num.float text = Some v /\ 0 <= v.
Proof.
  intros [whole [Hd [Hne Hshape]]].
  destruct (digits_value_some whole Hd 0%Z (Z.le_refl 0)) as [n [Hn Hn0]].
  destruct Hshape as [-> | [frac [-> [Hf Hlen]]]].
  - unfold Num.float. rewrite (split_dot_digits _ Hd).
    destruct whole as [|c w]; [congruence|]. rewrite Hn.
    exists (inject_Z n). split; [reflexivity|].
    change 0 with (inject_Z 0). rewrite <- Zle_Qle. exact Hn0.
  - unfold Num.float. rewrite (split_dot_fraction _ _ Hd), Hn.
    destruct (digits_value_some frac Hf 0%Z (Z.le_refl 0)) as [m [Hm Hm0]].
    rewrite Hm, Hlen.
    assert (E : ((String.length whole + 2)%nat =? 0)%nat = false)
      by (apply Nat.eqb_neq; lia).
    rewrite E. eexists. split; [reflexivity|].
    rewrite Qred_correct.
    assert (H1 : 0 <= inject_Z n) by (change 0 with (inject_Z 0); rewrite <- Zle_Qle; exact Hn0).
    assert (H2 : 0 <= m # Pos.of_nat (10 ^ 2)) by (unfold Qle; simpl; lia).
    generalize dependent (inject_Z n). generalize dependent (m # Pos.of_nat (10 ^ 2)).
    intros. lra.
Qed.

(** The text that a budget pattern captures is a numeral that [float]
    reads. *)
Lemma captured_budget_float (message text : string) :
  first_capture budget_patterns message = Some text ->
  exists v, Num.float text = Some v /\ 0 <= v.
Proof.
  intro E.
  destruct (first_capture_sound _ _ _ E) as [pattern [m [Hin [Hs Hg]]]].
  destruct (search_sound _ _ _ _ Hs) as [s0 [s1 [s2 [_ Hsem]]]].
  destruct (budget_pattern_amount _ _ _ Hin Hsem) as [g [Hg' Ha]].
  rewrite Hg in Hg'. inversion Hg'; subst g.
  apply float_amount_text, Ha.
Qed.

Lemma extract_budget_nonneg (message : string) (v : Q) :
  _extract_budget message = Some v -> 0 <= v.
Proof.
  unfold _extract_budget.
  destruct (first_capture budget_patterns message) as [text|] eqn:E; [|discriminate].
  destruct (captured_budget_float _ _ E) as [v' [Hv Hv0]]. rewrite Hv.
  intro H. inversion H; subst v'. exact Hv0.
Qed.

(** X3: the conversion of a captured budget never fails and never gives
    a negative number: [_extract_budget] is [None] exactly when no budget
    pattern matches the message. *)
Theorem extract_budget_total (message : string) :
  (_extract_budget message = None <-> first_capture budget_patterns message = None)
  /\ (forall v, _extract_budget message = Some v -> 0 <= v).
Proof.
  split; [|apply extract_budget_nonneg].
  unfold _extract_budget.
  destruct (first_capture budget_patterns message) as [text|] eqn:E.
  - destruct (captured_budget_float _ _ E) as [v [Hv _]]. rewrite Hv.
    split; discriminate.
  - split; reflexivity.
Qed.

Lemma extract_budget_total_witness : 0 <= 617 # 50.
Proof.
  apply (proj2 (extract_budget_total "budget: $12.34 for a gift") (617 # 50)).
  reflexivity.
Defined.

End ExtractorFacts.

(** * Further properties of the code *)

(** ** Lists, sets of words and texts *)

Module ListFacts.
Import PyStr.






Lemma map_filter_NoDup {A B : Type} (f : A -> B) (keep : A -> bool) (l : list A) :
  NoDup (map f l) -> NoDup (map f (filter keep l)).
Proof.
  induction l as [|x l IH]; simpl; intro H; [constructor|].
  inversion H as [|? ? Hx Hl]; subst.
  destruct (keep x); simpl; [|apply IH, Hl].
  constructor; [|apply IH, Hl].
  intro Hin. apply Hx. apply in_map_iff in Hin. destruct Hin as [y [Ey Hy]].
  apply filter_In in Hy. apply in_map_iff. exists y. split; [exact Ey | apply Hy].
Qed.

Lemma find_split {A : Type} (f : A -> bool) (l : list A) (x : A) :
  find f l = Some x ->
  f x = true
  /\ exists before after,
       l = before ++ x :: after /\ forall y, In y before -> f y = false.
Proof.
  induction l as [|y l IH]; [discriminate|]. simpl.
  destruct (f y) eqn:Ey.
  - intro H. injection H as <-. split; [exact Ey|].
    exists [], l. split; [reflexivity | intros z []].
  - intro H. destruct (IH H) as [Hx [before [after [H1 H2]]]]. split; [exact Hx|].
    exists (y :: before), after. split; [rewrite H1; reflexivity|].
    intros z [<- | Hz]; [exact Ey | apply H2, Hz].
Qed.

Lemma append_nothing (s : string) : (s ++ EmptyString)%string = s.
Proof. induction s as [|c s IH]; [reflexivity|]. simpl. rewrite IH. reflexivity. Qed.

Lemma append_cancel (a x y : string) : (a ++ x = a ++ y)%string -> x = y.
Proof.
  induction a as [|c a IH]; simpl; intro H; [exact H|].
  injection H as H. apply IH, H.
Qed.

(** Distinct ids of a short concrete list. *)
Ltac ids_apart :=
  simpl; repeat (apply NoDup_cons; [simpl; intuition discriminate|]); apply NoDup_nil.

End ListFacts.

(** ** The threshold of the matchers *)

Module RankingFacts.
Import PyStr Data DataFacts.

Section Filtering.
Context {A : Type} (key : A -> Q) (keep : A -> bool).



End Filtering.


Section AnyScore.
Variable score : Product -> Q.





End AnyScore.


Definition sample_sunglasses : Product :=
  mkProduct "OLJCESPC7Z" "Sunglasses" "Add a modern touch to your outfits."
            (mkPrice 19 990000000) ["accessories"].

Definition sample_mug : Product :=
  mkProduct "6E92ZMYYFZ" "Mug" "A simple mug with a mustard interior."
            (mkPrice 8 990000000) ["kitchen"].

Definition sample_loafers : Product :=
  mkProduct "L9ECAV7KIM" "Loafers" "A neat addition to your summer wardrobe."
            (mkPrice 89 990000000) ["footwear"].

Definition sample_catalog : list Product :=
  [sample_sunglasses; sample_mug; sample_loafers].



End RankingFacts.

(** ** The embedding backend of the intent classifier *)

Module BackendFacts.
Import PyStr Data DataFacts SemanticSearchEngine.

Section Loop.
Variable sim : Intent -> Q.

Definition step (best : Intent * Q) (entry : Intent * list string) : Intent * Q :=
  let max_similarity := sim (fst entry) in
  if Qltb (snd best) max_similarity then (fst entry, max_similarity) else best.

(** What the loop of lines 386-393 has established after the entries
    [done]: either nothing was positive, or [best] is the first entry of
    the highest similarity. *)
Definition best_so_far (done : list Intent) (best : Intent * Q) : Prop :=
  (forall j, In j done -> sim j <= snd best)
  /\ (best = (search, 0)
      \/ 0 < snd best /\ snd best = sim (fst best)
         /\ exists pre post, done = pre ++ fst best :: post
                             /\ forall j, In j pre -> sim j < snd best).

Lemma step_best_so_far (done : list Intent) (best : Intent * Q)
      (entry : Intent * list string) :
  0 <= snd best -> best_so_far done best ->
  0 <= snd (step best entry) /\ best_so_far (done ++ [fst entry]) (step best entry).
Proof.
  intros H0 [Hall Hbest]. unfold step. cbv zeta.
  destruct (Qltb (snd best) (sim (fst entry))) eqn:E.
  - apply Qltb_true in E. cbn [fst snd]. split.
    + apply Qlt_le_weak. eapply Qle_lt_trans; eassumption.
    + split.
      * intros j Hj. apply in_app_iff in Hj. destruct Hj as [Hj | [<- | []]].
        -- apply Qlt_le_weak. eapply Qle_lt_trans; [apply Hall, Hj | exact E].
        -- apply Qle_refl.
      * right. split; [eapply Qle_lt_trans; eassumption|].
        split; [reflexivity|].
        exists done, []. split; [reflexivity|].
        intros j Hj. eapply Qle_lt_trans; [apply Hall, Hj | exact E].
  - apply Qltb_false in E. split; [exact H0|]. split.
    + intros j Hj. apply in_app_iff in Hj. destruct Hj as [Hj | [<- | []]].
      * apply Hall, Hj.
      * exact E.
    + destruct Hbest as [Hs | [Hpos [Heq [pre [post [Hd Hpre]]]]]]; [left; exact Hs|].
      right. split; [exact Hpos|]. split; [exact Heq|].
      exists pre, (post ++ [fst entry]). split; [|exact Hpre].
      rewrite Hd, <- app_assoc. reflexivity.
Qed.

Lemma loop_best_so_far (entries : list (Intent * list string)) (done : list Intent)
      (best : Intent * Q) :
  0 <= snd best -> best_so_far done best ->
  best_so_far (done ++ map fst entries) (fold_left step entries best).
Proof.
  revert done best. induction entries as [|entry entries IH]; intros done best H0 H.
  - simpl. rewrite app_nil_r. exact H.
  - cbn [fold_left map].
    destruct (step_best_so_far done best entry H0 H) as [H0' H'].
    replace (done ++ fst entry :: map fst entries)
      with ((done ++ [fst entry]) ++ map fst entries)
      by (rewrite <- app_assoc; reflexivity).
    apply IH; assumption.
Qed.

Lemma best_intent_spec :
  best_so_far (map fst intent_patterns) (best_intent sim).
Proof.
  apply (loop_best_so_far intent_patterns [] (search, 0)).
  - apply Qle_refl.
  - split; [intros j []|]. left. reflexivity.
Qed.
End Loop.

Lemma every_intent_listed (j : Intent) : In j (map fst intent_patterns).
Proof. destruct j; simpl; auto 6. Qed.

(** X6: the backend path of [classify_intent].  When no phrase of the rule
    table occurs in the text and a backend is loaded, the result is the
    first intent, in the order of the table, of the highest similarity,
    provided that similarity exceeds 0.3; it is [search] when no
    similarity exceeds 0.3 and when the backend raises. *)
Theorem classify_intent_backend (encode : Model) (text : string) :
  find (fun entry => any_pattern (lower text) (snd entry)) intent_patterns = None ->
  (encode text = None -> classify_intent (Some encode) text = search)
  /\ forall sim, encode text = Some sim ->
       let intent := classify_intent (Some encode) text in
       (forall j, sim j <= 3 # 10) /\ intent = search
       \/ 3 # 10 < sim intent
          /\ (forall j, sim j <= sim intent)
          /\ exists pre post,
               map fst intent_patterns = pre ++ intent :: post
               /\ forall j, In j pre -> sim j < sim intent.
Proof.
  intro Hnone. unfold classify_intent. rewrite Hnone. split.
  - intros ->. reflexivity.
  - intros sim ->. cbv zeta.
    pose proof (best_intent_spec sim) as [Hall Hbest].
    destruct (best_intent sim) as [intent best_score] eqn:Eb. cbn [fst snd] in *.
    destruct (Qltb (3 # 10) best_score) eqn:E.
    + apply Qltb_true in E. right.
      destruct Hbest as [Hs | [Hpos [Heq [pre [post [Hd Hpre]]]]]].
      * injection Hs as _ Hs. rewrite Hs in E. discriminate E.
      * rewrite <- Heq. split; [exact E|]. split.
        -- intro j. apply Hall, every_intent_listed.
        -- exists pre, post. split; assumption.
    + apply Qltb_false in E. left. split; [|reflexivity].
      intro j. eapply Qle_trans; [apply Hall, every_intent_listed | exact E].
Qed.

Definition sample_backend : Model :=
  fun _ => Some (fun intent => match intent with
                               | recommendations => 6 # 10
                               | help => 6 # 10
                               | _ => 2 # 10
                               end).

Lemma classify_intent_backend_witness :
  (sample_backend "xyz nonsense" = None ->
   classify_intent (Some sample_backend) "xyz nonsense" = search)
  /\ forall sim, sample_backend "xyz nonsense" = Some sim ->
       let intent := classify_intent (Some sample_backend) "xyz nonsense" in
       (forall j, sim j <= 3 # 10) /\ intent = search
       \/ 3 # 10 < sim intent
          /\ (forall j, sim j <= sim intent)
          /\ exists pre post,
               map fst intent_patterns = pre ++ intent :: post
               /\ forall j, In j pre -> sim j < sim intent.
Proof.
  apply (classify_intent_backend sample_backend "xyz nonsense"). reflexivity.
Defined.

End BackendFacts.

(** ** Phrases that other phrases decide *)

Module PhraseFacts.
Import PyStr SemanticSearchEngine AgentOps.

Lemma prefix_shorter (p x s : string) :
  String.prefix (p ++ x) s = true -> String.prefix p s = true.
Proof.
  revert s. induction p as [|a p IH]; intros s H; [destruct s; reflexivity|].
  destruct s as [|b s]; [discriminate H|]. simpl in *.
  destruct (ascii_dec a b); [apply IH, H | discriminate H].
Qed.

(** A text that holds a phrase holds every beginning of the phrase. *)
Lemma contains_shorter (p x s : string) :
  contains (p ++ x) s = true -> contains p s = true.
Proof.
  induction s as [|c s IH]; cbn [contains]; intro H.
  - rewrite orb_false_r in *. apply (prefix_shorter p x), H.
  - apply orb_true_iff in H. apply orb_true_iff. destruct H as [H | H].
    + left. apply (prefix_shorter p x), H.
    + right. apply IH, H.
Qed.

Lemma contains_longer (p x s : string) :
  contains p s = false -> contains (p ++ x) s = false.
Proof.
  intro H. destruct (contains (p ++ x) s) eqn:E; [|reflexivity].
  apply contains_shorter in E. congruence.
Qed.

(** A text that holds a phrase holds every end of the phrase. *)
Lemma contains_tail (a : ascii) (p s : string) :
  contains (String a p) s = true -> contains p s = true.
Proof.
  induction s as [|c s IH]; cbn [contains]; intro H.
  - rewrite orb_false_r in H. discriminate H.
  - apply orb_true_iff in H. destruct H as [H | H].
    + cbn [String.prefix] in H. destruct (ascii_dec a c); [|discriminate H].
      apply orb_true_iff. right.
      destruct s as [|d s']; cbn [contains]; rewrite H; reflexivity.
    + apply orb_true_iff. right. apply IH, H.
Qed.

Lemma contains_end (x p s : string) :
  contains (x ++ p) s = true -> contains p s = true.
Proof.
  induction x as [|a x IH]; [trivial|]. cbn [String.append]. intro H.
  apply IH, (contains_tail a), H.
Qed.

(** X26: [_is_add_all_command] is decided by six of its eleven phrases:
    the five that begin with "add all " add nothing to "add all". *)
Theorem add_all_command_phrases (message : string) :
  _is_add_all_command message
  = existsb (fun pattern => contains pattern (lower message))
            ["add all"; "add everything"; "buy all"; "purchase all"; "get all"; "take all"].
Proof.
  unfold _is_add_all_command. cbn [existsb].
  destruct (contains "add all" (lower message)) eqn:E; [reflexivity|].
  pose proof (contains_longer "add all" " products" _ E) as H1.
  pose proof (contains_longer "add all" " items" _ E) as H2.
  pose proof (contains_longer "add all" " to cart" _ E) as H3.
  pose proof (contains_longer "add all" " products to cart" _ E) as H4.
  pose proof (contains_longer "add all" " items to cart" _ E) as H5.
  cbn [String.append] in H1, H2, H3, H4, H5.
  rewrite H1, H2, H3, H4, H5. reflexivity.
Qed.

Ltac next_rule E :=
  match goal with
  | |- context [if any_pattern ?t ?l then _ else _] => destruct (any_pattern t l) eqn:E
  end.

(** X27: the word "cart" hides the intent [cart_add].  The phrases of
    [cart_view] are tested before those of [cart_add] and "cart" is one of
    them, so a text with "cart" in it is classified as [search] or
    [cart_view], with or without a backend: "add to cart" and "put in
    cart" never decide, and a text classified as [cart_add] has no "cart"
    in it. *)
Theorem cart_hides_cart_add (model : option Model) (text : string) :
  (contains "cart" (lower text) = true ->
   classify_intent model text = search \/ classify_intent model text = cart_view)
  /\ (classify_intent model text = cart_add -> contains "cart" (lower text) = false)
  /\ (classify_intent None text = cart_add ->
      existsb (fun pattern => contains pattern (lower text))
              ["buy"; "purchase"; "get this"; "i'll take"; "add this"] = true).
Proof.
  assert (Hcart : contains "cart" (lower text) = true ->
                  classify_intent model text = search
                  \/ classify_intent model text = cart_view).
  { intro H. unfold classify_intent, intent_patterns. cbn [find snd].
    next_rule Es; [left; reflexivity|].
    unfold any_pattern. cbn [existsb]. rewrite H. right. reflexivity. }
  split; [exact Hcart|]. split.
  - intro H. destruct (contains "cart" (lower text)) eqn:E; [|reflexivity].
    destruct (Hcart eq_refl) as [H' | H']; rewrite H' in H; discriminate H.
  - unfold classify_intent, intent_patterns. cbn [find snd].
    next_rule Es; [discriminate|].
    next_rule Ev; [discriminate|].
    next_rule Ea.
    + intros _. unfold any_pattern in Ev, Ea. cbn [existsb] in Ev, Ea.
      apply orb_false_iff in Ev. destruct Ev as [Ecart _].
      assert (H1 : contains "add to cart" (lower text) = false).
      { destruct (contains "add to cart" (lower text)) eqn:E; [|reflexivity].
        apply (contains_end "add to ") in E. congruence. }
      assert (H2 : contains "put in cart" (lower text) = false).
      { destruct (contains "put in cart" (lower text)) eqn:E; [|reflexivity].
        apply (contains_end "put in ") in E. congruence. }
      rewrite H1, H2 in Ea. cbn [existsb].
      destruct (contains "buy" (lower text)) eqn:Eb; [reflexivity|].
      pose proof (contains_longer "buy" " this" _ Eb) as H3.
      cbn [String.append] in H3. rewrite H3 in Ea.
      cbn [orb] in *. rewrite !orb_false_r in Ea. rewrite !orb_false_r. exact Ea.
    + next_rule Er; [discriminate|].
      next_rule Eh; discriminate.
Qed.

Lemma cart_hides_cart_add_witness :
  classify_intent None "please add this to my cart" = search
  \/ classify_intent None "please add this to my cart" = cart_view.
Proof.
  apply (proj1 (cart_hides_cart_add None "please add this to my cart")). reflexivity.
Defined.

End PhraseFacts.

(** ** mcp-server/server.py: the search and recommendation endpoints *)

Module ServerFacts.
Import PyStr Data DataFacts ListFacts RankingFacts ServerOps.







End ServerFacts.

(** ** mcp-server/server.py: the cart endpoints *)

Module CartEndpointFacts.
Import PyStr Data ListFacts ServerOps.

Lemma in_cart (product_id' : string) (items : list CartItem) :
  existsb (fun item => String.eqb (product_id item) product_id') items = true
  <-> In product_id' (map product_id items).
Proof.
  rewrite existsb_exists, in_map_iff. split; intros [x [H1 H2]]; exists x.
  - apply String.eqb_eq in H2. auto.
  - split; [exact H2 | apply String.eqb_eq, H1].
Qed.

(** The six texts that [get_user_friendly_error_message] has for a
    failure of a cart operation. *)
Definition cart_failure_messages : list string :=
  [ "The requested product is not available or may have been discontinued.";
    "The request is taking too long. Please try again.";
    "Our services are temporarily unavailable. Please try again in a moment.";
    "There was an issue with the request. Please check your input and try again.";
    "Access denied. Please check your permissions.";
    "Unable to update your cart right now. Please try again." ].

Lemma friendly_message (e : string) :
  In (Cart.get_user_friendly_error_message e "cart") cart_failure_messages.
Proof.
  unfold Cart.get_user_friendly_error_message, cart_failure_messages. cbv zeta.
  repeat match goal with
         | |- context [if ?b || ?c then _ else _] => destruct (b || c)
         end;
    cbn [String.eqb Ascii.eqb Bool.eqb]; simpl; auto 10.
Qed.

Section AnyService.
Variable Store : Type.
Variable GetCart : string -> Store -> list CartItem + string.
Variable EmptyCart : string -> Store -> Store + string.
Variable AddItem : string -> CartItem -> Store -> Store + string.

Abbreviation re_add := (re_add Store AddItem).
Abbreviation remove_item_from_cart := (remove_item_from_cart Store GetCart EmptyCart AddItem).

(** The calls of the loop that adds the lines again: one per line, in
    the order of the cart, up to the first failure. *)
Lemma re_add_calls (user_id : string) (items : list CartItem) (s : State Store) :
  let (failure, s') := re_add user_id items s in
  exists sent, calls s' = calls s ++ map (RpcAddItem user_id) sent
               /\ match failure with
                  | None => sent = items
                  | Some e =>
                      exists before item rest,
                        items = before ++ item :: rest
                        /\ sent = before ++ [item]
                        /\ exists s0, store s' = s0 /\ AddItem user_id item s0 = inr e
                  end.
Proof.
  revert s. induction items as [|item rest IH]; intro s; cbn [ServerOps.re_add].
  - exists []. split; [simpl; rewrite app_nil_r; reflexivity | reflexivity].
  - cbv zeta. cbn [called store calls].
    destruct (AddItem user_id item (store s)) as [store' | e] eqn:Ea.
    + specialize (IH (mkState store' (calls s ++ [RpcAddItem user_id item]))).
      destruct (re_add user_id rest _) as [failure s'].
      destruct IH as [sent [Hc Hf]]. cbn [calls] in Hc.
      exists (item :: sent). split.
      * rewrite Hc, <- app_assoc. reflexivity.
      * destruct failure as [e|]; [|subst; reflexivity].
        destruct Hf as [before [it [rest' [H1 [H2 H3]]]]].
        exists (item :: before), it, rest'. subst. repeat split. exact H3.
    + exists [item]. split; [reflexivity|].
      exists [], item, rest. repeat split. exists (store s). split; [reflexivity | exact Ea].
Qed.

Section Lawful.
(** A cart service that does what its calls say, for the carts the
    endpoint meets: an emptied cart has no line, and adding a product
    that the cart does not hold appends its line. *)
Definition lawful : Prop :=
  (forall user_id st st',
      EmptyCart user_id st = inl st' -> GetCart user_id st' = inl [])
  /\ (forall user_id item st st' items,
         AddItem user_id item st = inl st' ->
         GetCart user_id st = inl items ->
         ~ In (product_id item) (map product_id items) ->
         GetCart user_id st' = inl (items ++ [item])).

Hypothesis laws : lawful.

(** The cart after the loop that adds the lines again: the lines held
    before it and the lines added up to the first failure. *)
Lemma re_add_lawful (user_id : string) (rest held : list CartItem) (s s' : State Store)
      (failure : option string) :
  GetCart user_id (store s) = inl held ->
  NoDup (map product_id (held ++ rest)) ->
  re_add user_id rest s = (failure, s') ->
  match failure with
  | None => GetCart user_id (store s') = inl (held ++ rest)
  | Some _ =>
      exists added item lost,
        rest = added ++ item :: lost /\ GetCart user_id (store s') = inl (held ++ added)
  end.
Proof.
  destruct laws as [_ AddItem_appends].
  revert held s. induction rest as [|item rest IH]; intros held s Hg Hn Hr;
    cbn [ServerOps.re_add] in Hr.
  - injection Hr as <- <-. rewrite app_nil_r. exact Hg.
  - cbv zeta in Hr. cbn [called store calls] in Hr.
    destruct (AddItem user_id item (store s)) as [store' | e] eqn:Ea.
    + replace (held ++ item :: rest) with ((held ++ [item]) ++ rest) in *
        by (rewrite <- app_assoc; reflexivity).
      assert (Hg' : GetCart user_id store' = inl (held ++ [item])).
      { apply (AddItem_appends user_id item (store s)); [exact Ea | exact Hg |].
        rewrite map_app in Hn. apply NoDup_app_remove_r in Hn.
        rewrite map_app in Hn. simpl in Hn.
        apply NoDup_remove_2 in Hn. rewrite app_nil_r in Hn. exact Hn. }
      pose proof (IH (held ++ [item]) (mkState store' _) Hg' Hn Hr) as H.
      destruct failure as [e|]; [|exact H].
      destruct H as [added [it [lost [H1 H2]]]].
      exists (item :: added), it, lost. split.
      * rewrite H1. reflexivity.
      * rewrite H2, <- app_assoc. reflexivity.
    + injection Hr as <- <-. exists [], item, rest. split.
      * reflexivity.
      * cbn [store]. rewrite app_nil_r. exact Hg.
Qed.
End Lawful.
End AnyService.

Arguments lawful {Store}.

(** X9: /remove_item_from_cart is read-only when there is nothing to
    remove.  With a blank user id or product id, a failing GetCart, or a
    cart without the product, the answer is an error, the state of the cart
    service is as before, and the only call that may have been made is
    GetCart: the cart is not emptied. *)
Theorem remove_without_item_is_read_only
        (Store : Type)
        (GetCart : string -> Store -> list CartItem + string)
        (EmptyCart : string -> Store -> Store + string)
        (AddItem : string -> CartItem -> Store -> Store + string)
        (user_id product_id' : string) (s : State Store) :
  Cart.blank user_id = true \/ Cart.blank product_id' = true
  \/ (exists e, GetCart user_id (store s) = inr e)
  \/ (exists items, GetCart user_id (store s) = inl items
                    /\ ~ In product_id' (map product_id items)) ->
  exists msg s',
    remove_item_from_cart Store GetCart EmptyCart AddItem user_id product_id' s
    = (Cart.error msg, s')
    /\ store s' = store s
    /\ (calls s' = calls s \/ calls s' = calls s ++ [RpcGetCart user_id]).
Proof.
  intro H. unfold remove_item_from_cart.
  destruct (Cart.blank user_id) eqn:Eu; [eexists; eexists; split; [reflexivity | auto]|].
  destruct (Cart.blank product_id') eqn:Ep; [eexists; eexists; split; [reflexivity | auto]|].
  cbv zeta. cbn [called store calls].
  destruct (GetCart user_id (store s)) as [items | e] eqn:Eg;
    [|eexists; eexists; split; [reflexivity | auto]].
  destruct (existsb _ items) eqn:Ex; [|eexists; eexists; split; [reflexivity | auto]].
  exfalso. destruct H as [H | [H | [[e H] | [items' [H Hn]]]]]; try discriminate.
  injection H as <-. apply Hn, in_cart, Ex.
Qed.

(** A cart service for one user that keeps the lines in a list. *)
Definition list_GetCart (_ : string) (st : list CartItem) : list CartItem + string := inl st.
Definition list_EmptyCart (_ : string) (_ : list CartItem) : list CartItem + string := inl [].
Definition list_AddItem (_ : string) (item : CartItem) (st : list CartItem)
  : list CartItem + string := inl (st ++ [item]).

(** The same service when its AddItem is down. *)
Definition down_AddItem (_ : string) (_ : CartItem) (_ : list CartItem)
  : list CartItem + string := inr "connection refused".

Definition sample_cart : State (list CartItem) :=
  mkState [mkCartItem "OLJCESPC7Z" 2; mkCartItem "6E92ZMYYFZ" 1; mkCartItem "L9ECAV7KIM" 3] [].

(** Removing the mug from the sample cart, with the service up and with
    its AddItem down. *)
Definition sample_removal : Cart.Result * State (list CartItem) :=
  remove_item_from_cart _ list_GetCart list_EmptyCart list_AddItem
                        "user" "6E92ZMYYFZ" sample_cart.

Definition sample_failed_removal : Cart.Result * State (list CartItem) :=
  remove_item_from_cart _ list_GetCart list_EmptyCart down_AddItem
                        "user" "6E92ZMYYFZ" sample_cart.

Lemma list_service_lawful : lawful list_GetCart list_EmptyCart list_AddItem.
Proof.
  split.
  - intros user_id st st' H. injection H as <-. reflexivity.
  - intros user_id item st st' items H1 H2 _.
    injection H1 as <-. injection H2 as <-. reflexivity.
Qed.

Lemma down_service_lawful : lawful list_GetCart list_EmptyCart down_AddItem.
Proof.
  split.
  - intros user_id st st' H. injection H as <-. reflexivity.
  - intros user_id item st st' items H1. discriminate H1.
Qed.

Lemma remove_without_item_is_read_only_witness :
  exists msg s',
    remove_item_from_cart _ list_GetCart list_EmptyCart list_AddItem "user" "0PUK6V6EV0"
                          sample_cart
    = (Cart.error msg, s')
    /\ store s' = store sample_cart
    /\ (calls s' = calls sample_cart \/ calls s' = calls sample_cart ++ [RpcGetCart "user"]).
Proof.
  apply (remove_without_item_is_read_only _ list_GetCart list_EmptyCart list_AddItem
           "user" "0PUK6V6EV0" sample_cart).
  right. right. right. exists (store sample_cart). split; [reflexivity|].
  simpl. intuition discriminate.
Defined.

(** X10: the calls of a successful /remove_item_from_cart, for any cart
    service.  The cart was read and held the product; it was emptied; and
    every other line was added again, one AddItem per line with the
    quantity it had, in the order of the cart.  No other call was made. *)
Theorem remove_success_calls
        (Store : Type)
        (GetCart : string -> Store -> list CartItem + string)
        (EmptyCart : string -> Store -> Store + string)
        (AddItem : string -> CartItem -> Store -> Store + string)
        (user_id product_id' : string) (s s' : State Store) (result : Cart.Result) :
  remove_item_from_cart Store GetCart EmptyCart AddItem user_id product_id' s
  = (result, s') ->
  Cart.status result = "success" ->
  exists items,
    GetCart user_id (store s) = inl items
    /\ In product_id' (map product_id items)
    /\ calls s' = calls s ++ RpcGetCart user_id :: RpcEmptyCart user_id
                          :: map (RpcAddItem user_id) (other_items product_id' items)
    /\ Cart.message result = ("Removed " ++ product_id' ++ " from cart")%string.
Proof.
  unfold remove_item_from_cart. intros H Hs.
  destruct (Cart.blank user_id); [injection H as <- _; discriminate Hs|].
  destruct (Cart.blank product_id'); [injection H as <- _; discriminate Hs|].
  cbv zeta in H. cbn [called store calls] in H.
  destruct (GetCart user_id (store s)) as [items | e] eqn:Eg;
    [|injection H as <- _; discriminate Hs].
  destruct (existsb _ items) eqn:Ex; cbn [negb] in H;
    [|injection H as <- _; discriminate Hs].
  destruct (EmptyCart user_id (store s)) as [store' | e] eqn:Ee;
    [|injection H as <- _; discriminate Hs].
  pose proof (re_add_calls Store AddItem user_id (other_items product_id' items)
                (mkState store' ((calls s ++ [RpcGetCart user_id]) ++ [RpcEmptyCart user_id])))
    as Hc.
  destruct (re_add Store AddItem user_id _ _) as [[e|] s3];
    injection H as <- <-; [discriminate Hs|].
  destruct Hc as [sent [Hc ->]]. cbn [calls] in Hc.
  exists items. split; [reflexivity|]. split; [apply in_cart, Ex|]. split; [|reflexivity].
  rewrite Hc, <- !app_assoc. reflexivity.
Qed.

Lemma remove_success_calls_witness :
  exists items,
    list_GetCart "user" (store sample_cart) = inl items
    /\ In "6E92ZMYYFZ" (map product_id items)
    /\ calls (snd sample_removal)
       = calls sample_cart ++ RpcGetCart "user" :: RpcEmptyCart "user"
                           :: map (RpcAddItem "user") (other_items "6E92ZMYYFZ" items)
    /\ Cart.message (fst sample_removal) = "Removed 6E92ZMYYFZ from cart".
Proof.
  apply (remove_success_calls _ list_GetCart list_EmptyCart list_AddItem
           "user" "6E92ZMYYFZ" sample_cart (snd sample_removal) (fst sample_removal));
    reflexivity.
Defined.

(** X11: with a cart service that does what its calls say (an emptied
    cart has no line, adding a product that the cart does not hold
    appends its line) and a cart that holds every product once, a
    successful /remove_item_from_cart leaves exactly the other lines, in
    their order and with their quantities. *)
Theorem remove_success_cart
        (Store : Type)
        (GetCart : string -> Store -> list CartItem + string)
        (EmptyCart : string -> Store -> Store + string)
        (AddItem : string -> CartItem -> Store -> Store + string)
        (user_id product_id' : string) (s s' : State Store) (result : Cart.Result)
        (items : list CartItem) :
  lawful GetCart EmptyCart AddItem ->
  GetCart user_id (store s) = inl items ->
  NoDup (map product_id items) ->
  remove_item_from_cart Store GetCart EmptyCart AddItem user_id product_id' s
  = (result, s') ->
  Cart.status result = "success" ->
  GetCart user_id (store s') = inl (other_items product_id' items)
  /\ ~ In product_id' (map product_id (other_items product_id' items)).
Proof.
  intros Hlaw Hg Hn H Hs. split.
  - unfold remove_item_from_cart in H.
    destruct (Cart.blank user_id); [injection H as <- _; discriminate Hs|].
    destruct (Cart.blank product_id'); [injection H as <- _; discriminate Hs|].
    cbv zeta in H. cbn [called store calls] in H. rewrite Hg in H.
    destruct (existsb _ items) eqn:Ex; cbn [negb] in H;
      [|injection H as <- _; discriminate Hs].
    destruct (EmptyCart user_id (store s)) as [store' | e] eqn:Ee;
      [|injection H as <- _; discriminate Hs].
    destruct (re_add Store AddItem user_id _ _) as [[e|] s3] eqn:Er;
      injection H as <- <-; [discriminate Hs|].
    apply (re_add_lawful Store GetCart EmptyCart AddItem Hlaw user_id _ [] _ _ None) in Er.
    + exact Er.
    + cbn [store]. apply (proj1 Hlaw user_id (store s)), Ee.
    + simpl. apply map_filter_NoDup, Hn.
  - intro Hin. apply in_map_iff in Hin. destruct Hin as [x [Ex Hx]].
    apply filter_In in Hx. destruct Hx as [_ Hx]. apply negb_true_iff in Hx.
    apply String.eqb_neq in Hx. contradiction.
Qed.

Lemma remove_success_cart_witness :
  list_GetCart "user" (store (snd sample_removal))
  = inl (other_items "6E92ZMYYFZ" (store sample_cart))
  /\ ~ In "6E92ZMYYFZ" (map product_id (other_items "6E92ZMYYFZ" (store sample_cart))).
Proof.
  apply (remove_success_cart _ list_GetCart list_EmptyCart list_AddItem
           "user" "6E92ZMYYFZ" sample_cart (snd sample_removal) (fst sample_removal)
           (store sample_cart) list_service_lawful).
  - reflexivity.
  - ids_apart.
  - reflexivity.
  - reflexivity.
Defined.

(** X12: /remove_item_from_cart does not roll back.  With the same cart
    service and cart, when the answer is an error although the cart held
    the product and was emptied, the cart afterwards holds only the lines
    that were added again before the failure: the line to remove and at
    least one other line are gone. *)
Theorem remove_failure_loses_lines
        (Store : Type)
        (GetCart : string -> Store -> list CartItem + string)
        (EmptyCart : string -> Store -> Store + string)
        (AddItem : string -> CartItem -> Store -> Store + string)
        (user_id product_id' : string) (s s' : State Store) (result : Cart.Result)
        (items : list CartItem) (emptied : Store) :
  lawful GetCart EmptyCart AddItem ->
  GetCart user_id (store s) = inl items ->
  NoDup (map product_id items) ->
  In product_id' (map product_id items) ->
  EmptyCart user_id (store s) = inl emptied ->
  remove_item_from_cart Store GetCart EmptyCart AddItem user_id product_id' s
  = (result, s') ->
  Cart.status result = "error" ->
  Cart.blank user_id = false -> Cart.blank product_id' = false ->
  exists added item lost,
    other_items product_id' items = added ++ item :: lost
    /\ GetCart user_id (store s') = inl added
    /\ In (Cart.message result) cart_failure_messages.
Proof.
  intros Hlaw Hg Hn Hin He H Hs Hu Hp.
  unfold remove_item_from_cart in H. rewrite Hu, Hp in H.
  cbv zeta in H. cbn [called store calls] in H. rewrite Hg in H.
  apply in_cart in Hin. rewrite Hin in H. cbn [negb] in H. rewrite He in H.
  destruct (re_add Store AddItem user_id _ _) as [[e|] s3] eqn:Er;
    injection H as <- <-; [|discriminate Hs].
  apply (re_add_lawful Store GetCart EmptyCart AddItem Hlaw user_id _ [] _ _ (Some e)) in Er.
  - destruct Er as [added [item [lost [H1 H2]]]].
    exists added, item, lost. split; [exact H1|]. split; [exact H2|].
    apply friendly_message.
  - cbn [store]. apply (proj1 Hlaw user_id (store s)), He.
  - simpl. apply map_filter_NoDup, Hn.
Qed.

Lemma remove_failure_loses_lines_witness :
  exists added item lost,
    other_items "6E92ZMYYFZ" (store sample_cart) = added ++ item :: lost
    /\ list_GetCart "user" (store (snd sample_failed_removal)) = inl added
    /\ In (Cart.message (fst sample_failed_removal)) cart_failure_messages.
Proof.
  apply (remove_failure_loses_lines _ list_GetCart list_EmptyCart down_AddItem
           "user" "6E92ZMYYFZ" sample_cart
           (snd sample_failed_removal) (fst sample_failed_removal)
           (store sample_cart) [] down_service_lawful).
  - reflexivity.
  - ids_apart.
  - simpl. auto.
  - reflexivity.
  - reflexivity.
  - reflexivity.
  - reflexivity.
  - reflexivity.
Defined.

(** X13: the cart endpoints never pass on the text of a failure of the
    cart service.  The message of every error answer of /add_item_to_cart,
    /get_cart_contents, /empty_cart and /remove_item_from_cart is the text
    of a failed check, [Product ... not found in cart], or one of six
    fixed texts, whatever the service raised. *)
Theorem cart_errors_have_fixed_text
        (Store : Type)
        (GetCart : string -> Store -> list CartItem + string)
        (EmptyCart : string -> Store -> Store + string)
        (AddItem : string -> CartItem -> Store -> Store + string)
        (user_id product_id' : string) (quantity' : Z) (s : State Store) :
  let fixed answer extra :=
    Cart.status answer = "success"
    \/ Cart.status answer = "error"
       /\ In (Cart.message answer) (extra ++ cart_failure_messages) in
  fixed (fst (Cart.add_item_to_cart Store
                (fun u p q => AddItem u (mkCartItem p q))
                user_id product_id' quantity' (Cart.mkWorld (store s) [])))
        ["User ID is required"; "Product ID is required"; "Quantity must be greater than 0"]
  /\ fixed (fst (fst (get_cart_contents Store GetCart user_id s))) []
  /\ fixed (fst (empty_cart Store EmptyCart user_id s)) []
  /\ fixed (fst (remove_item_from_cart Store GetCart EmptyCart AddItem user_id product_id' s))
           ["User ID is required"; "Product ID is required";
            ("Product " ++ product_id' ++ " not found in cart")%string].
Proof.
  cbv zeta. pose proof friendly_message as Hf.
  assert (Hin : forall extra e,
             In (Cart.message (friendly e)) (extra ++ cart_failure_messages)).
  { intros extra e. apply in_app_iff. right. apply Hf. }
  repeat apply conj.
  - unfold Cart.add_item_to_cart.
    destruct (Cart.blank user_id); [right; split; [reflexivity | simpl; auto]|].
    destruct (Cart.blank product_id'); [right; split; [reflexivity | simpl; auto]|].
    destruct (quantity' <=? 0)%Z; [right; split; [reflexivity | simpl; auto]|].
    cbv zeta. destruct (AddItem _ _ _); [left; reflexivity|].
    right. split; [reflexivity | apply (Hin _ s0)].
  - unfold get_cart_contents. cbv zeta.
    destruct (GetCart _ _); [left; reflexivity | right; split; [reflexivity | apply Hin]].
  - unfold empty_cart. cbv zeta.
    destruct (EmptyCart _ _); [left; reflexivity | right; split; [reflexivity | apply Hin]].
  - unfold remove_item_from_cart.
    destruct (Cart.blank user_id); [right; split; [reflexivity | simpl; auto]|].
    destruct (Cart.blank product_id'); [right; split; [reflexivity | simpl; auto]|].
    cbv zeta.
    destruct (GetCart _ _); [|right; split; [reflexivity | apply Hin]].
    destruct (negb _); [right; split; [reflexivity | simpl; auto]|].
    destruct (EmptyCart _ _); [|right; split; [reflexivity | apply Hin]].
    destruct (re_add _ _ _ _ _) as [[e|] s3];
      [right; split; [reflexivity | apply Hin] | left; reflexivity].
Qed.

End CartEndpointFacts.

(** ** adk-agents/concierge_coordinator.py: choosing products *)

Module ChoiceFacts.
Import PyStr Data DataFacts ListFacts AgentOps.

(** X14: [_find_best_product_match] answers [None] only for an empty
    list.  For a list that is not empty it returns one of its products:
    the first one that the message names, and the first product of the
    list when it names none.  So the branch of [_handle_cart_addition] that
    shows options instead (lines 834-844), taken when the answer is [None]
    for search results that are not empty, is never taken. *)
Theorem find_best_product_match_total (message : string) (products : list Product) :
  (_find_best_product_match message products = None <-> products = [])
  /\ forall best, _find_best_product_match message products = Some best ->
       exists before after,
         products = before ++ best :: after
         /\ (forall p, In p before -> names_product (lower message) p = false)
         /\ (names_product (lower message) best = true
             \/ before = []
                /\ forall p, In p after -> names_product (lower message) p = false).
Proof.
  unfold _find_best_product_match.
  destruct (find (names_product (lower message)) products) as [found|] eqn:Ef.
  - split.
    + split; [discriminate|]. intros ->. discriminate Ef.
    + intros best Hb. injection Hb as <-.
      destruct (find_split _ _ _ Ef) as [Hx [before [after [H1 H2]]]].
      exists before, after. split; [exact H1|]. split; [exact H2|]. left. exact Hx.
  - destruct products as [|p l]; simpl.
    + split; [split; reflexivity|]. discriminate.
    + split; [split; discriminate|].
      intros best Hb. injection Hb as <-. exists [], l.
      split; [reflexivity|]. split; [intros q []|]. right. split; [reflexivity|].
      intros q Hq. apply (find_none _ _ Ef). right. exact Hq.
Qed.

Lemma find_best_product_match_total_witness :
  exists before after,
    RankingFacts.sample_catalog = before ++ RankingFacts.sample_loafers :: after
    /\ (forall p, In p before -> names_product (lower "Add the LOAFERS please") p = false)
    /\ (names_product (lower "Add the LOAFERS please") RankingFacts.sample_loafers = true
        \/ before = []
           /\ forall p, In p after ->
                names_product (lower "Add the LOAFERS please") p = false).
Proof.
  apply (proj2 (find_best_product_match_total "Add the LOAFERS please"
                  RankingFacts.sample_catalog)).
  reflexivity.
Defined.

Section ByName.
Variable words : list string.

Definition name_step (best : option Product * Q) (product : Product) : option Product * Q :=
  let score := name_score words product in
  if Qltb (snd best) score && Qltb (3 # 10) score then (Some product, score) else best.

(** What the loop of lines 1338-1356 has established after the products
    [done]. *)
Definition best_named_so_far (done : list Product) (best : option Product * Q) : Prop :=
  match fst best with
  | None => snd best = 0 /\ forall p, In p done -> name_score words p <= 3 # 10
  | Some chosen =>
      snd best = name_score words chosen
      /\ 3 # 10 < snd best
      /\ exists before after,
           done = before ++ chosen :: after
           /\ (forall p, In p before -> name_score words p < snd best)
           /\ (forall p, In p after -> name_score words p <= snd best)
  end.

Lemma name_step_best (done : list Product) (best : option Product * Q) (product : Product) :
  best_named_so_far done best -> best_named_so_far (done ++ [product]) (name_step best product).
Proof.
  unfold best_named_so_far, name_step. cbv zeta. destruct best as [[chosen|] s]; cbn [fst snd].
  - intros [Hs [H3 [before [after [Hd [Hb Ha]]]]]].
    destruct (Qltb s (name_score words product)) eqn:E1;
      destruct (Qltb (3 # 10) (name_score words product)) eqn:E2; cbn [andb fst snd].
    + apply Qltb_true in E1, E2. split; [reflexivity|]. split; [exact E2|].
      exists done, []. split; [reflexivity|]. split; [|intros p []].
      intros p Hp. rewrite Hd in Hp. apply in_app_iff in Hp.
      destruct Hp as [Hp | [<- | Hp]].
      * eapply Qlt_trans; [apply Hb, Hp | exact E1].
      * rewrite <- Hs. exact E1.
      * eapply Qle_lt_trans; [apply Ha, Hp | exact E1].
    + apply Qltb_true in E1. apply Qltb_false in E2. exfalso.
      apply (Qlt_irrefl (3 # 10)).
      eapply Qlt_le_trans; [exact H3|]. eapply Qle_trans; [|exact E2].
      apply Qlt_le_weak, E1.
    + apply Qltb_false in E1. split; [exact Hs|]. split; [exact H3|].
      exists before, (after ++ [product]). split; [|split; [exact Hb|]].
      * rewrite Hd, <- app_assoc. reflexivity.
      * intros p Hp. apply in_app_iff in Hp. destruct Hp as [Hp | [<- | []]];
          [apply Ha, Hp | exact E1].
    + apply Qltb_false in E1. split; [exact Hs|]. split; [exact H3|].
      exists before, (after ++ [product]). split; [|split; [exact Hb|]].
      * rewrite Hd, <- app_assoc. reflexivity.
      * intros p Hp. apply in_app_iff in Hp. destruct Hp as [Hp | [<- | []]];
          [apply Ha, Hp | exact E1].
  - intros [Hs Hall]. subst s.
    destruct (Qltb 0 (name_score words product)) eqn:E1;
      destruct (Qltb (3 # 10) (name_score words product)) eqn:E2; cbn [andb fst snd].
    + apply Qltb_true in E2. split; [reflexivity|]. split; [exact E2|].
      exists done, []. split; [reflexivity|]. split; [|intros p []].
      intros p Hp. eapply Qle_lt_trans; [apply Hall, Hp | exact E2].
    + apply Qltb_false in E2. split; [reflexivity|].
      intros p Hp. apply in_app_iff in Hp. destruct Hp as [Hp | [<- | []]];
        [apply Hall, Hp | exact E2].
    + apply Qltb_false in E1. apply Qltb_true in E2. exfalso.
      apply (Qlt_irrefl (3 # 10)).
      eapply Qlt_le_trans; [exact E2|]. eapply Qle_trans; [exact E1|]. discriminate.
    + apply Qltb_false in E2. split; [reflexivity|].
      intros p Hp. apply in_app_iff in Hp. destruct Hp as [Hp | [<- | []]];
        [apply Hall, Hp | exact E2].
Qed.

Lemma name_loop_best (products done : list Product) (best : option Product * Q) :
  best_named_so_far done best ->
  best_named_so_far (done ++ products) (best_by_name words products best).
Proof.
  unfold best_by_name. fold name_step.
  revert done best. induction products as [|p l IH]; intros done best H.
  - simpl. rewrite app_nil_r. exact H.
  - cbn [fold_left].
    replace (done ++ p :: l) with ((done ++ [p]) ++ l)
      by (rewrite <- app_assoc; reflexivity).
    apply IH, name_step_best, H.
Qed.
End ByName.

(** X15: [_extract_product_by_name] returns the first product of the
    highest name score, provided that score exceeds 0.3: a returned
    product is in the list, its score exceeds 0.3, no product before it
    reaches its score and none after it exceeds it.  The answer is [None]
    exactly when the message has no word left after the cart words and the
    short words are dropped, or no product scores above 0.3. *)
Theorem extract_product_by_name_best (message : string) (available_products : list Product) :
  let words := name_words_of message in
  (_extract_product_by_name message available_products = None
   <-> words = [] \/ forall p, In p available_products -> name_score words p <= 3 # 10)
  /\ forall chosen, _extract_product_by_name message available_products = Some chosen ->
       3 # 10 < name_score words chosen
       /\ exists before after,
            available_products = before ++ chosen :: after
            /\ (forall p, In p before -> name_score words p < name_score words chosen)
            /\ (forall p, In p after -> name_score words p <= name_score words chosen).
Proof.
  cbv zeta. unfold _extract_product_by_name.
  destruct (name_words_of message) as [|w ws] eqn:Ew.
  - split; [split; auto | discriminate].
  - rewrite <- Ew.
    pose proof (name_loop_best (name_words_of message) available_products [] (None, 0))
      as H.
    simpl app in H. unfold best_named_so_far at 1 in H. cbn [fst snd] in H.
    specialize (H (conj eq_refl (fun p (F : In p []) => match F with end))).
    unfold best_named_so_far in H.
    destruct (best_by_name (name_words_of message) available_products (None, 0))
      as [[chosen|] s];
      cbn [fst snd] in *.
    + destruct H as [Hs [H3 [before [after [Hd [Hb Ha]]]]]]. subst s. split.
      * split; [discriminate|]. intros [Hw | Hall]; [rewrite Ew in Hw; discriminate Hw|].
        exfalso. apply (Qlt_irrefl (3 # 10)). eapply Qlt_le_trans; [exact H3|].
        apply Hall. rewrite Hd. apply in_app_iff. right. left. reflexivity.
      * intros c Hc. injection Hc as <-. split; [exact H3|].
        exists before, after. auto.
    + destruct H as [_ Hall]. split; [|discriminate].
      split; [intros _; right; exact Hall | reflexivity].
Qed.

Lemma extract_product_by_name_best_witness :
  3 # 10 < name_score (name_words_of "add the mug to cart") RankingFacts.sample_mug.
Proof.
  apply (proj2 (extract_product_by_name_best "add the mug to cart"
                  RankingFacts.sample_catalog)).
  reflexivity.
Defined.

End ChoiceFacts.

(** ** Replies: budgets, indicators and the fallback of the model *)

Module ReplyFacts.
Import PyStr Data DataFacts ListFacts AgentOps.





(** Does the text have an upper-case letter? *)
Fixpoint has_upper (s : string) : bool :=
  match s with
  | EmptyString => false
  | String c s' => isupper c || has_upper s'
  end.

Lemma lower_char_not_upper (c : ascii) : isupper (lower_char c) = false.
Proof. destruct c as [[] [] [] [] [] [] [] []]; reflexivity. Qed.

Lemma prefix_of_lower (needle s : string) :
  String.prefix needle (lower s) = true -> has_upper needle = false.
Proof.
  revert s. induction needle as [|a needle IH]; intros s H; [reflexivity|].
  destruct s as [|b s]; [discriminate H|]. simpl in H.
  destruct (ascii_dec a (lower_char b)) as [-> | _]; [|discriminate H].
  simpl. rewrite lower_char_not_upper. apply (IH s H).
Qed.

(** A text with an upper-case letter does not occur in a lower-cased text. *)
Lemma upper_not_in_lower (needle s : string) :
  has_upper needle = true -> contains needle (lower s) = false.
Proof.
  intro Hu. induction s as [|c s IH].
  - cbn [lower contains]. rewrite orb_false_r.
    destruct (String.prefix needle "") eqn:E; [|reflexivity].
    apply (prefix_of_lower needle "") in E. congruence.
  - cbn [lower contains]. rewrite IH, orb_false_r.
    destruct (String.prefix needle (String (lower_char c) (lower s))) eqn:E; [|reflexivity].
    apply (prefix_of_lower needle (String c s)) in E. congruence.
Qed.

(** X17: two indicators can never fire.  Both functions look for their
    indicators in the lower-cased text, and an indicator with an upper-case
    letter does not occur there: [detect_cart_change] of the chat tab never
    finds "I've added" and [_is_product_recommendation] never finds "(ID:",
    so each function is decided by its other indicators alone. *)
Theorem uppercase_indicators_never_fire (text : string) :
  contains "I've added" (lower text) = false
  /\ contains "(ID:" (lower text) = false
  /\ StreamlitChat.detect_cart_change text
     = existsb (fun indicator => contains indicator (lower text))
               ["added to cart"; "added to your cart"; "✅ added";
                "removed from cart"; "removed from your cart"; "cart cleared"]
  /\ _is_product_recommendation text
     = existsb (fun indicator => contains indicator (lower text))
               ["recommend"; "suggest"; "perfect for"; "great choice"; "ideal for";
                "product id"; "here are some"; "i found"; "try these"].
Proof.
  assert (H1 : contains "I've added" (lower text) = false)
    by (apply upper_not_in_lower; reflexivity).
  assert (H2 : contains "(ID:" (lower text) = false)
    by (apply upper_not_in_lower; reflexivity).
  repeat split; [exact H1 | exact H2 | |].
  - unfold StreamlitChat.detect_cart_change. cbn [existsb]. rewrite H1. reflexivity.
  - unfold _is_product_recommendation. cbn [existsb]. rewrite H2. reflexivity.
Qed.

(** X18: every failure of the model sends the reply to the rule-based
    path.  With the client enabled, [generate_response] returns the text of
    the first candidate of a 200 answer; in every other case (an exception,
    another status code, no candidate) it returns a text that the test of
    lines 744-747 rejects.  The text of the disabled client, which has 51
    characters and no "trouble", would pass that test. *)
Theorem model_failure_falls_back (outcome : GeminiClient.Outcome) :
  ((exists text, outcome = GeminiClient.Response 200 (Some text)
                 /\ GeminiClient.generate_response true outcome = text)
   \/ GeminiClient.fallback_triggered (GeminiClient.generate_response true outcome) = true)
  /\ GeminiClient.fallback_triggered (GeminiClient.generate_response false outcome) = false.
Proof.
  split; [|reflexivity].
  destruct outcome as [|status_code [text|]]; [right; reflexivity | |].
  - unfold GeminiClient.generate_response. cbn [negb].
    destruct (status_code =? 200)%nat eqn:E; cbn [negb].
    + apply Nat.eqb_eq in E. subst. left. exists text. split; reflexivity.
    + right. reflexivity.
  - right. unfold GeminiClient.generate_response. cbn [negb].
    destruct (status_code =? 200)%nat; reflexivity.
Qed.

End ReplyFacts.

(** ** Printing a price *)

Module PrintFacts.
Import PyStr Data ListFacts.

Lemma digits_value_cons (c : ascii) (s : string) (acc : Z) :
  isdigit c = true ->
  Num.digits_value (String c s) acc = Num.digits_value s (10 * acc + Num.digit_value c)%Z.
Proof. intro H. cbn [Num.digits_value]. rewrite H. reflexivity. Qed.

Ltac next_digit IH :=
  rewrite digits_value_cons by reflexivity;
  match goal with
  | |- context [Num.digit_value ?c] =>
      let v := eval vm_compute in (Num.digit_value c) in
      change (Num.digit_value c) with v
  end;
  rewrite <- IH; f_equal; lia.

Lemma digits_value_uint_acc (d : Decimal.uint) (acc : positive) :
  Num.digits_value (NilEmpty.string_of_uint d) (Z.pos acc)
  = Some (Z.pos (Pos.of_uint_acc d acc)).
Proof.
  revert acc. induction d as [|d IH|d IH|d IH|d IH|d IH|d IH|d IH|d IH|d IH|d IH];
    intro acc; cbn [NilEmpty.string_of_uint Pos.of_uint_acc];
    [reflexivity | next_digit IH ..].
Qed.

Lemma digits_value_uint (d : Decimal.uint) :
  Num.digits_value (NilEmpty.string_of_uint d) 0%Z = Some (Z.of_N (Pos.of_uint d)).
Proof.
  induction d as [|d IH|d IH|d IH|d IH|d IH|d IH|d IH|d IH|d IH|d IH];
    cbn [NilEmpty.string_of_uint Pos.of_uint];
    [reflexivity | rewrite digits_value_cons by reflexivity; exact IH
    | rewrite digits_value_cons by reflexivity; apply digits_value_uint_acc ..].
Qed.

(** [int(str(n)) = n] for a number that is not negative. *)
Lemma digits_value_str (n : Z) :
  (0 <= n)%Z -> Num.digits_value (Num.str n) 0%Z = Some n.
Proof.
  intro Hn. destruct n as [|p|p]; [reflexivity | | lia].
  unfold Num.str. cbn [Z.to_int NilZero.string_of_int].
  pose proof (DecimalPos.Unsigned.to_uint_nonnil p) as Hnil.
  pose proof (DecimalPos.Unsigned.of_to p) as Hof.
  unfold NilZero.string_of_uint.
  destruct (Pos.to_uint p) eqn:E; try congruence;
    rewrite digits_value_uint, Hof; reflexivity.
Qed.

Lemma digits_value_zeros (k : nat) (s : string) :
  Num.digits_value (Num.zeros k ++ s) 0%Z = Num.digits_value s 0%Z.
Proof.
  induction k as [|k IH]; [reflexivity|].
  cbn [Num.zeros String.append]. rewrite digits_value_cons by reflexivity. exact IH.
Qed.

(** The number that [:02d] printed can be read back. *)
Lemma format_02d_value (n : Z) :
  (0 <= n)%Z -> Num.digits_value (Num.format_02d n) 0%Z = Some n.
Proof.
  intro Hn. unfold Num.format_02d. cbv zeta.
  assert (E : (n <? 0)%Z = false) by (apply Z.ltb_ge; exact Hn).
  rewrite E, digits_value_zeros, Z.abs_eq by exact Hn.
  apply digits_value_str, Hn.
Qed.

Lemma format_02d_two (n : Z) :
  (0 <= n < 100)%Z -> String.length (Num.format_02d n) = 2%nat.
Proof.
  intro Hn. rewrite <- (Z2Nat.id n) by lia.
  assert (Hk : (Z.to_nat n < 100)%nat) by lia.
  generalize dependent (Z.to_nat n). clear n Hn. intros k Hk.
  do 100 (destruct k as [|k]; [reflexivity|]). lia.
Qed.

(** X19: [format_price] of the user interface prints the cents.  For a
    price whose nanos lie between 0 and 999,999,999 the text is a dollar
    sign, the units, a dot and exactly two digits, which read
    [nanos // 10000000]: the cents, cut off and not rounded. *)
Theorem format_price_prints_cents (p : Price) :
  (0 <= nanos p < 1000000000)%Z ->
  exists cents,
    StreamlitUI.format_price p = ("$" ++ Num.str (units p) ++ "." ++ cents)%string
    /\ String.length cents = 2%nat
    /\ Num.digits_value cents 0%Z = Some (nanos p / 10000000)%Z
    /\ (inject_Z (nanos p / 10000000) * (1 # 100)
        <= nanos p # 1000000000
        < inject_Z (nanos p / 10000000 + 1) * (1 # 100))%Q.
Proof.
  intro Hn. exists (Num.format_02d (nanos p / 10000000)).
  assert (Hc : (0 <= nanos p / 10000000 < 100)%Z).
  { split; [apply Z.div_pos; lia | apply Z.div_lt_upper_bound; lia]. }
  split; [reflexivity|]. split; [apply format_02d_two, Hc|].
  split; [apply format_02d_value; lia|].
  pose proof (Z.mul_div_le (nanos p) 10000000 ltac:(lia)) as H1.
  pose proof (Z.mul_succ_div_gt (nanos p) 10000000 ltac:(lia)) as H2.
  unfold Qle, Qlt, Qmult, inject_Z. cbn [Qnum Qden]. lia.
Qed.

Lemma format_price_prints_cents_witness :
  exists cents,
    StreamlitUI.format_price (mkPrice 19 995000000) = ("$" ++ Num.str 19 ++ "." ++ cents)%string
    /\ String.length cents = 2%nat
    /\ Num.digits_value cents 0%Z = Some (995000000 / 10000000)%Z
    /\ (inject_Z (995000000 / 10000000) * (1 # 100)
        <= 995000000 # 1000000000
        < inject_Z (995000000 / 10000000 + 1) * (1 # 100))%Q.
Proof.
  apply (format_price_prints_cents (mkPrice 19 995000000)). simpl. lia.
Defined.

(** X20: the price of the coordinator's replies is right for whole
    dollars only.  [price_str] prints the nanos where [format_price] prints
    the cents, and for nanos that are not negative the two texts are equal
    exactly when the nanos are 0. *)
Theorem price_str_right_for_whole_dollars (p : Price) :
  (0 <= nanos p)%Z ->
  ShoppingAgent.price_str p = StreamlitUI.format_price p <-> nanos p = 0%Z.
Proof.
  intro Hn. unfold ShoppingAgent.price_str, StreamlitUI.format_price. split.
  - intro H.
    apply (append_cancel "$"), append_cancel, (append_cancel ".") in H.
    apply (f_equal (fun s => Num.digits_value s 0%Z)) in H.
    rewrite !format_02d_value in H by (try apply Z.div_pos; lia).
    injection H as H.
    destruct (Z.eq_dec (nanos p) 0) as [E | E]; [exact E|].
    assert (Hlt : (nanos p / 10000000 < nanos p)%Z) by (apply Z.div_lt; lia).
    lia.
  - intros ->. reflexivity.
Qed.

Lemma price_str_right_for_whole_dollars_witness :
  ShoppingAgent.price_str (mkPrice 19 0) = StreamlitUI.format_price (mkPrice 19 0)
  <-> nanos (mkPrice 19 0) = 0%Z.
Proof.
  apply (price_str_right_for_whole_dollars (mkPrice 19 0)). simpl. lia.
Defined.

End PrintFacts.

(** ** The messages of the agent and the endpoint /cart/action *)

Module ActionFacts.
Import PyStr Data CartAction.

(** The texts that [_get_user_friendly_error] can return. *)
Definition agent_messages : list string :=
  [ "Sorry, that product couldn't be found. Please try searching for products first to get valid product IDs.";
    "I'm having trouble connecting to the shopping cart right now. Please try again in a moment.";
    "There was an issue with the product information. Please try searching for the product again.";
    "I couldn't add that item to your cart right now. Please try again or search for the product first.";
    "The product search is taking too long. Please try again with different keywords.";
    "I'm having trouble accessing the product catalog. Please try again in a moment.";
    "I couldn't search for products right now. Please try again with different keywords.";
    "I can't access your cart right now. Please try again in a moment.";
    "There was a problem loading your cart. Please try refreshing.";
    "I'm having trouble loading product details right now. Please try again.";
    "I couldn't get the details for that product. Please try again.";
    "The request took too long. Please try again.";
    "I'm having trouble connecting to our systems. Please try again in a moment.";
    "Something went wrong. Please try again or rephrase your request." ].

Ltac split_ifs :=
  repeat match goal with
         | |- context [if ?b then _ else _] => destruct b
         end.

(** X21: [_get_user_friendly_error] answers with one of fourteen fixed
    texts, never with the text of the error, and one text of the source is
    never returned: "I couldn't find details for that product. It may no
    longer be available." (line 501) is guarded by a test that line 470 has
    already decided. *)
Theorem friendly_error_is_fixed_text (error_message operation : string) :
  In (ShoppingAgent._get_user_friendly_error error_message operation) agent_messages
  /\ ShoppingAgent._get_user_friendly_error error_message operation
     <> "I couldn't find details for that product. It may no longer be available.".
Proof.
  unfold ShoppingAgent._get_user_friendly_error. cbv zeta.
  generalize (contains "no product with id" (lower error_message)). intro missing.
  destruct missing; cbn [orb].
  - split; [left; reflexivity | discriminate].
  - split.
    + unfold agent_messages. split_ifs; simpl; auto 20.
    + split_ifs; discriminate.
Qed.

(** The text of every error of /cart/action for an add. *)
Definition could_not_add : string :=
  "I couldn't add that item to your cart right now. Please try again or search for the product first.".

Lemma agent_cart_add_messages (e : string) :
  In (ShoppingAgent._get_user_friendly_error e "cart_add")
     [ "Sorry, that product couldn't be found. Please try searching for products first to get valid product IDs.";
       "I'm having trouble connecting to the shopping cart right now. Please try again in a moment.";
       "There was an issue with the product information. Please try searching for the product again.";
       could_not_add ].
Proof.
  unfold ShoppingAgent._get_user_friendly_error. cbv zeta.
  change (String.eqb "cart_add" "cart_add") with true. cbv iota.
  split_ifs; simpl; auto.
Qed.

(** A friendly text that is made friendly once more. *)
Lemma friendly_twice (msg : string) :
  In msg ([ "User ID is required"; "Product ID is required";
            "Quantity must be greater than 0" ]
          ++ CartEndpointFacts.cart_failure_messages) ->
  ShoppingAgent._get_user_friendly_error msg "cart_add" = could_not_add.
Proof.
  intro H. simpl in H.
  repeat (destruct H as [<- | H]; [vm_compute; reflexivity|]). destruct H.
Qed.

Lemma agent_friendly_twice (e : string) :
  ShoppingAgent._get_user_friendly_error
    (ShoppingAgent._get_user_friendly_error e "cart_add") "cart_add"
  = could_not_add.
Proof.
  pose proof (agent_cart_add_messages e) as H.
  generalize dependent (ShoppingAgent._get_user_friendly_error e "cart_add").
  intros msg H. simpl in H.
  repeat (destruct H as [<- | H]; [vm_compute; reflexivity|]). destruct H.
Qed.

Lemma server_error_message {Store : Type}
      (AddItem : string -> string -> Z -> Store -> Store + string)
      (user_id product_id : string) (quantity : Z) (w : Cart.World Store) :
  let result := fst (Cart.add_item_to_cart Store AddItem user_id product_id quantity w) in
  Cart.status result = "success"
  \/ Cart.status result = "error"
     /\ In (Cart.message result)
           ([ "User ID is required"; "Product ID is required";
              "Quantity must be greater than 0" ]
            ++ CartEndpointFacts.cart_failure_messages).
Proof.
  cbv zeta. unfold Cart.add_item_to_cart.
  destruct (Cart.blank user_id); [right; split; [reflexivity | simpl; auto]|].
  destruct (Cart.blank product_id); [right; split; [reflexivity | simpl; auto]|].
  destruct (quantity <=? 0)%Z; [right; split; [reflexivity | simpl; auto]|].
  cbv zeta. destruct (AddItem _ _ _ _) as [st | e]; [left; reflexivity|].
  right. split; [reflexivity|]. apply in_app_iff. right.
  apply CartEndpointFacts.friendly_message.
Qed.

(** X22: /cart/action has one text for every failed add.  In the
    deployment, where the post of the agent either does not arrive or
    reaches [add_item_to_cart] of the server, an add is answered with the
    dictionary of a success, with the error 400 "Invalid action" when the
    product id is missing or empty, or with the error 500 and always the
    same detail: the message of the agent or of the server is itself made
    friendly once more, and none of their texts survives that.  A
    quantity of 0 is not refused: it is an add of one unit. *)
Theorem cart_action_add_replies
        (Store : Type)
        (link : string -> string -> Z -> option string)
        (AddItem : string -> string -> Z -> Store -> Store + string)
        (user_id : string) (product_id : option string) (quantity : option Z)
        (w : Cart.World Store) :
  let act := cart_action_add Store (deployed_post link AddItem) user_id product_id in
  match fst (act quantity w) with
  | Returned result => Cart.status result = "success"
  | HttpError status_code detail =>
      status_code = 400%nat /\ detail = "Invalid action"
      /\ (product_id = None \/ product_id = Some "")
      \/ status_code = 500%nat /\ detail = could_not_add
  end
  /\ act (Some 0%Z) w = act (Some 1%Z) w
  /\ act None w = act (Some 1%Z) w.
Proof.
  cbv zeta. split; [|split; reflexivity].
  unfold cart_action_add.
  destruct product_id as [product_id'|]; [|left; auto].
  destruct (String.eqb product_id' "") eqn:Ep.
  { apply String.eqb_eq in Ep. subst. left. auto. }
  unfold Cart.add_to_cart.
  destruct (Cart.blank user_id);
    [cbn [fst]; right; split; [reflexivity | vm_compute; reflexivity]|].
  destruct (Cart.blank product_id');
    [cbn [fst]; right; split; [reflexivity | vm_compute; reflexivity]|].
  destruct (quantity_or_1 quantity <=? 0)%Z;
    [cbn [fst]; right; split; [reflexivity | vm_compute; reflexivity]|].
  cbv zeta. unfold deployed_post.
  destruct (link user_id product_id' (quantity_or_1 quantity)) as [e|].
  - cbn [Cart.error Cart.status Cart.message String.eqb Ascii.eqb Bool.eqb fst].
    right. split; [reflexivity | apply agent_friendly_twice].
  - pose proof (server_error_message AddItem user_id product_id' (quantity_or_1 quantity)
                  (Cart.record Store
                     (Cart.HttpPost "/add_item_to_cart" user_id product_id'
                                    (quantity_or_1 quantity)) w)) as H.
    cbv zeta in H.
    destruct (Cart.add_item_to_cart Store AddItem user_id product_id' _ _) as [result w'].
    cbn [fst] in H.
    destruct (String.eqb (Cart.status result) "error") eqn:Es; cbn [fst].
    + right. split; [reflexivity|].
      destruct H as [H | [_ H]]; [rewrite H in Es; discriminate Es|].
      apply friendly_twice, H.
    + destruct H as [H | [H _]]; [exact H|]. rewrite H in Es. discriminate Es.
Qed.

End ActionFacts.

(** ** The command that adds every product *)

Module AddAllFacts.
Import PyStr Data CartAction.

(** The calls that one product costs: none when the agent refuses the
    request, the post of the agent, and the gRPC call of the server when
    the post arrives. *)
Definition calls_for (link : string -> string -> Z -> option string)
           (user_id : string) (product : Product) : list Cart.Call :=
  if Cart.blank user_id || Cart.blank (id product) then []
  else
    Cart.HttpPost "/add_item_to_cart" user_id (id product) 1
    :: match link user_id (id product) 1%Z with
       | Some _ => []
       | None => [Cart.GrpcAddItem user_id (id product) 1]
       end.

Section Deployment.
Variable Store : Type.
Variable link : string -> string -> Z -> option string.
Variable AddItem : string -> string -> Z -> Store -> Store + string.

Lemma add_one_calls (user_id : string)
      (state : list string * list string * Cart.World Store) (product : Product) :
  Cart.calls (snd (add_one Store (deployed_post link AddItem) user_id state product))
  = Cart.calls (snd state) ++ calls_for link user_id product.
Proof.
  destruct state as [[added_products failed_products] w]. unfold add_one, calls_for.
  destruct (String.eqb (id product) "") eqn:Ei.
  { apply String.eqb_eq in Ei. rewrite Ei. cbn [Cart.blank snd].
    rewrite orb_true_r, app_nil_r. reflexivity. }
  unfold Cart.add_to_cart.
  destruct (Cart.blank user_id) eqn:Eu; [cbn; rewrite app_nil_r; reflexivity|].
  destruct (Cart.blank (id product)) eqn:Ep; [cbn; rewrite app_nil_r; reflexivity|].
  change (1 <=? 0)%Z with false. cbv iota zeta. cbn [orb].
  unfold deployed_post.
  destruct (link user_id (id product) 1%Z) as [e|].
  - cbn. reflexivity.
  - unfold Cart.add_item_to_cart. rewrite Eu, Ep.
    change (1 <=? 0)%Z with false. cbv iota zeta.
    cbn [Cart.record Cart.store Cart.calls].
    destruct (AddItem user_id (id product) 1%Z (Cart.store w)) as [st | e];
      cbn; rewrite <- app_assoc; reflexivity.
Qed.

Lemma add_loop_calls (user_id : string) (products : list Product)
      (state : list string * list string * Cart.World Store) :
  Cart.calls (snd (fold_left (add_one Store (deployed_post link AddItem) user_id)
                             products state))
  = Cart.calls (snd state) ++ flat_map (calls_for link user_id) products.
Proof.
  revert state. induction products as [|p l IH]; intro state; cbn [fold_left flat_map].
  - rewrite app_nil_r. reflexivity.
  - rewrite IH, add_one_calls, <- app_assoc. reflexivity.
Qed.
End Deployment.

(** X23: "add all" adds at most five products, one unit of each.  In the
    deployment, where the post of the agent either does not arrive or
    reaches [add_item_to_cart] of the server, the calls of
    [_add_all_products_to_cart] are those of the first five products, in
    their order: for a product with an id that is not blank, one post and,
    when it arrives, one AddItem, both with the quantity 1.  The products
    after the fifth are not added, and no call is made for a blank user
    id. *)
Theorem add_all_adds_first_five
        (Store : Type)
        (link : string -> string -> Z -> option string)
        (AddItem : string -> string -> Z -> Store -> Store + string)
        (user_id : string) (available_products : list Product) (w : Cart.World Store) :
  let w' := snd (_add_all_products_to_cart Store (deployed_post link AddItem)
                                           user_id available_products w) in
  Cart.calls w'
  = Cart.calls w ++ flat_map (calls_for link user_id) (firstn 5 available_products)
  /\ (List.length (Cart.calls w') <= List.length (Cart.calls w) + 10)%nat
  /\ (forall call, In call (Cart.calls w') -> In call (Cart.calls w)
        \/ exists product,
             In product (firstn 5 available_products)
             /\ (call = Cart.HttpPost "/add_item_to_cart" user_id (id product) 1
                 \/ call = Cart.GrpcAddItem user_id (id product) 1))
  /\ (Cart.blank user_id = true -> Cart.calls w' = Cart.calls w).
Proof.
  cbv zeta.
  assert (H : Cart.calls (snd (_add_all_products_to_cart Store (deployed_post link AddItem)
                                 user_id available_products w))
              = Cart.calls w
                  ++ flat_map (calls_for link user_id) (firstn 5 available_products)).
  { unfold _add_all_products_to_cart.
    destruct available_products as [|p l] eqn:Ea; [simpl; rewrite app_nil_r; reflexivity|].
    rewrite <- Ea. cbv zeta.
    pose proof (add_loop_calls Store link AddItem user_id (firstn 5 available_products)
                  ([], [], w)) as Hl.
    destruct (fold_left _ (firstn 5 available_products) ([], [], w))
      as [[added_products failed_products] w'].
    exact Hl. }
  rewrite H. split; [reflexivity|]. split; [|split].
  - rewrite length_app.
    assert (Hl : forall l, (List.length (flat_map (calls_for link user_id) l)
                            <= 2 * List.length l)%nat).
    { induction l as [|p l IH]; [simpl; lia|].
      cbn [flat_map]. rewrite length_app. cbn [List.length].
      assert (Hp : (List.length (calls_for link user_id p) <= 2)%nat).
      { unfold calls_for. destruct (_ || _); [simpl; lia|].
        destruct (link _ _ _); simpl; lia. }
      lia. }
    specialize (Hl (firstn 5 available_products)).
    pose proof (firstn_le_length 5 available_products). lia.
  - intros call Hc. apply in_app_iff in Hc. destruct Hc as [Hc | Hc]; [left; exact Hc|].
    right. apply in_flat_map in Hc. destruct Hc as [p [Hp Hc]]. exists p.
    split; [exact Hp|]. unfold calls_for in Hc.
    destruct (_ || _); [destruct Hc|].
    destruct Hc as [<- | Hc]; [left; reflexivity|].
    destruct (link _ _ _); [destruct Hc|].
    destruct Hc as [<- | []]. right. reflexivity.
  - intro Hu.
    replace (flat_map (calls_for link user_id) (firstn 5 available_products))
      with (@nil Cart.Call); [apply app_nil_r|].
    clear H. generalize (firstn 5 available_products). intro l.
    induction l as [|p l IH]; [reflexivity|].
    cbn [flat_map]. unfold calls_for at 1. rewrite Hu. cbn [orb app]. exact IH.
Qed.

Lemma add_all_adds_first_five_witness :
  Cart.calls (snd (_add_all_products_to_cart (list string)
                     (deployed_post (fun _ _ _ => None) (fun _ p _ st => inl (p :: st)))
                     " " RankingFacts.sample_catalog (Cart.mkWorld [] [])))
  = [].
Proof.
  apply (proj2 (proj2 (proj2 (add_all_adds_first_five (list string)
                                (fun _ _ _ => None) (fun _ p _ st => inl (p :: st))
                                " " RankingFacts.sample_catalog (Cart.mkWorld [] []))))).
  reflexivity.
Defined.

End AddAllFacts.

(** ** Search terms *)

Module TermFacts.
Import PyStr PyStrFacts Data ListFacts Re ReFacts Scan.

Lemma lstrip_collapse (s : string) :
  lstrip_by isspace (SemanticSearchEngine.collapse_spaces s)
  = SemanticSearchEngine.collapse_spaces (lstrip_by isspace s).
Proof.
  induction s as [|c s IH]; [reflexivity|].
  rewrite EngineFacts.collapse_cons. cbn [lstrip_by].
  destruct (isspace c) eqn:Ec.
  - destruct s as [|d s']; [reflexivity|].
    destruct (isspace d) eqn:Ed; [exact IH|].
    cbn [lstrip_by]. change (isspace " ") with true. cbv iota. exact IH.
  - cbn [lstrip_by]. rewrite Ec. rewrite EngineFacts.collapse_cons, Ec. reflexivity.
Qed.

Lemma join_words_nonempty (w : string) (ws : list string) :
  w <> EmptyString -> join " " (w :: ws) <> EmptyString.
Proof.
  intro Hw. rewrite join_cons. destruct ws; [exact Hw|].
  destruct w; [congruence | discriminate].
Qed.

(** A text without white space at its end, with its runs of white
    space collapsed: the words, after one space when the text begins with
    white space. *)
Lemma rstrip_collapse (s : string) :
  rstrip_by isspace (SemanticSearchEngine.collapse_spaces s)
  = if starts_word s then join " " (split s)
    else match split s with
         | [] => EmptyString
         | ws => String " " (join " " ws)
         end.
Proof.
  induction s as [|c s IH]; [reflexivity|].
  rewrite EngineFacts.collapse_cons. cbn [starts_word].
  destruct (isspace c) eqn:Ec; cbn [negb].
  - rewrite split_cons_space by exact Ec.
    destruct s as [|d s']; [reflexivity|].
    cbn [starts_word] in IH. destruct (isspace d) eqn:Ed; cbn [negb] in IH.
    + exact IH.
    + rewrite rstrip_cons, IH.
      pose proof (split_words (String d s')) as Hw.
      rewrite split_cons_word in * by exact Ed.
      destruct (starts_word s').
      * destruct (split s') as [|w ws]; [reflexivity|].
        rewrite join_cons. destruct ws; reflexivity.
      * rewrite join_cons. destruct (split s'); reflexivity.
  - rewrite rstrip_cons, IH, split_cons_word by exact Ec.
    destruct (starts_word s) eqn:Es.
    + destruct (split s) as [|w ws] eqn:E.
      * unfold join. cbn [String.concat]. rewrite Ec. reflexivity.
      * pose proof (split_words s) as Hw. rewrite E in Hw.
        inversion Hw as [|? ? [Hne _] _]; subst.
        pose proof (join_words_nonempty w ws Hne) as Hj.
        destruct (join " " (w :: ws)) as [|a j] eqn:Ej; [congruence|].
        rewrite <- Ej, !join_cons. destruct ws; reflexivity.
    + destruct (split s) as [|w ws] eqn:E.
      * rewrite Ec. reflexivity.
      * rewrite (join_cons (String c EmptyString)). reflexivity.
Qed.

(** [re.sub(r'\s+', ' ', msg).strip()] is the words of [msg] with one
    space between them. *)
Lemma strip_collapse (s : string) :
  strip (SemanticSearchEngine.collapse_spaces s) = join " " (split s).
Proof.
  unfold strip. rewrite lstrip_collapse, rstrip_collapse, split_lstrip.
  destruct (starts_word (lstrip_by isspace s)) eqn:E; [reflexivity|].
  destruct (split s) as [|w ws] eqn:Es; [reflexivity|]. exfalso.
  rewrite <- split_lstrip in Es.
  destruct (lstrip_by isspace s) as [|c t] eqn:El; [discriminate Es|].
  cbn [starts_word] in E. apply negb_false_iff in E.
  clear -El E. induction s as [|d s IH]; [discriminate El|].
  cbn [lstrip_by] in El. destruct (isspace d) eqn:Ed; [exact (IH El)|].
  injection El as -> _. congruence.
Qed.

Lemma filter_words (f : string -> bool) (ws : list string) :
  Forall is_word ws -> Forall is_word (filter f ws).
Proof.
  intro H. apply Forall_forall. intros w Hw. apply filter_In in Hw.
  rewrite Forall_forall in H. apply H, Hw.
Qed.

Lemma lit_matches_eq (p s : string) : lit_matches false p s = true -> s = p.
Proof.
  revert s. induction p as [|a p IH]; intros [|b s] H; try discriminate H; [reflexivity|].
  cbn [lit_matches] in H. apply andb_true_iff in H. destruct H as [Hc Hs].
  unfold char_eq in Hc. apply Ascii.eqb_eq in Hc. subst. rewrite (IH _ Hs). reflexivity.
Qed.

Lemma prefix_append (t s : string) : String.prefix t (t ++ s) = true.
Proof.
  induction t as [|a t IH]; [destruct s; reflexivity|]. simpl.
  destruct (ascii_dec a a); [exact IH | congruence].
Qed.

(** Where [r'\b' + re.escape(term) + r'\b'] matches, the text goes on
    with the term. *)
Lemma whole_term_here (term : string) (prev : option ascii) (s s' : string) :
  match_here (whole_term term) prev s = Some s' -> String.prefix term s = true.
Proof.
  unfold match_here. intro H.
  destruct (run_sound false _ _ _ _ _ _ H) as [s1 [s2 [prev' [cap' [Hs [Hsem Hk]]]]]].
  injection Hk as <-. subst s. unfold whole_term in Hsem.
  inversion Hsem as [| ? ? x1 x2 ? ? ? H1 H2 | | | | | | |]; subst; clear Hsem.
  inversion H1; subst; clear H1.
  inversion H2 as [| ? ? x3 x4 ? ? ? H3 H4 | | | | | | |]; subst; clear H2.
  inversion H4; subst; clear H4.
  inversion H3 as [? ? ? Hm | | | | | | | |]; subst; clear H3.
  apply lit_matches_eq in Hm. subst x3.
  cbn [String.append]. rewrite append_nothing. apply prefix_append.
Qed.

(** [re.sub] leaves a text without the term as it is. *)
Lemma sub_absent (term s : string) :
  contains term s = false ->
  forall prev, sub_at (whole_term term) " " prev s 0 = s.
Proof.
  induction s as [|c s IH]; intros Hc prev; cbn [sub_at].
  - destruct (match_here (whole_term term) prev EmptyString) as [s'|] eqn:E; [|reflexivity].
    apply whole_term_here in E. cbn [contains] in Hc. rewrite E in Hc. discriminate Hc.
  - cbn [contains] in Hc. apply orb_false_iff in Hc. destruct Hc as [Hp Hc].
    destruct (match_here (whole_term term) prev (String c s)) as [s'|] eqn:E.
    + apply whole_term_here in E. congruence.
    + rewrite (IH Hc). reflexivity.
Qed.

Lemma remove_terms_absent (terms : list string) (msg : string) :
  (forall term, In term terms -> contains term msg = false) ->
  SearchTerms.remove_terms terms msg = msg.
Proof.
  unfold SearchTerms.remove_terms. induction terms as [|term terms IH]; intro H;
    [reflexivity|].
  cbn [fold_left]. unfold sub at 2. rewrite sub_absent by (apply H; left; reflexivity).
  apply IH. intros t Ht. apply H. right. exact Ht.
Qed.

(** X24: the search terms that [_extract_search_terms] returns are in
    normal form, whatever the message and the intent: words with one
    space between them and none around them.  Short words (one or two
    characters) survive only in an answer of at most two words.  And a
    message without any of the phrases to remove is only put in that
    form: the answer is its lower-cased words, without the short ones when
    there are more than two words. *)
Theorem extract_search_terms_normal_form (message intent : string) :
  let terms := SearchTerms._extract_search_terms message intent in
  terms = join " " (split terms)
  /\ ((List.length (split terms) <= 2)%nat
      \/ forall word, In word (split terms) -> (2 < String.length word)%nat)
  /\ ((forall term, In term (SearchTerms.terms_to_remove intent) ->
         contains term (strip (lower message)) = false) ->
      let words := split (lower message) in
      terms = join " " (if (2 <? List.length words)%nat then filter long_word words
                        else words)).
Proof.
  cbv zeta. unfold SearchTerms._extract_search_terms. cbv zeta.
  rewrite strip_collapse.
  split; [|split].
  - set (msg := SearchTerms.remove_terms _ _).
    pose proof (split_words msg) as Hw.
    rewrite (split_join _ Hw).
    destruct (2 <? List.length (split msg))%nat.
    + rewrite (split_join _ (filter_words _ _ Hw)). reflexivity.
    + rewrite (split_join _ Hw). reflexivity.
  - set (msg := SearchTerms.remove_terms _ _).
    pose proof (split_words msg) as Hw.
    rewrite (split_join _ Hw).
    destruct (2 <? List.length (split msg))%nat eqn:E.
    + rewrite (split_join _ (filter_words _ _ Hw)).
      right. intros word Hin. apply filter_In in Hin. destruct Hin as [_ Hl].
      unfold long_word in Hl. apply Nat.ltb_lt in Hl. exact Hl.
    + rewrite (split_join _ Hw). left. apply Nat.ltb_ge in E. exact E.
  - intro Habsent. rewrite (remove_terms_absent _ _ Habsent).
    rewrite split_strip.
    rewrite (split_join _ (split_words (lower message))).
    destruct (2 <? List.length (split (lower message)))%nat; reflexivity.
Qed.

Lemma extract_search_terms_normal_form_witness :
  let words := split (lower "  Red   SHOES of a kind ") in
  SearchTerms._extract_search_terms "  Red   SHOES of a kind " "search"
  = join " " (if (2 <? List.length words)%nat then filter long_word words else words).
Proof.
  apply (proj2 (proj2 (extract_search_terms_normal_form "  Red   SHOES of a kind "
                         "search"))).
  intros term Hin. cbn [SearchTerms.terms_to_remove String.eqb Ascii.eqb Bool.eqb] in Hin.
  simpl in Hin.
  repeat (destruct Hin as [<- | Hin]; [reflexivity|]). destruct Hin.
Defined.

End TermFacts.

(** ** The cleaned query of the server *)

Module QueryFacts.
Import PyStr PyStrFacts ListFacts Re ReFacts Scan QueryCleaning.
























End QueryFacts.
